(** * ScummVM for Yuza: file handles and the Yuza filesystem backend

    A shallow embedding of [common/file.cpp] (the read handle [File] and the
    write handle [DumpFile]), of [backends/fs/yuza/yuza-fs.cpp] (the
    filesystem node of the Yuza port and [Posix::assureDirectoryExists]) and
    of [common/lua/scummvm_file.cpp] (the proxy that stands in for the file
    [config.lua] of a Lua script).

    C++ calls that can abort are computations in the monad [M]: a call either
    returns a value and a new world, or stops in a failed [assert], or
    dereferences a null pointer.  The world holds the state of the host
    filesystem and the trace of everything the program asked of its
    environment (system calls, archive lookups, log lines), in order. *)

From Stdlib Require Import ZArith Ascii String.
From stdpp Require Import base option list strings gmap pretty.

Local Open Scope Z_scope.

(** ** Outcomes of a call *)

Inductive outcome (A : Type) : Type :=
| Ret (a : A)        (* the call returns [a] *)
| AssertFail         (* an [assert] failed: the program aborts *)
| NullDeref.         (* a member was called through a null pointer *)
Arguments Ret {A} a.
Arguments AssertFail {A}.
Arguments NullDeref {A}.

(** ** The environment *)

(** [errno] after a failed system call; only [EEXIST] is told apart. *)
Inductive errno : Type := EEXIST | ENOENT | ENOTDIR | EACCES | EIO.

Global Instance errno_eq_dec : EqDecision errno.
Proof. solve_decision. Defined.

(** The result of a system call that returns [0] or [-1] and sets [errno]. *)
Inductive sys_result : Type :=
| SysOk
| SysErr (e : errno).

(** [d_type] of a [struct dirent]. *)
Inductive d_type_t : Type := DT_UNKNOWN | DT_DIR | DT_REG | DT_LNK | DT_OTHER.

Global Instance d_type_eq_dec : EqDecision d_type_t.
Proof. solve_decision. Defined.

Record dirent : Type := { d_name : string; d_type : d_type_t }.

(** [access(2)] modes. *)
Inductive access_mode : Type := F_OK | R_OK | W_OK.

(** The host system, over any type [FS] of filesystem states.  [os_stat]
    gives [st_mode] when [stat(2)] returns 0; [os_opendir] gives the entries
    that the [readdir] calls on the opened stream produce, in order;
    [S_ISDIR] is the macro of the platform's [stat_def.h]. *)
Class OS (FS : Type) : Type := {
  os_stat : FS → string → option Z;
  os_access : FS → string → access_mode → bool;
  os_mkdir : FS → string → Z → FS * sys_result;
  os_opendir : FS → string → option (list dirent);
  S_ISDIR : Z → bool;
}.

(** What the program asked of its environment. *)
Inductive event : Type :=
| EvStat (path : string)
| EvAccess (path : string) (mode : access_mode)
| EvMkdir (path : string)
| EvOpendir (path : string)
| EvClosedir (path : string)
| EvHasFile (name : string)
| EvCreateReadStreamForMember (name : string)
| EvWarning (msg : string)
| EvDebug (level : Z) (msg : string).

Record World (FS : Type) : Type := mkWorld { w_fs : FS; w_trace : list event }.
Arguments mkWorld {FS} w_fs w_trace.
Arguments w_fs {FS} w.
Arguments w_trace {FS} w.

Definition emit {FS} (e : event) (w : World FS) : World FS :=
  mkWorld (w_fs w) (w_trace w ++ [e]).

(** ** The monad of calls *)

Definition M (FS A : Type) : Type := World FS → outcome (A * World FS).

Global Instance M_ret {FS} : MRet (M FS) := λ A a w, Ret (a, w).

Global Instance M_bind {FS} : MBind (M FS) := λ A B f m w,
  match m w with
  | Ret (a, w') => f a w'
  | AssertFail => AssertFail
  | NullDeref => NullDeref
  end.

(** [assert(b)] *)
Definition assert_ {FS} (b : bool) : M FS unit :=
  λ w, if b then Ret (tt, w) else AssertFail.

Definition log {FS} (e : event) : M FS unit := λ w, Ret (tt, emit e w).

(** [warning(msg)] and [debug(level, msg)] of [common/textconsole.h] and
    [common/debug.h]: a line in the log, nothing else. *)
Definition warning {FS} (msg : string) : M FS unit := log (EvWarning msg).
Definition debug {FS} (level : Z) (msg : string) : M FS unit := log (EvDebug level msg).

Section Syscalls.
Context {FS : Type} {os : OS FS}.

Definition sys_stat (path : string) : M FS (option Z) :=
  λ w, Ret (os_stat (w_fs w) path, emit (EvStat path) w).

Definition sys_access (path : string) (mode : access_mode) : M FS bool :=
  λ w, Ret (os_access (w_fs w) path mode, emit (EvAccess path mode) w).

Definition sys_mkdir (path : string) (mode : Z) : M FS sys_result :=
  λ w, let '(fs', r) := os_mkdir (w_fs w) path mode in
       Ret (r, mkWorld fs' (w_trace w ++ [EvMkdir path])).

Definition sys_opendir (path : string) : M FS (option (list dirent)) :=
  λ w, Ret (os_opendir (w_fs w) path, emit (EvOpendir path) w).

Definition sys_closedir (path : string) : M FS unit := log (EvClosedir path).

End Syscalls.

(** ** Strings *)

Definition NUL : ascii := Ascii.zero.

(** [s[i]] on a [Common::String] or a C string: the byte at [i], and the
    terminating NUL at [i = size]. *)
Definition char_at (s : string) (i : nat) : ascii := default NUL (String.get i s).

(** [s.c_str()] read as a C string: the bytes before the first NUL. *)
Fixpoint c_str (s : string) : string :=
  match s with
  | EmptyString => EmptyString
  | String c s' => if decide (c = NUL) then EmptyString else String c (c_str s')
  end.

(** [s.empty()], [s.lastChar()] and [s.contains(c)] of [Common::String]. *)
Definition empty (s : string) : bool := bool_decide (s = "").

Definition lastChar (s : string) : ascii :=
  match String.length s with
  | O => NUL
  | S n => char_at s n
  end.

Fixpoint contains (s : string) (c : ascii) : bool :=
  match s with
  | EmptyString => false
  | String c' s' => bool_decide (c' = c) || contains s' c
  end.

(** [Common::normalizePath] and [Common::lastPathComponent] are declared in
    [common/str.h], which is not among the sources: they are parameters. *)
Class CommonStr : Type := {
  normalizePath : string → ascii → string;
  lastPathComponent : string → ascii → string;
}.

(** * backends/fs/yuza/yuza-fs.cpp *)

(** The preprocessor symbols the file branches on.  The model covers the
    builds in which [__OS2__], [PSP2] and [__ANDROID__] are undefined (the
    Yuza port defines [SKYOS32]). *)
Class Build : Type := {
  SKYOS32 : bool;
  SYSTEM_NOT_SUPPORTING_D_TYPE : bool;
}.

(** [Common::FSNode::ListMode] *)
Inductive ListMode : Type := kListFilesOnly | kListDirectoriesOnly | kListAll.

Global Instance ListMode_eq_dec : EqDecision ListMode.
Proof. solve_decision. Defined.

Record YuzaFilesystemNode : Type := mkNode {
  _displayName : string;
  _path : string;
  _isDirectory : bool;
  _isValid : bool;
}.

Definition set_displayName (n : YuzaFilesystemNode) (s : string) : YuzaFilesystemNode :=
  mkNode s (_path n) (_isDirectory n) (_isValid n).

Definition set_path (n : YuzaFilesystemNode) (s : string) : YuzaFilesystemNode :=
  mkNode (_displayName n) s (_isDirectory n) (_isValid n).

Definition set_flags (n : YuzaFilesystemNode) (isValid isDirectory : bool) : YuzaFilesystemNode :=
  mkNode (_displayName n) (_path n) isDirectory isValid.

Section YuzaNode.
Context {FS : Type} {os : OS FS} {cs : CommonStr} {build : Build}.

(** [makeNode] is declared in [yuza-fs.h], which is not among the sources:
    it is a parameter, returning an [AbstractFSNode] built from a path. *)
Context {AbstractFSNode : Type} (makeNode : string → M FS AbstractFSNode).

Definition exists_ (n : YuzaFilesystemNode) : M FS bool :=
  sys_access (c_str (_path n)) F_OK.

Definition isReadable (n : YuzaFilesystemNode) : M FS bool :=
  sys_access (c_str (_path n)) R_OK.

Definition isWritable (n : YuzaFilesystemNode) : M FS bool :=
  sys_access (c_str (_path n)) W_OK.

Definition isDirectory (n : YuzaFilesystemNode) : bool := _isDirectory n.

Definition getPath (n : YuzaFilesystemNode) : string := _path n.

(** [_isValid = (0 == stat(...)); _isDirectory = _isValid ? (st.st_mode == 0) : false] *)
Definition setFlags (n : YuzaFilesystemNode) : M FS YuzaFilesystemNode :=
  st ← sys_stat (c_str (_path n));
  match st with
  | Some st_mode => mret (set_flags n true (bool_decide (st_mode = 0)))
  | None => mret (set_flags n false false)
  end.

(** The constructor [YuzaFilesystemNode(const Common::String &p)]. *)
Definition YuzaFilesystemNode_new (p : string) : M FS YuzaFilesystemNode :=
  assert_ (bool_decide (0 < String.length p)%nat);;
  if SKYOS32 && bool_decide (p = "/") then
    mret (mkNode p p true false)
  else
    let path := normalizePath p "/" in
    setFlags (mkNode (lastPathComponent path "/") path false false).

Definition getChild (this : YuzaFilesystemNode) (n : string) : M FS AbstractFSNode :=
  assert_ (negb (empty (_path this)));;
  assert_ (_isDirectory this);;
  assert_ (negb (contains n "/"));;
  let newPath := _path this in
  let newPath := if decide (lastChar (_path this) ≠ "/"%char) then newPath +:+ "/" else newPath in
  let newPath := newPath +:+ n in
  makeNode newPath.

(** The classification of one entry: the three preprocessor branches. *)
Definition classify (entry : YuzaFilesystemNode) (dp : dirent) : M FS YuzaFilesystemNode :=
  if SKYOS32 then setFlags entry
  else if SYSTEM_NOT_SUPPORTING_D_TYPE then setFlags entry
  else if decide (d_type dp = DT_UNKNOWN) then setFlags entry
  else
    let isValid := bool_decide (d_type dp = DT_DIR) || bool_decide (d_type dp = DT_REG)
                   || bool_decide (d_type dp = DT_LNK) in
    if decide (d_type dp = DT_LNK) then
      st ← sys_stat (c_str (_path entry));
      match st with
      | Some st_mode => mret (set_flags entry isValid (S_ISDIR st_mode))
      | None => mret (set_flags entry isValid false)
      end
    else mret (set_flags entry isValid (bool_decide (d_type dp = DT_DIR))).

(** The body of the [readdir] loop for the entry [dp]; [myList] is returned
    as it is where the C++ says [continue]. *)
Definition readdir_body (this : YuzaFilesystemNode) (mode : ListMode) (hidden : bool)
    (dp : dirent) (myList : list YuzaFilesystemNode) : M FS (list YuzaFilesystemNode) :=
  let c0 := char_at (d_name dp) 0 in
  let c1 := char_at (d_name dp) 1 in
  if bool_decide (c0 = "."%char) && negb hidden then mret myList
  else if (bool_decide (c0 = "."%char) && bool_decide (c1 = NUL))
          || (bool_decide (c0 = "."%char) && bool_decide (c1 = "."%char)) then mret myList
  else
    let entry := set_displayName this (d_name dp) in
    let entry := if decide (lastChar (_path this) ≠ "/"%char)
                 then set_path entry (_path entry +:+ "/") else entry in
    let entry := set_path entry (_path entry +:+ _displayName entry) in
    entry ← classify entry dp;
    if negb (_isValid entry) then mret myList
    else if (bool_decide (mode = kListFilesOnly) && _isDirectory entry)
            || (bool_decide (mode = kListDirectoriesOnly) && negb (_isDirectory entry))
    then mret myList
    else mret (myList ++ [entry]).

(** [while ((dp = readdir(dirp)) != NULL) ...] over the entries of the
    opened directory stream. *)
Fixpoint readdir_loop (this : YuzaFilesystemNode) (mode : ListMode) (hidden : bool)
    (entries : list dirent) (myList : list YuzaFilesystemNode)
    : M FS (list YuzaFilesystemNode) :=
  match entries with
  | [] => mret myList
  | dp :: rest =>
      myList' ← readdir_body this mode hidden dp myList;
      readdir_loop this mode hidden rest myList'
  end.

(** [getChildren(myList, mode, hidden)]: the returned pair is the boolean
    result and [myList] after the call. *)
Definition getChildren (this : YuzaFilesystemNode) (myList : list YuzaFilesystemNode)
    (mode : ListMode) (hidden : bool) : M FS (bool * list YuzaFilesystemNode) :=
  assert_ (_isDirectory this);;
  dirp ← sys_opendir (c_str (_path this));
  match dirp with
  | None => mret (false, myList)
  | Some entries =>
      myList' ← readdir_loop this mode hidden entries myList;
      sys_closedir (c_str (_path this));;
      mret (true, myList')
  end.

(** [while (end > start && *(end-1) != '/') end--;] with [start] at offset 0;
    the result is the final offset of [end]. *)
Fixpoint strip_last_component (path : string) (end_ : nat) : nat :=
  match end_ with
  | O => O
  | S e => if decide (char_at path e ≠ "/"%char) then strip_last_component path e else end_
  end.

Definition getParent (this : YuzaFilesystemNode) : M FS (option AbstractFSNode) :=
  if decide (_path this = "/") then mret None
  else
    let end_ := strip_last_component (_path this) (String.length (_path this)) in
    if decide (end_ = O) then mret None
    else
      parent ← makeNode (String.substring 0 end_ (_path this));
      mret (Some parent).

(** [createDirectory()]: the pair is the result and the node afterwards. *)
Definition createDirectory (this : YuzaFilesystemNode) : M FS (bool * YuzaFilesystemNode) :=
  r ← sys_mkdir (c_str (_path this)) 0;
  this' ← match r with
          | SysOk => setFlags this
          | SysErr _ => mret this
          end;
  mret (_isValid this' && _isDirectory this', this').

End YuzaNode.

(** ** namespace Posix *)

Module Posix.
Section Posix.
Context {FS : Type} {os : OS FS} {cs : CommonStr}.

(** [*cur] on the buffer of the local string [path]: the byte at offset
    [cur], and the terminating NUL at [cur = end]. *)
Definition deref (path : list ascii) (cur : nat) : ascii := default NUL (path !! cur).

(** [path.c_str()] on the buffer. *)
Definition buf_c_str (path : list ascii) : string := c_str (string_of_list_ascii path).

(** [mkdir(path.c_str(), 0)] and the checks below it; [false] where the C++
    says [return false]. *)
Definition mkdir_or_exists (path : list ascii) : M FS bool :=
  r ← sys_mkdir (buf_c_str path) 0;
  match r with
  | SysOk => mret true
  | SysErr e =>
      if decide (e = EEXIST) then
        sb ← sys_stat (buf_c_str path);
        match sb with
        | None => mret false
        | Some st_mode => if decide (st_mode ≠ 0) then mret false else mret true
        end
      else mret false
  end.

(** The [do { ... } while (cur++ != end)] loop, with [cur] at offset
    [end - rem] of the buffer: [rem] counts the bytes from [cur] to [end].
    [continue] jumps to the loop condition; the result is [false] where the
    C++ says [return false] and [true] when the loop is left. *)
Fixpoint assure_loop (rem : nat) (path : list ascii) {struct rem} : M FS bool :=
  let end_ := length path in
  let cur := (end_ - rem)%nat in
  let loop_condition (path : list ascii) : M FS bool :=
    match rem with
    | O => mret true
    | S rem' => assure_loop rem' path
    end in
  let not_last := negb (bool_decide ((cur + 1)%nat = end_)) in
  if not_last && negb (bool_decide (deref path cur = "/"%char)) then
    loop_condition path
  else
    let path := if not_last then <[cur := NUL]> path else path in
    ok ← mkdir_or_exists path;
    if ok : bool then loop_condition (<[cur := "/"%char]> path) else mret false.

Definition assureDirectoryExists (dir : string) (prefix : option string) : M FS bool :=
  prefix_ok ← match prefix with
              | Some p =>
                  sb ← sys_stat p;
                  match sb with
                  | None => mret false
                  | Some st_mode => mret (S_ISDIR st_mode)
                  end
              | None => mret true
              end;
  if negb (prefix_ok : bool) then mret false
  else
    let path := match prefix with
                | Some p => (p +:+ "/") +:+ dir
                | None => dir
                end in
    let path := list_ascii_of_string (normalizePath path "/") in
    let end_ := length path in
    let cur := if decide (deref path 0 = "/"%char) then 1%nat else 0%nat in
    assure_loop (end_ - cur) path.

End Posix.
End Posix.

(** * common/file.cpp *)

(** [Common::SeekableReadStream] and [Common::WriteStream] (declared in
    [common/stream.h]): the virtual members the handles call.  A stream is
    owned by the one handle that holds it, so it is held by value; a member
    that changes the stream returns the stream afterwards. *)
Class SeekableReadStream (RS : Type) : Type := {
  rs_err : RS → bool;
  rs_clearErr : RS → RS;
  rs_eos : RS → bool;
  rs_pos : RS → Z;
  rs_size : RS → Z;
  rs_seek : RS → Z → Z → bool * RS;
  rs_read : RS → Z → (Z * list Byte.byte) * RS;
}.

Class WriteStream (WS : Type) : Type := {
  ws_err : WS → bool;
  ws_clearErr : WS → WS;
  ws_write : WS → list Byte.byte → Z → Z * WS;
  ws_flush : WS → bool * WS;
  ws_pos : WS → Z;
}.

(** A [Common::Archive]: an object with the two virtual members used here. *)
Record Archive (RS : Type) : Type := {
  hasFile : string → bool;
  createReadStreamForMember : string → option RS;
}.
Arguments hasFile {RS} _ _.
Arguments createReadStreamForMember {RS} _ _.

(** The filesystem factory of [g_system] and [Common::FSNode] (declared in
    [backends/fs/fs-factory.h], [backends/fs/abstract-fs.h] and
    [common/fs.h]): the members called by the handles, as parameters.
    [node_createDirectory] gives the result only: the node is deleted right
    after the call. *)
Class FSBackend (FS AbstractFSNode FSNode RS WS : Type) : Type := {
  makeFileNodePath : string → M FS AbstractFSNode;
  node_exists : AbstractFSNode → M FS bool;
  node_createDirectory : AbstractFSNode → M FS bool;
  FSNode_new : string → M FS FSNode;
  FSNode_exists : FSNode → M FS bool;
  FSNode_isDirectory : FSNode → M FS bool;
  FSNode_getPath : FSNode → string;
  FSNode_getName : FSNode → string;
  FSNode_createReadStream : FSNode → M FS (option RS);
  FSNode_createWriteStream : FSNode → M FS (option WS);
}.

(** [archive.hasFile(name)] and [archive.createReadStreamForMember(name)],
    with the name that was asked for recorded in the trace. *)
Definition call_hasFile {FS RS} (archive : Archive RS) (name : string) : M FS bool :=
  λ w, Ret (hasFile archive name, emit (EvHasFile name) w).

Definition call_createReadStreamForMember {FS RS} (archive : Archive RS) (name : string)
    : M FS (option RS) :=
  λ w, Ret (createReadStreamForMember archive name, emit (EvCreateReadStreamForMember name) w).

(** [p->member] through a pointer that may be null. *)
Definition arrow {FS S} (p : option S) : M FS S :=
  λ w, match p with
       | Some s => Ret (s, w)
       | None => NullDeref
       end.

(** [delete p]: the stream is destroyed; nothing happens on a null pointer. *)
Inductive deleted : Type := Deleted | NothingToDelete.

Definition delete_ {S} (p : option S) : deleted :=
  match p with
  | Some _ => Deleted
  | None => NothingToDelete
  end.

(** [for (uint32 i = 0; i < n; ++i) body(i)]; [continue] ends [body i]. *)
Fixpoint for_ {FS} (i : nat) (count : nat) (body : nat → M FS unit) : M FS unit :=
  match count with
  | O => mret tt
  | S count' => body i;; for_ (S i) count' body
  end.

Definition backslash : ascii := ascii_of_nat 92.

(** ** class File *)

Module File.

Record t (RS : Type) : Type := mk { _handle : option RS; _name : string }.
Arguments mk {RS} _handle _name.
Arguments _handle {RS} _.
Arguments _name {RS} _.

Section File.
Context {FS AbstractFSNode FSNode RS WS : Type}.
Context {srs : SeekableReadStream RS} {backend : FSBackend FS AbstractFSNode FSNode RS WS}.

(** [SearchMan], the search manager singleton, is an archive. *)
Context (SearchMan : Archive RS).

(** [File::File()] *)
Definition new : t RS := mk None "".

Definition isOpen (f : t RS) : bool := bool_decide (_handle f ≠ None).

(** [open(SeekableReadStream *stream, const String &name)] *)
Definition open_stream (f : t RS) (stream : option RS) (name : string) : M FS (bool * t RS) :=
  assert_ (negb (isOpen f));;
  match stream with
  | Some s =>
      let f := mk (Some s) name in
      mret (isOpen f, f)
  | None =>
      debug 2 ("File::open: opening '" +:+ name +:+ "' failed");;
      mret (isOpen f, f)
  end.

(** [open(const String &filename, Archive &archive)] *)
Definition open_archive (f : t RS) (filename : string) (archive : Archive RS)
    : M FS (bool * t RS) :=
  assert_ (negb (empty filename));;
  assert_ (negb (isOpen f));;
  stream ← call_createReadStreamForMember archive filename;
  stream ← match stream with
           | Some s =>
               debug 8 ("Opening hashed: " +:+ filename);;
               mret (Some s)
           | None =>
               stream ← call_createReadStreamForMember archive (filename +:+ ".");
               match stream with
               | Some s =>
                   debug 8 ("Opening hashed: " +:+ filename +:+ ".");;
                   mret (Some s)
               | None => mret None
               end
           end;
  open_stream f stream filename.

(** [open(const String &filename)] *)
Definition open (f : t RS) (filename : string) : M FS (bool * t RS) :=
  open_archive f filename SearchMan.

(** [open(const FSNode &node)] *)
Definition open_node (f : t RS) (node : FSNode) : M FS (bool * t RS) :=
  assert_ (negb (isOpen f));;
  node_exists ← FSNode_exists node;
  if negb (node_exists : bool) then
    warning ("File::open: '" +:+ FSNode_getPath node +:+ "' does not exist");;
    mret (false, f)
  else
    node_isDirectory ← FSNode_isDirectory node;
    if node_isDirectory : bool then
      warning ("File::open: '" +:+ FSNode_getPath node +:+ "' is a directory");;
      mret (false, f)
    else
      stream ← FSNode_createReadStream node;
      open_stream f stream (FSNode_getPath node).

(** [File::exists(const String &filename)] *)
Definition exists_ (filename : string) : M FS bool :=
  found ← call_hasFile SearchMan filename;
  if found : bool then mret true
  else
    found ← call_hasFile SearchMan (filename +:+ ".");
    if found : bool then mret true
    else mret false.

(** [close()]: the handle afterwards, and what [delete _handle] did. *)
Definition close (f : t RS) : t RS * deleted :=
  (mk None (_name f), delete_ (_handle f)).

Definition err (f : t RS) : M FS bool :=
  assert_ (isOpen f);;
  s ← arrow (_handle f);
  mret (rs_err s).

Definition clearErr (f : t RS) : M FS (t RS) :=
  assert_ (isOpen f);;
  s ← arrow (_handle f);
  mret (mk (Some (rs_clearErr s)) (_name f)).

Definition eos (f : t RS) : M FS bool :=
  assert_ (isOpen f);;
  s ← arrow (_handle f);
  mret (rs_eos s).

Definition pos (f : t RS) : M FS Z :=
  assert_ (isOpen f);;
  s ← arrow (_handle f);
  mret (rs_pos s).

Definition size (f : t RS) : M FS Z :=
  assert_ (isOpen f);;
  s ← arrow (_handle f);
  mret (rs_size s).

Definition seek (f : t RS) (offs whence : Z) : M FS (bool * t RS) :=
  assert_ (isOpen f);;
  s ← arrow (_handle f);
  let '(r, s') := rs_seek s offs whence in
  mret (r, mk (Some s') (_name f)).

Definition read (f : t RS) (len : Z) : M FS ((Z * list Byte.byte) * t RS) :=
  assert_ (isOpen f);;
  s ← arrow (_handle f);
  let '(r, s') := rs_read s len in
  mret (r, mk (Some s') (_name f)).

End File.
End File.

(** ** class DumpFile *)

Module DumpFile.

Record t (WS : Type) : Type := mk { _handle : option WS }.
Arguments mk {WS} _handle.
Arguments _handle {WS} _.

Section DumpFile.
Context {FS AbstractFSNode FSNode RS WS : Type}.
Context {sws : WriteStream WS} {backend : FSBackend FS AbstractFSNode FSNode RS WS}.

(** [DumpFile::DumpFile()] *)
Definition new : t WS := mk None.

Definition isOpen (f : t WS) : bool := bool_decide (_handle f ≠ None).

(** [open(const FSNode &node)] *)
Definition open_node (f : t WS) (node : FSNode) : M FS (bool * t WS) :=
  assert_ (negb (isOpen f));;
  node_isDirectory ← FSNode_isDirectory node;
  if node_isDirectory : bool then
    warning "DumpFile::open: FSNode is a directory";;
    mret (false, f)
  else
    handle ← FSNode_createWriteStream node;
    let f := mk handle in
    (if decide (_handle f = None)
     then debug 2 ("File " +:+ FSNode_getName node +:+ " not found")
     else mret tt);;
    mret (isOpen f, f).

(** The body of the [createPath] loop at index [i]. *)
Definition createPath_body (filename : string) (i : nat) : M FS unit :=
  if bool_decide (char_at filename i = "/"%char) || bool_decide (char_at filename i = backslash)
  then
    let subpath := String.substring 0 i filename in
    if empty subpath then mret tt
    else
      node ← makeFileNodePath subpath;
      node_exists ← node_exists node;
      if node_exists : bool then mret tt
      else
        created ← node_createDirectory node;
        if negb (created : bool)
        then warning "DumpFile: unable to create directories from path prefix"
        else mret tt
  else mret tt.

(** [open(const String &filename, bool createPath)] *)
Definition open (f : t WS) (filename : string) (createPath : bool) : M FS (bool * t WS) :=
  assert_ (negb (empty filename));;
  assert_ (negb (isOpen f));;
  (if createPath
   then for_ 0 (String.length filename) (createPath_body filename)
   else mret tt);;
  node ← FSNode_new filename;
  open_node f node.

(** [close()]: the handle afterwards, and what [delete _handle] did. *)
Definition close (f : t WS) : t WS * deleted :=
  (mk None, delete_ (_handle f)).

Definition err (f : t WS) : M FS bool :=
  assert_ (isOpen f);;
  s ← arrow (_handle f);
  mret (ws_err s).

Definition clearErr (f : t WS) : M FS (t WS) :=
  assert_ (isOpen f);;
  s ← arrow (_handle f);
  mret (mk (Some (ws_clearErr s))).

Definition write (f : t WS) (ptr : list Byte.byte) (len : Z) : M FS (Z * t WS) :=
  assert_ (isOpen f);;
  s ← arrow (_handle f);
  let '(r, s') := ws_write s ptr len in
  mret (r, mk (Some s')).

Definition flush (f : t WS) : M FS (bool * t WS) :=
  assert_ (isOpen f);;
  s ← arrow (_handle f);
  let '(r, s') := ws_flush s in
  mret (r, mk (Some s')).

(** [int32 DumpFile::pos() const { return _handle->pos(); }] *)
Definition pos (f : t WS) : M FS Z :=
  s ← arrow (_handle f);
  mret (ws_pos s).

(** [bool DumpFile::seek(int32 offset, int whence) { return false; }] *)
Definition seek (f : t WS) (offset whence : Z) : M FS bool :=
  mret false.

(** [int32 DumpFile::size() const { return -1; }] *)
Definition size (f : t WS) : M FS Z :=
  mret (-1).

End DumpFile.
End DumpFile.

(** * The Yuza node as a backend of the handles *)

(** [YuzaIoStream::makeFromPath] is defined in [yuza-iostream.cpp], which is
    not among the sources: it is a parameter. *)
Class YuzaIoStream (FS Stream : Type) : Type := {
  makeFromPath : string → bool → M FS (option Stream);
}.

Section YuzaBackend.
Context {FS Stream : Type} {os : OS FS} {cs : CommonStr} {build : Build}.
Context {ios : YuzaIoStream FS Stream}.

Definition createReadStream (this : YuzaFilesystemNode) : M FS (option Stream) :=
  makeFromPath (getPath this) false.

Definition createWriteStream (this : YuzaFilesystemNode) : M FS (option Stream) :=
  makeFromPath (getPath this) true.

(** The backend of a host whose factory makes Yuza nodes, with
    [Common::FSNode] forwarding each call to the node it wraps.  It is used
    to run the handles on a concrete filesystem. *)
Definition YuzaBackend : FSBackend FS YuzaFilesystemNode YuzaFilesystemNode Stream Stream := {|
  makeFileNodePath := YuzaFilesystemNode_new;
  node_exists := exists_;
  node_createDirectory := λ n, r ← createDirectory n; mret (fst r);
  FSNode_new := YuzaFilesystemNode_new;
  FSNode_exists := exists_;
  FSNode_isDirectory := λ n, mret (isDirectory n);
  FSNode_getPath := getPath;
  FSNode_getName := _displayName;
  FSNode_createReadStream := createReadStream;
  FSNode_createWriteStream := createWriteStream;
|}.

End YuzaBackend.

(** * A filesystem in memory

    A host to run the model on: a table from paths to [st_mode], with
    [st_mode = 0] for a directory (what [setFlags] and
    [assureDirectoryExists] test for) and [1] for a regular file.  A
    relative path of one component lies in the current directory, which
    always exists. *)

Definition mem_parent (path : string) : string :=
  match strip_last_component path (String.length path) with
  | O => ""
  | S O => "/"
  | S n => String.substring 0 n path
  end.

Definition mem_name (path : string) : string :=
  let n := strip_last_component path (String.length path) in
  String.substring n (String.length path - n) path.

Definition mem_parent_ok (fs : gmap string Z) (path : string) : bool :=
  bool_decide (mem_parent path = "") || bool_decide (fs !! mem_parent path = Some 0).

Definition mem_mkdir (fs : gmap string Z) (path : string) (mode : Z) : gmap string Z * sys_result :=
  if decide (is_Some (fs !! path)) then (fs, SysErr EEXIST)
  else if decide (path = "") then (fs, SysErr ENOENT)
  else if mem_parent_ok fs path then (<[path := 0]> fs, SysOk)
  else (fs, SysErr ENOENT).

Definition mem_dirent (entry : string * Z) : dirent :=
  {| d_name := mem_name (fst entry);
     d_type := if decide (snd entry = 0) then DT_DIR else DT_REG |}.

Definition mem_opendir (fs : gmap string Z) (path : string) : option (list dirent) :=
  if decide (fs !! path = Some 0) then
    Some ({| d_name := "."; d_type := DT_DIR |} :: {| d_name := ".."; d_type := DT_DIR |}
          :: (mem_dirent <$> filter (λ e, mem_parent (fst e) = path ∧ fst e ≠ path) (map_to_list fs)))
  else None.

Global Instance MemOS : OS (gmap string Z) := {|
  os_stat := λ fs path, fs !! path;
  os_access := λ fs path _, bool_decide (is_Some (fs !! path));
  os_mkdir := mem_mkdir;
  os_opendir := mem_opendir;
  S_ISDIR := λ st_mode, bool_decide (st_mode = 0);
|}.

(** A stream on the filesystem in memory: the path it was opened on and a
    position. *)
Record MemStream : Type := { ms_path : string; ms_pos : Z; ms_err : bool }.

Global Instance MemStream_read : SeekableReadStream MemStream := {|
  rs_err := ms_err;
  rs_clearErr := λ s, {| ms_path := ms_path s; ms_pos := ms_pos s; ms_err := false |};
  rs_eos := λ s, true;
  rs_pos := ms_pos;
  rs_size := λ s, 0;
  rs_seek := λ s offs whence, (true, {| ms_path := ms_path s; ms_pos := offs; ms_err := ms_err s |});
  rs_read := λ s len, ((0, []), s);
|}.

Global Instance MemStream_write : WriteStream MemStream := {|
  ws_err := ms_err;
  ws_clearErr := λ s, {| ms_path := ms_path s; ms_pos := ms_pos s; ms_err := false |};
  ws_write := λ s ptr len, (len, {| ms_path := ms_path s; ms_pos := ms_pos s + len; ms_err := ms_err s |});
  ws_flush := λ s, (true, s);
  ws_pos := ms_pos;
|}.

(** Opening for writing makes the file when its directory exists and the
    path is no directory; opening for reading needs a regular file. *)
Definition mem_makeFromPath (path : string) (writeMode : bool)
    : M (gmap string Z) (option MemStream) :=
  λ w,
    let fs := w_fs w in
    let stream := {| ms_path := path; ms_pos := 0; ms_err := false |} in
    if writeMode then
      if bool_decide (path ≠ "") && negb (bool_decide (fs !! path = Some 0)) && mem_parent_ok fs path
      then Ret (Some stream, mkWorld (<[path := 1]> fs) (w_trace w))
      else Ret (None, w)
    else
      if bool_decide (fs !! path = Some 1) then Ret (Some stream, w) else Ret (None, w).

Global Instance MemIoStream : YuzaIoStream (gmap string Z) MemStream := {|
  makeFromPath := mem_makeFromPath;
|}.

(** A stand-in for [Common::normalizePath] on the paths of the examples,
    which are in normal form already, and for [Common::lastPathComponent]. *)
Definition MemStr : CommonStr := {|
  normalizePath := λ path sep, path;
  lastPathComponent := λ path sep, mem_name path;
|}.

(** The Yuza build. *)
Definition YuzaBuild : Build := {|
  SKYOS32 := true;
  SYSTEM_NOT_SUPPORTING_D_TYPE := false;
|}.

Definition mem_world (entries : list (string * Z)) : World (gmap string Z) :=
  mkWorld (list_to_map entries) [].

(** * Auxiliary definitions for the statements *)

(** The names an archive was asked for, in order. *)
Definition lookup_names (trace : list event) : list string :=
  omap (λ e, match e with
             | EvHasFile name | EvCreateReadStreamForMember name => Some name
             | _ => None
             end) trace.

(** The paths [Posix.assure_loop] hands to [mkdir], in order, when no call
    fails: the loop of the C++ with the system calls left out. *)
Fixpoint visited (rem : nat) (path : list ascii) {struct rem} : list string :=
  let end_ := length path in
  let cur := (end_ - rem)%nat in
  let loop_condition (path : list ascii) : list string :=
    match rem with
    | O => []
    | S rem' => visited rem' path
    end in
  let not_last := negb (bool_decide ((cur + 1)%nat = end_)) in
  if not_last && negb (bool_decide (Posix.deref path cur = "/"%char)) then
    loop_condition path
  else
    let path := if not_last then <[cur := NUL]> path else path in
    Posix.buf_c_str path :: loop_condition (<[cur := "/"%char]> path).

(** The paths [Posix.assureDirectoryExists dir prefix] hands to [mkdir]. *)
Definition visited_paths `{CommonStr} (dir : string) (prefix : option string) : list string :=
  let path := match prefix with
              | Some p => (p +:+ "/") +:+ dir
              | None => dir
              end in
  let path := list_ascii_of_string (normalizePath path "/") in
  let cur := if decide (Posix.deref path 0 = "/"%char) then 1%nat else 0%nat in
  visited (length path - cur) path.

(** The display name starts with a period. *)
Definition dot_prefixed (name : string) : Prop := char_at name 0 = "."%char.

(** C4 as the specification words it, at a node and a world: when
    [createDirectory] returns true, the call has probed the path with
    [stat] after its [mkdir], and the path is a directory afterwards. *)
Definition createDirectory_confirmed_by_fresh_probe {FS} `{OS FS}
    (this : YuzaFilesystemNode) (w : World FS) : Prop :=
  ∀ this' w', createDirectory this w = Ret ((true, this'), w') →
    w_trace w' = w_trace w ++ [EvMkdir (c_str (_path this)); EvStat (c_str (_path this))]
    ∧ os_stat (w_fs w') (c_str (_path this)) = Some 0.

(** A call that returns in every world. *)
Definition returns {FS A} (m : M FS A) : Prop :=
  ∀ w, ∃ a w', m w = Ret (a, w').

(** The members of the backend that [DumpFile::open] calls return (a node
    is made from any path that is not empty). *)
Record backend_returns {FS AbstractFSNode FSNode RS WS}
    (backend : FSBackend FS AbstractFSNode FSNode RS WS) : Prop := {
  makeFileNodePath_returns : ∀ path, path ≠ "" → returns (makeFileNodePath path);
  node_exists_returns : ∀ node, returns (node_exists node);
  node_createDirectory_returns : ∀ node, returns (node_createDirectory node);
  FSNode_new_returns : ∀ path, path ≠ "" → returns (FSNode_new path);
  FSNode_isDirectory_returns : ∀ node, returns (FSNode_isDirectory node);
  FSNode_createWriteStream_returns : ∀ node, returns (FSNode_createWriteStream node);
}.

(** A flat store as a backend: no directory can be made in it, and every
    name can be opened for writing. *)
Definition FlatBackend : FSBackend unit string string MemStream MemStream := {|
  makeFileNodePath := λ path, mret path;
  node_exists := λ node, mret false;
  node_createDirectory := λ node, mret false;
  FSNode_new := λ path, mret path;
  FSNode_exists := λ node, mret true;
  FSNode_isDirectory := λ node, mret false;
  FSNode_getPath := λ node, node;
  FSNode_getName := λ node, node;
  FSNode_createReadStream := λ node, mret (Some {| ms_path := node; ms_pos := 0; ms_err := false |});
  FSNode_createWriteStream := λ node, mret (Some {| ms_path := node; ms_pos := 0; ms_err := false |});
|}.

(** An archive that holds the one member [GAMEPC.], named with the stray
    trailing period of the SIMON1 data files. *)
Definition simon1_archive : Archive MemStream := {|
  hasFile := λ name, bool_decide (name = "GAMEPC.");
  createReadStreamForMember := λ name,
    if decide (name = "GAMEPC.")
    then Some {| ms_path := name; ms_pos := 0; ms_err := false |}
    else None;
|}.

(** The Yuza backend on the filesystem in memory. *)
Definition MemBackend
    : FSBackend (gmap string Z) YuzaFilesystemNode YuzaFilesystemNode MemStream MemStream :=
  YuzaBackend (os:=MemOS) (cs:=MemStr) (build:=YuzaBuild) (ios:=MemIoStream).

(** [w'] keeps what [stat] found in [w]. *)
Definition stat_kept {FS} `{OS FS} (w w' : World FS) : Prop :=
  ∀ q st_mode, os_stat (w_fs w) q = Some st_mode → os_stat (w_fs w') q = Some st_mode.

(** What the prefix check of [Posix.assureDirectoryExists] asks of a world. *)
Definition prefix_is_directory {FS} `{OS FS} (prefix : option string) (w : World FS) : Prop :=
  match prefix with
  | Some p => ∃ st_mode, os_stat (w_fs w) p = Some st_mode ∧ S_ISDIR st_mode = true
  | None => True
  end.

(** Unfolds the monad, the logging calls and the calls on archives. *)
Ltac unfold_M :=
  unfold mbind, M_bind, mret, M_ret, assert_, warning, debug, log, arrow,
    call_hasFile, call_createReadStreamForMember, sys_stat, sys_access,
    sys_opendir, sys_closedir, emit in *.

(** * Further definitions for the statements *)

(** The path of the entry [name] of the directory at [dir], as [getChild]
    and [getChildren] both build it: one separator between the two, none
    added after a directory path that ends in one. *)
Definition dir_with_separator (dir : string) : string :=
  if decide (lastChar dir ≠ "/"%char) then dir +:+ "/" else dir.

Definition child_path (dir name : string) : string :=
  dir_with_separator dir +:+ name.

(** What a [ListMode] lets through, by the directory flag of a node. *)
Definition mode_allows (mode : ListMode) (isDirectory : bool) : bool :=
  match mode with
  | kListFilesOnly => negb isDirectory
  | kListDirectoriesOnly => isDirectory
  | kListAll => true
  end.

(** The paths handed to [mkdir] so far, in order. *)
Definition mkdir_paths (trace : list event) : list string :=
  omap (λ e, match e with
             | EvMkdir path => Some path
             | _ => None
             end) trace.

(** The directories of a chain, by the path alone: every proper prefix
    that ends just before a separator (a separator at offset 0, the root,
    apart), in the order of their length, and then the whole path. *)
Definition chain_segments_from (cur : nat) (path : list ascii) : list string :=
  ((λ i, string_of_list_ascii (take i path))
     <$> filter (λ i, path !! i = Some "/"%char) (seq cur (length path - 1 - cur)))
  ++ (if decide (cur < length path)%nat then [string_of_list_ascii path] else []).

Definition chain_segments (path : string) : list string :=
  let l := list_ascii_of_string path in
  chain_segments_from (if decide (Posix.deref l 0 = "/"%char) then 1%nat else 0%nat) l.

(** What [Posix.assure_loop] does with one segment: the [mkdir] call on
    it and the checks below, [Posix.mkdir_or_exists] on a buffer that
    holds the segment. *)
Definition make_segment {FS} `{OS FS} (segment : string) : M FS bool :=
  Posix.mkdir_or_exists (list_ascii_of_string segment).

(** The segments one after the other, up to the first that fails. *)
Fixpoint make_chain {FS} `{OS FS} (segments : list string) : M FS bool :=
  match segments with
  | [] => mret true
  | segment :: segments =>
    ok ← make_segment segment;
    if ok : bool then make_chain segments else mret false
  end.

(** What one round of the [readdir] loop appends, when it appends. *)
Definition listed (this : YuzaFilesystemNode) (mode : ListMode) (dp : dirent)
    (entry : YuzaFilesystemNode) : Prop :=
  _displayName entry = d_name dp
  ∧ _path entry = child_path (_path this) (d_name dp)
  ∧ _isValid entry = true
  ∧ mode_allows mode (_isDirectory entry) = true
  ∧ d_name dp ≠ "." ∧ d_name dp ≠ "..".


(** The path of the node that the constructor builds from [p]. *)
Definition node_path `{CommonStr} `{Build} (p : string) : string :=
  if SKYOS32 && bool_decide (p = "/") then p else normalizePath p "/".

(** The prefixes of a filename that end just before a slash or a
    backslash, the empty one apart, in the order of their length. *)
Definition createPath_prefixes_from (i count : nat) (filename : string) : list string :=
  (λ i, String.substring 0 i filename)
    <$> filter (λ i, (char_at filename i = "/"%char ∨ char_at filename i = backslash)
                     ∧ String.substring 0 i filename ≠ "")
               (seq i count).

Definition createPath_prefixes (filename : string) : list string :=
  createPath_prefixes_from 0 (String.length filename) filename.

(** A call that leaves the list of [mkdir] calls as it is. *)
Definition makes_no_directory {FS A} (m : M FS A) : Prop :=
  ∀ w a w', m w = Ret (a, w') → mkdir_paths (w_trace w') = mkdir_paths (w_trace w).

(** * common/lua/scummvm_file.cpp *)

(** How a call of the proxy ends: it returns, or it ends in [error(...)],
    which does not return, or it divides by zero, or it reads behind the
    terminating NUL of a C string or before its first byte, or an
    [assert] fails. *)
Inductive lua_result (A : Type) : Type :=
| Done (a : A)
| ErrorCalled (msg : string)
| DivisionByZero
| ReadPastTerminator
| ReadBeforeStart
| AssertFailed.
Arguments Done {A} a.
Arguments ErrorCalled {A} msg.
Arguments DivisionByZero {A}.
Arguments ReadPastTerminator {A}.
Arguments ReadBeforeStart {A}.
Arguments AssertFailed {A}.

(** The fields of [LuaFileProxy] (declared in [scummvm_file.h]):
    [_readPos] is an unsigned 32 bit offset into [_readData]. *)
Record LuaFileProxy : Type := mkProxy {
  _readData : string;
  _readPos : Z;
  _settings : string;
}.

(** [uint] arithmetic, and [size_t] arithmetic on a platform whose
    [size_t] counts modulo [size_t_modulus]. *)
Definition uint_wrap (n : Z) : Z := n mod 2 ^ 32.

Definition size_t_wrap (size_t_modulus : Z) (n : Z) : Z := n mod size_t_modulus.

(** [read(ptr, size, count)]: the bytes copied to [ptr], the result, and
    the proxy afterwards.  With [_readPos] behind the end of the data the
    subtraction wraps and [memmove] reads outside the data; the bytes
    copied are modelled for offsets inside the data only. *)
Definition LuaFileProxy_read (size_t_modulus : Z) (this : LuaFileProxy) (size count : Z)
    : lua_result ((string * Z) * LuaFileProxy) :=
  let bytesRead :=
    Z.min (uint_wrap (Z.of_nat (String.length (_readData this)) - _readPos this))
          (size_t_wrap size_t_modulus (size * count)) in
  let ptr := String.substring (Z.to_nat (_readPos this)) (Z.to_nat bytesRead) (_readData this) in
  let this' := mkProxy (_readData this) (uint_wrap (_readPos this + bytesRead)) (_settings this) in
  if decide (size = 0) then DivisionByZero
  else Done ((ptr, bytesRead / size), this').

(** [Common::Language] (declared in [common/language.h]): the languages
    the proxy names, and the others. *)
Inductive Language : Type :=
| EN_ANY | DE_DEU | ES_ESP | FR_FRA | HU_HUN | IT_ITA | PL_POL | PT_BRA | RU_RUS
| OTHER_LANGUAGE (id : nat).

(** [Common::parseLanguage] and [Common::getLanguageCode] (defined in
    [common/language.cpp]) and the members of [ConfMan] that the proxy
    calls (declared in [common/config-manager.h]) are parameters. *)
Class LanguageCodes : Type := {
  parseLanguage : string → Language;
  getLanguageCode : Language → string;
}.

Class ConfigManager (C : Type) : Type := {
  ConfMan_get : C → string → string;
  ConfMan_set : C → string → string → C;
  ConfMan_setBool : C → string → bool → C;
  ConfMan_setInt : C → string → Z → C;
  ConfMan_flushToDisk : C → C;
}.

Section LuaLanguage.
Context {C : Type} {confman : ConfigManager C} {codes : LanguageCodes}.

(** [getLanguage()] *)
Definition getLanguage (ConfMan : C) : lua_result string :=
  let lang := parseLanguage (ConfMan_get ConfMan "language") in
  match lang with
  | EN_ANY => Done "en"
  | DE_DEU => Done "de"
  | ES_ESP => Done "es"
  | FR_FRA => Done "fr"
  | HU_HUN => Done "hu"
  | IT_ITA => Done "it"
  | PL_POL => Done "pl"
  | PT_BRA => Done "pt"
  | RU_RUS => Done "ru"
  | _ => ErrorCalled ("Unknown language '" +:+ ConfMan_get ConfMan "language"
                      +:+ "' encountered")
  end.

(** [setLanguage(lang)]: [ConfMan] afterwards. *)
Definition setLanguage (ConfMan : C) (lang : string) : lua_result C :=
  if decide (lang = "en") then Done (ConfMan_set ConfMan "language" (getLanguageCode EN_ANY))
  else if decide (lang = "de") then Done (ConfMan_set ConfMan "language" (getLanguageCode DE_DEU))
  else if decide (lang = "es") then Done (ConfMan_set ConfMan "language" (getLanguageCode ES_ESP))
  else if decide (lang = "fr") then Done (ConfMan_set ConfMan "language" (getLanguageCode FR_FRA))
  else if decide (lang = "hu") then Done (ConfMan_set ConfMan "language" (getLanguageCode HU_HUN))
  else if decide (lang = "it") then Done (ConfMan_set ConfMan "language" (getLanguageCode IT_ITA))
  else if decide (lang = "pl") then Done (ConfMan_set ConfMan "language" (getLanguageCode PL_POL))
  else if decide (lang = "pt") then Done (ConfMan_set ConfMan "language" (getLanguageCode PT_BRA))
  else if decide (lang = "ru") then Done (ConfMan_set ConfMan "language" (getLanguageCode RU_RUS))
  else ErrorCalled "Unknown language encountered".

End LuaLanguage.

(** The language codes of the game, and the languages they stand for. *)
Definition game_language_codes : list string :=
  ["en"; "de"; "es"; "fr"; "hu"; "it"; "pl"; "pt"; "ru"].

Definition game_languages : list Language :=
  [EN_ANY; DE_DEU; ES_ESP; FR_FRA; HU_HUN; IT_ITA; PL_POL; PT_BRA; RU_RUS].

(** A configuration in memory and the codes of [common/language.cpp] for
    the languages of the game, to run the proxy on. *)
Definition MemConfMan : ConfigManager (gmap string string) := {|
  ConfMan_get := λ c key, default "" (c !! key);
  ConfMan_set := λ c key value, <[key := value]> c;
  ConfMan_setBool := λ c key value, <[key := if value then "true" else "false"]> c;
  ConfMan_setInt := λ c key value, <[key := pretty value]> c;
  ConfMan_flushToDisk := λ c, c;
|}.

Definition scummvm_codes : LanguageCodes := {|
  getLanguageCode := λ lang,
    match lang with
    | EN_ANY => "en" | DE_DEU => "de" | ES_ESP => "es" | FR_FRA => "fr" | HU_HUN => "hu"
    | IT_ITA => "it" | PL_POL => "pl" | PT_BRA => "br" | RU_RUS => "ru"
    | OTHER_LANGUAGE _ => ""
    end;
  parseLanguage := λ code,
    if decide (code = "en") then EN_ANY else if decide (code = "de") then DE_DEU
    else if decide (code = "es") then ES_ESP else if decide (code = "fr") then FR_FRA
    else if decide (code = "hu") then HU_HUN else if decide (code = "it") then IT_ITA
    else if decide (code = "pl") then PL_POL else if decide (code = "br") then PT_BRA
    else if decide (code = "ru") then RU_RUS else OTHER_LANGUAGE 0;
|}.

(** The invariant of the read side of the proxy: the offset lies within
    the data, whose size fits a [uint]. *)
Definition read_pos_in_range (this : LuaFileProxy) : Prop :=
  0 ≤ _readPos this ≤ Z.of_nat (String.length (_readData this))
  ∧ Z.of_nat (String.length (_readData this)) < 2 ^ 32.


(** ** [LuaFileProxy::write] *)

Definition CR : ascii := ascii_of_nat 13.
Definition LF : ascii := ascii_of_nat 10.
Definition hyphen : ascii := "-"%char.

Definition is_newline (c : ascii) : bool := bool_decide (c = CR) || bool_decide (c = LF).

(** A [const char *] into the text handed to [write] is modelled by the
    bytes from the pointer up to the terminating NUL: [*ptr] is the first
    of them, or NUL when none is left, and [++ptr] drops it. *)
Definition star (ptr : list ascii) : ascii := default NUL (head ptr).

(** The loop [while] [*ptr != '\r' && *ptr != '\n'] [++ptr]: the pointer it
    stops at; [None] where it steps over the terminating NUL, which is
    neither of the two, and reads the byte behind it. *)
Fixpoint skip_comment (ptr : list ascii) : option (list ascii) :=
  match ptr with
  | [] => None
  | c :: rest => if is_newline c then Some ptr else skip_comment rest
  end.

(** The loop [while] [*ptr == '\r' || *ptr == '\n'] [++ptr]. *)
Fixpoint skip_newlines (ptr : list ascii) : list ascii :=
  match ptr with
  | [] => []
  | c :: rest => if is_newline c then skip_newlines rest else ptr
  end.

(** [p = strchr(ptr, c); if (!p) p = ptr + strlen(ptr);] *)
Fixpoint strchr_or_end (c : ascii) (ptr : list ascii) : list ascii :=
  match ptr with
  | [] => []
  | d :: rest => if decide (d = c) then ptr else strchr_or_end c rest
  end.

(** [Common::String(ptr, p - ptr)], for [p] at or behind [ptr]. *)
Definition String_between (ptr p : list ascii) : string :=
  string_of_list_ascii (take (length ptr - length p) ptr).

(** The loop [while] [*ptr] of [write], with [_settings] passed along;
    [rem] bounds the rounds that are left, and [None] says that it did
    not suffice. *)
Fixpoint write_loop (rem : nat) (ptr : list ascii) (_settings : string) {struct rem}
    : option (lua_result string) :=
  match ptr with
  | [] => Some (Done _settings)
  | _ :: _ =>
    match rem with
    | O => None
    | S rem =>
      if bool_decide (star ptr = hyphen) && bool_decide (star (tail ptr) = hyphen) then
        match skip_comment ptr with
        | None => Some ReadPastTerminator
        | Some ptr => write_loop rem (skip_newlines ptr) _settings
        end
      else
        let p := skip_newlines (strchr_or_end LF ptr) in
        let _settings := _settings +:+ String_between ptr p in
        let ptr := p in
        write_loop rem (skip_newlines ptr) _settings
    end
  end.

(** [write(ptr, count)]: the result and the proxy afterwards.  Every round
    of the loop moves the pointer on, so the size of the text bounds the
    rounds. *)
Definition LuaFileProxy_write (this : LuaFileProxy) (ptr : string) (count : Z)
    : option (lua_result (Z * LuaFileProxy)) :=
  let text := list_ascii_of_string (c_str ptr) in
  match write_loop (length text) text (_settings this) with
  | Some (Done _settings) => Some (Done (count, mkProxy (_readData this) (_readPos this) _settings))
  | Some (ErrorCalled msg) => Some (ErrorCalled msg)
  | Some DivisionByZero => Some DivisionByZero
  | Some ReadPastTerminator => Some ReadPastTerminator
  | Some ReadBeforeStart => Some ReadBeforeStart
  | Some AssertFailed => Some AssertFailed
  | None => None
  end.

(** The text holds no two hyphens in a row, so no line of it starts a
    comment. *)
Definition no_comment_mark (text : list ascii) : Prop :=
  ∀ i, text !! i = Some hyphen → text !! S i ≠ Some hyphen.

(** The text is empty or ends in a line feed: its last line is complete. *)
Definition ends_lines (text : list ascii) : Prop :=
  text = [] ∨ last text = Some LF.

(** ** [LuaFileProxy::updateSetting] and [writeSettings] *)

(** [(int)(strtod(value.c_str(), NULL) * 255)], the volume a text stands
    for: [strtod] belongs to the C library and the arithmetic is floating
    point, so the whole conversion is a parameter. *)
Class VolumeConversion : Type := {
  volume_of_text : string → Z;
}.

Definition quote : ascii := ascii_of_nat 34.
Definition equals_sign : ascii := "="%char.
Definition space : ascii := " "%char.

Definition is_space (c : ascii) : bool := bool_decide (c = space).

(** The condition of the loop that looks for the end of a value, negated:
    the byte is a line end or the terminating NUL. *)
Definition ends_value (c : ascii) : bool := is_newline c || bool_decide (c = NUL).

(** [_settings.c_str()] is a buffer [buf] of the bytes before the
    terminating NUL, and a pointer into it is an offset: [Posix.deref]
    reads the byte there, and NUL at the size of the buffer. *)

(** How many bytes from the start of [l] on satisfy [cond]. *)
Fixpoint span_length (cond : ascii → bool) (l : list ascii) : nat :=
  match l with
  | [] => O
  | c :: l => if cond c then S (span_length cond l) else O
  end.

(** The loop [while] [cond( *p )] [++p], for a condition that fails on
    NUL: the offset it stops at, the terminator at the latest. *)
Definition walk_forward (cond : ascii → bool) (buf : list ascii) (p : nat) : nat :=
  (p + span_length cond (drop p buf))%nat.

Fixpoint index_of (c : ascii) (l : list ascii) : option nat :=
  match l with
  | [] => None
  | d :: l => if decide (d = c) then Some O else S <$> index_of c l
  end.

(** [strchr(p, c)] for a [c] other than NUL; [None] is the null pointer. *)
Definition strchr (buf : list ascii) (p : nat) (c : ascii) : option nat :=
  (λ i, (p + i)%nat) <$> index_of c (drop p buf).

(** The loop [while] [*pEnd == ' '] [--pEnd], started at the offset just
    before [n]: the offset just behind the one it stops at; [None] where
    it steps off the start of the buffer and reads the byte before it. *)
Fixpoint walk_back_over_spaces (buf : list ascii) (n : nat) : option nat :=
  match n with
  | O => None
  | S pEnd => if is_space (Posix.deref buf pEnd) then walk_back_over_spaces buf pEnd
              else Some (S pEnd)
  end.

(** [Common::String(buf + start, len)] *)
Definition String_at (buf : list ascii) (start len : nat) : string :=
  string_of_list_ascii (take len (drop start buf)).

Definition lua_bind {A B : Type} (m : lua_result A) (k : A → lua_result B) : lua_result B :=
  match m with
  | Done a => k a
  | ErrorCalled msg => ErrorCalled msg
  | DivisionByZero => DivisionByZero
  | ReadPastTerminator => ReadPastTerminator
  | ReadBeforeStart => ReadBeforeStart
  | AssertFailed => AssertFailed
  end.

Section LuaSettings.
Context {C : Type} {confman : ConfigManager C} {codes : LanguageCodes}.
Context {volumes : VolumeConversion}.

(** [updateSetting(setting, value)]: [ConfMan] afterwards. *)
Definition updateSetting (ConfMan : C) (setting value : string) : lua_result C :=
  if decide (setting = "GAME_LANGUAGE") then
    setLanguage ConfMan value
  else if decide (setting = "GAME_SUBTITLES") then
    Done (ConfMan_setBool ConfMan "subtitles" (bool_decide (value = "true")))
  else if decide (setting = "SFX_SOUND_VOLUME") then
    Done (ConfMan_setInt ConfMan "sfx_volume" (volume_of_text value))
  else if decide (setting = "SFX_MUSIC_VOLUME") then
    Done (ConfMan_setInt ConfMan "music_volume" (volume_of_text value))
  else if decide (setting = "SFX_SPEECH_VOLUME") then
    Done (ConfMan_setInt ConfMan "speech_volume" (volume_of_text value))
  else
    Done ConfMan.

(** The body of [if (( *pSrc != '\r') && ( *pSrc != '\n'))] in
    [writeSettings]: [pSrc] and [ConfMan] afterwards.  A length below 0
    handed to [Common::String(const char *, uint32)] wraps to more than
    the buffer holds, so the copy reads behind the terminator. *)
Definition setting_at (buf : list ascii) (pSrc : nat) (ConfMan : C) : lua_result (nat * C) :=
  match strchr buf pSrc equals_sign with
  | None => AssertFailed
  | Some p =>
    (* Get the setting name *)
    match walk_back_over_spaces buf p with
    | None => ReadBeforeStart
    | Some behind_pEnd =>
      if decide (behind_pEnd < pSrc)%nat then ReadPastTerminator else
      let settingName := String_at buf pSrc (behind_pEnd - pSrc) in
      (* Get the setting value *)
      let pStart := walk_forward is_space buf (p + 1) in
      if decide (length buf < pStart + 1)%nat then ReadPastTerminator else
      let pEnd := walk_forward (λ c, negb (ends_value c)) buf (pStart + 1) in
      let quoted := if bool_decide (Posix.deref buf pStart = quote) then 1%nat else 0%nat in
      if decide (pEnd - pStart < 2 * quoted)%nat then ReadPastTerminator else
      let value := String_at buf (pStart + quoted) (pEnd - pStart - 2 * quoted) in
      (* Update the setting *)
      lua_bind (updateSetting ConfMan settingName value) (λ ConfMan,
      Done (pEnd, ConfMan))
    end
  end.

(** The loop [while] [*pSrc] of [writeSettings]; [rem] bounds the rounds
    that are left, and [None] says that it did not suffice. *)
Fixpoint writeSettings_loop (rem : nat) (buf : list ascii) (pSrc : nat) (ConfMan : C)
    {struct rem} : option (lua_result C) :=
  if bool_decide (Posix.deref buf pSrc = NUL) then Some (Done ConfMan) else
  match rem with
  | O => None
  | S rem =>
    if negb (is_newline (Posix.deref buf pSrc)) then
      match setting_at buf pSrc ConfMan with
      | Done (pSrc, ConfMan) =>
        (* Move to next line *)
        writeSettings_loop rem buf (walk_forward is_newline buf pSrc) ConfMan
      | ErrorCalled msg => Some (ErrorCalled msg)
      | DivisionByZero => Some DivisionByZero
      | ReadPastTerminator => Some ReadPastTerminator
      | ReadBeforeStart => Some ReadBeforeStart
      | AssertFailed => Some AssertFailed
      end
    else
      writeSettings_loop rem buf (walk_forward is_newline buf pSrc) ConfMan
  end.

(** [writeSettings()]: [ConfMan] afterwards.  Every round of the loop
    moves [pSrc] on, so the size of the text bounds the rounds. *)
Definition writeSettings (this : LuaFileProxy) (ConfMan : C) : option (lua_result C) :=
  let buf := list_ascii_of_string (c_str (_settings this)) in
  match writeSettings_loop (length buf) buf 0 ConfMan with
  | Some r => Some (lua_bind r (λ ConfMan, Done (ConfMan_flushToDisk ConfMan)))
  | None => None
  end.

(** [~LuaFileProxy()] *)
Definition LuaFileProxy_delete (this : LuaFileProxy) (ConfMan : C) : option (lua_result C) :=
  if negb (empty (_settings this)) then writeSettings this ConfMan
  else Some (Done ConfMan).

End LuaSettings.

(** A line of settings as [writeSettings] reads it: a name, spaces, the
    equals sign, spaces, a value, and a line end. *)
Record setting_line : Type := mkLine {
  line_name : list ascii;
  line_spaces_before : list ascii;
  line_spaces_after : list ascii;
  line_value : list ascii;
  line_end : list ascii;
}.

Definition line_text (l : setting_line) : list ascii :=
  line_name l ++ line_spaces_before l ++ equals_sign :: line_spaces_after l
  ++ line_value l ++ line_end l.

(** The line is well formed: the name is not empty, does not start with a
    line end, holds no equals sign and does not end in a space; the value
    is not empty, does not start with a space, holds no line end behind
    its first byte, and is longer than one byte if it starts with a
    quote; the line end is not empty; no NUL anywhere. *)
Record well_formed (l : setting_line) : Prop := {
  wf_name_start : ends_value (star (line_name l)) = false;
  wf_name_equals : equals_sign ∉ line_name l;
  wf_name_end : ∃ name c, line_name l = name ++ [c] ∧ c ≠ space;
  wf_name_NUL : NUL ∉ line_name l;
  wf_spaces_before : Forall (λ c, c = space) (line_spaces_before l);
  wf_spaces_after : Forall (λ c, c = space) (line_spaces_after l);
  wf_value_start : ∃ c value, line_value l = c :: value ∧ c ≠ space ∧ c ≠ NUL
                              ∧ Forall (λ c, ends_value c = false) value
                              ∧ (c = quote → value ≠ []);
  wf_end : line_end l ≠ [] ∧ Forall (λ c, is_newline c = true) (line_end l);
}.

(** The value of a line as it is handed to [updateSetting]: a value that
    starts with a quote loses its first and its last byte. *)
Definition value_text (l : setting_line) : string :=
  string_of_list_ascii
    (if bool_decide (star (line_value l) = quote)
     then take (length (line_value l) - 2) (drop 1 (line_value l))
     else line_value l).

(** [updateSetting] on the lines in order, up to the first that fails. *)
Fixpoint update_settings {C} `{ConfigManager C, LanguageCodes, VolumeConversion}
    (lines : list setting_line) (ConfMan : C) : lua_result C :=
  match lines with
  | [] => Done ConfMan
  | l :: lines =>
    lua_bind (updateSetting ConfMan (string_of_list_ascii (line_name l)) (value_text l))
             (update_settings lines)
  end.

(** A line end of the config file, and a conversion for the volumes of
    the examples. *)
Definition CRLF : string := String CR (String LF "").

Definition full_volume : VolumeConversion := {|
  volume_of_text := λ value, 255;
|}.

(** The text of lines of settings, one behind the other. *)
Definition settings_text (lines : list setting_line) : string :=
  string_of_list_ascii (mjoin (line_text <$> lines)).

(** The line of the config file for the language of the game, as
    [setupConfigFile] formats it: the code between quotes. *)
Definition language_line (lang : string) : setting_line := {|
  line_name := list_ascii_of_string "GAME_LANGUAGE";
  line_spaces_before := [space];
  line_spaces_after := [space];
  line_value := quote :: list_ascii_of_string lang ++ [quote];
  line_end := list_ascii_of_string CRLF;
|}.

(** Two hyphens in a row somewhere in the text. *)
Fixpoint has_comment_mark (text : list ascii) : bool :=
  match text with
  | [] => false
  | c :: rest => bool_decide (c = hyphen) && bool_decide (star rest = hyphen)
                 || has_comment_mark rest
  end.

(** Equations between lists up to the nesting of [++], and between their
    lengths. *)
Ltac list_assoc :=
  repeat match goal with x := _ : list ascii |- _ => progress unfold x end;
  repeat first [rewrite <- (assoc_L (++))|progress simpl]; reflexivity.
Ltac list_length :=
  repeat match goal with x := _ : list ascii |- _ => progress unfold x end;
  rewrite ?length_app; simpl; rewrite ?length_app; simpl; lia.
(** * Properties *)

(** ** Strings *)

Lemma empty_false (s : string) : s ≠ "" → empty s = false.
Proof. intros H. unfold empty. by apply bool_decide_eq_false. Qed.

Lemma substring_0_length (s : string) (n : nat) :
  (n ≤ String.length s)%nat → String.length (String.substring 0 n s) = n.
Proof.
  revert n. induction s as [|c s IH]; intros [|n] Hn; simpl in *; try done; try lia.
  f_equal. apply IH. lia.
Qed.

Lemma substring_0_all (s : string) : String.substring 0 (String.length s) s = s.
Proof. induction s as [|c s IH]; simpl; [done|by f_equal]. Qed.

Lemma substring_split (s : string) (n : nat) :
  (n ≤ String.length s)%nat →
  s = String.substring 0 n s +:+ String.substring n (String.length s - n) s.
Proof.
  revert n. induction s as [|c s IH]; intros [|n] Hn; simpl in *; try done; try lia.
  - f_equal. by rewrite substring_0_all.
  - change (String c s = String c
      (String.substring 0 n s +:+ String.substring n (String.length s - n) s)).
    f_equal. apply IH. lia.
Qed.

Lemma get_Some_lt (s : string) (i : nat) (c : ascii) :
  String.get i s = Some c → (i < String.length s)%nat.
Proof.
  revert i. induction s as [|c' s IH]; intros [|i]; simpl; try done; try lia.
  intros Hi. apply IH in Hi. lia.
Qed.

Lemma contains_get (s : string) (c : ascii) :
  contains s c = true ↔ ∃ i, String.get i s = Some c.
Proof.
  induction s as [|c' s IH]; simpl.
  - split; [done|]. by intros [? ?].
  - rewrite orb_true_iff, bool_decide_eq_true, IH. split.
    + intros [->|[i Hi]]; [by exists 0%nat|by exists (S i)].
    + intros [[|i] Hi]; [left; congruence|right; by exists i].
Qed.

Lemma char_at_get (s : string) (i : nat) (c : ascii) :
  c ≠ NUL → char_at s i = c ↔ String.get i s = Some c.
Proof.
  intros Hc. unfold char_at. destruct (String.get i s); simpl; split; congruence.
Qed.

Lemma slash_not_NUL : "/"%char ≠ NUL.
Proof. done. Qed.

(** Where the pointer loop of [getParent] stops: at the start, or just
    after a separator, with no separator between there and where it
    began. *)
Lemma strip_last_component_spec (path : string) (n : nat) :
  let e := strip_last_component path n in
  (e ≤ n)%nat
  ∧ (e = 0%nat ∨ ∃ e', e = S e' ∧ char_at path e' = "/"%char)
  ∧ ∀ i, (e ≤ i < n)%nat → char_at path i ≠ "/"%char.
Proof.
  induction n as [|n IH]; simpl.
  - split; [done|]. split; [by left|]. intros i Hi. lia.
  - destruct (decide (char_at path n ≠ "/"%char)) as [Hn|Hn].
    + destruct IH as (Hle & Hstop & Hno). split; [lia|]. split; [done|].
      intros i Hi. destruct (decide (i = n)) as [->|]; [done|]. apply Hno. lia.
    + apply dec_stable in Hn. split; [done|]. split; [right; by exists n|].
      intros i Hi. lia.
Qed.

(** ** The Yuza node: enumeration and directory creation *)

Section YuzaNodeProperties.
Context {FS : Type} {os : OS FS} {cs : CommonStr} {build : Build}.

Lemma setFlags_returns (n : YuzaFilesystemNode) (w : World FS) :
  ∃ n', setFlags n w = Ret (n', emit (EvStat (c_str (_path n))) w)
        ∧ _displayName n' = _displayName n ∧ _path n' = _path n.
Proof.
  unfold setFlags. unfold_M. simpl.
  destruct (os_stat (w_fs w) (c_str (_path n))); simpl; eauto.
Qed.

Lemma classify_returns (entry : YuzaFilesystemNode) (dp : dirent) (w : World FS) :
  ∃ entry' w', classify entry dp w = Ret (entry', w')
               ∧ w_fs w' = w_fs w
               ∧ _displayName entry' = _displayName entry ∧ _path entry' = _path entry.
Proof.
  unfold classify.
  destruct SKYOS32;
    [|destruct SYSTEM_NOT_SUPPORTING_D_TYPE;
      [|destruct (decide (d_type dp = DT_UNKNOWN))]];
    try (destruct (setFlags_returns entry w) as (n' & -> & ? & ?); by eexists _, _).
  destruct (decide (d_type dp = DT_LNK)); unfold_M; simpl.
  - destruct (os_stat (w_fs w) (c_str (_path entry))); simpl; by eexists _, _.
  - by eexists _, _.
Qed.

(** One round of the [readdir] loop returns, leaves the filesystem alone,
    and either skips the entry or appends one node named after it; a node
    is appended for a name that starts with a period only when hidden
    entries are asked for and the second byte is neither NUL nor a period. *)
Lemma readdir_body_returns this mode hidden dp myList (w : World FS) :
  ∃ myList' w', readdir_body this mode hidden dp myList w = Ret (myList', w')
    ∧ w_fs w' = w_fs w
    ∧ (myList' = myList
       ∨ ∃ entry, myList' = myList ++ [entry]
           ∧ _displayName entry = d_name dp
           ∧ (dot_prefixed (d_name dp) →
              hidden = true ∧ char_at (d_name dp) 1 ≠ NUL ∧ char_at (d_name dp) 1 ≠ "."%char)).
Proof.
  unfold readdir_body, dot_prefixed.
  destruct (bool_decide (char_at (d_name dp) 0 = "."%char)) eqn:E0; simpl.
  - destruct hidden; simpl; [|by eexists _, _; eauto].
    destruct (bool_decide (char_at (d_name dp) 1 = NUL)) eqn:E1; simpl; [by eexists _, _; eauto|].
    destruct (bool_decide (char_at (d_name dp) 1 = "."%char)) eqn:E2; simpl; [by eexists _, _; eauto|].
    apply bool_decide_eq_false in E1, E2.
    unfold mbind, M_bind.
    edestruct classify_returns as (entry' & w' & -> & Hfs & Hname & _).
    destruct (negb (_isValid entry')); [by unfold_M; eexists _, _; eauto|].
    destruct (_ || _); unfold_M; [by eexists _, _; eauto|].
    eexists _, _. split; [done|]. split; [done|]. right.
    eexists. split; [done|]. split; [|done].
    rewrite Hname. by destruct (decide _).
  - apply bool_decide_eq_false in E0.
    unfold mbind, M_bind.
    edestruct classify_returns as (entry' & w' & -> & Hfs & Hname & _).
    destruct (negb (_isValid entry')); [by unfold_M; eexists _, _; eauto|].
    destruct (_ || _); unfold_M; [by eexists _, _; eauto|].
    eexists _, _. split; [done|]. split; [done|]. right.
    eexists. split; [done|]. split; [|done].
    rewrite Hname. by destruct (decide _).
Qed.

(** An entry whose name starts with two periods is skipped, whatever
    follows them and whether hidden entries are asked for or not. *)
Lemma readdir_body_skips_two_periods this mode hidden dp myList (w : World FS) :
  char_at (d_name dp) 0 = "."%char → char_at (d_name dp) 1 = "."%char →
  readdir_body this mode hidden dp myList w = Ret (myList, w).
Proof.
  intros H0 H1. unfold readdir_body.
  rewrite !(bool_decide_eq_true_2 _ H0), (bool_decide_eq_true_2 _ H1).
  rewrite orb_true_r. by destruct hidden.
Qed.

Lemma readdir_loop_returns this mode hidden entries : ∀ myList (w : World FS),
  ∃ new w', readdir_loop this mode hidden entries myList w = Ret (myList ++ new, w')
    ∧ w_fs w' = w_fs w
    ∧ Forall (λ entry, ∃ dp, dp ∈ entries ∧ _displayName entry = d_name dp
                ∧ (dot_prefixed (d_name dp) →
                   hidden = true ∧ char_at (d_name dp) 1 ≠ NUL
                   ∧ char_at (d_name dp) 1 ≠ "."%char)) new.
Proof.
  induction entries as [|dp rest IH]; intros myList w; simpl.
  - exists [], w. rewrite app_nil_r. by unfold_M.
  - unfold mbind, M_bind.
    destruct (readdir_body_returns this mode hidden dp myList w)
      as (l1 & w1 & -> & Hfs1 & Hl1).
    destruct (IH l1 w1) as (new & w2 & -> & Hfs2 & Hnew).
    assert (Hnew' : Forall (λ entry, ∃ dp0, dp0 ∈ dp :: rest
              ∧ _displayName entry = d_name dp0
              ∧ (dot_prefixed (d_name dp0) →
                 hidden = true ∧ char_at (d_name dp0) 1 ≠ NUL
                 ∧ char_at (d_name dp0) 1 ≠ "."%char)) new).
    { eapply Forall_impl; [exact Hnew|]. intros e (dp0 & Hin & ?).
      exists dp0. split; [by right|done]. }
    destruct Hl1 as [->|(entry & -> & Hname & Hdot)].
    + exists new, w2. split; [done|]. split; [congruence|done].
    + exists (entry :: new), w2. rewrite <- app_assoc. split; [done|].
      split; [congruence|]. constructor; [|done].
      exists dp. split; [by left|done].
Qed.

(** With [hidden = false], no node that an enumeration appends has a
    display name that starts with a period. *)
Lemma getChildren_not_hidden this myList mode (w : World FS) b myList' w' :
  getChildren this myList mode false w = Ret ((b, myList'), w') →
  ∃ new, myList' = myList ++ new
         ∧ Forall (λ entry, ¬ dot_prefixed (_displayName entry)) new.
Proof.
  unfold getChildren. unfold mbind at 1 2, M_bind at 1 2. unfold assert_.
  destruct (_isDirectory this); [|done].
  unfold sys_opendir. destruct (os_opendir _ _) as [entries|]; simpl.
  - unfold mbind, M_bind.
    destruct (readdir_loop_returns this mode false entries myList
                (emit (EvOpendir (c_str (_path this))) w)) as (new & w1 & -> & _ & Hnew).
    unfold_M. intros [= <- <- <-]. exists new. split; [done|].
    eapply Forall_impl; [exact Hnew|]. intros e (dp & _ & -> & Hdot) Hd.
    by destruct (Hdot Hd).
  - unfold_M. intros [= <- <- <-]. exists []. by rewrite app_nil_r.
Qed.

(** C5. On a directory node, [getChildren] returns; its result is false
    exactly when the directory could not be opened, and then the list is
    as it was before the call; otherwise the list is the old one with the
    new nodes appended. *)
Theorem getChildren_false_iff_opendir_fails this myList mode hidden (w : World FS) :
  _isDirectory this = true →
  ∃ b myList' w', getChildren this myList mode hidden w = Ret ((b, myList'), w')
    ∧ (b = false ↔ os_opendir (w_fs w) (c_str (_path this)) = None)
    ∧ (b = false → myList' = myList)
    ∧ (∃ new, myList' = myList ++ new)
    ∧ w_fs w' = w_fs w.
Proof.
  intros Hdir. unfold getChildren. unfold mbind at 1 2, M_bind at 1 2. unfold assert_.
  rewrite Hdir. unfold sys_opendir.
  destruct (os_opendir _ _) as [entries|] eqn:Eopen; simpl.
  - unfold mbind, M_bind.
    destruct (readdir_loop_returns this mode hidden entries myList
                (emit (EvOpendir (c_str (_path this))) w)) as (new & w1 & -> & Hfs & _).
    unfold_M. eexists true, _, _. split; [done|]. simpl.
    repeat split; try done. by exists new.
  - unfold_M. eexists false, _, _. split; [done|]. simpl.
    repeat split; try done. exists []. by rewrite app_nil_r.
Qed.

(** C4, amended. [createDirectory] makes one [mkdir] call, on the path of
    the node.  When that call succeeds, the flags are read afresh with
    [stat], and the result is true exactly when the probe finds the path
    with [st_mode = 0].  When it fails, no probe is made: the node is left
    as it was and the result is read from its cached flags. *)
Theorem createDirectory_result this (w : World FS) :
  let path := c_str (_path this) in
  ∃ fs' r, os_mkdir (w_fs w) path 0 = (fs', r)
    ∧ match r with
      | SysOk =>
          ∃ this', createDirectory this w
                   = Ret ((bool_decide (os_stat fs' path = Some 0), this'),
                          mkWorld fs' (w_trace w ++ [EvMkdir path; EvStat path]))
                   ∧ _isValid this' = bool_decide (is_Some (os_stat fs' path))
                   ∧ _isDirectory this' = bool_decide (os_stat fs' path = Some 0)
      | SysErr _ =>
          createDirectory this w
          = Ret ((_isValid this && _isDirectory this, this),
                 mkWorld fs' (w_trace w ++ [EvMkdir path]))
      end.
Proof.
  intros path. unfold createDirectory, sys_mkdir, setFlags. unfold_M. fold path.
  destruct (os_mkdir (w_fs w) path 0) as [fs' r] eqn:Emk. exists fs', r. split; [done|].
  destruct r as [|e]; simpl; [|done].
  destruct (os_stat fs' path) as [m|] eqn:Est; simpl; rewrite <- app_assoc; simpl.
  - assert (bool_decide (Some m = Some 0) = bool_decide (m = 0)) as ->.
    { apply bool_decide_ext. split; congruence. }
    by eexists.
  - by eexists.
Qed.

Lemma createDirectory_returns (this : YuzaFilesystemNode) :
  returns (FS:=FS) (createDirectory this).
Proof.
  intros w. unfold createDirectory, sys_mkdir. unfold mbind, M_bind.
  destruct (os_mkdir _ _ _) as [fs' [|e]].
  - edestruct setFlags_returns as (n' & -> & _). by eexists _, _.
  - by eexists _, _.
Qed.

Lemma YuzaFilesystemNode_new_returns (p : string) :
  p ≠ "" → returns (FS:=FS) (YuzaFilesystemNode_new p).
Proof.
  intros Hp w. unfold YuzaFilesystemNode_new. unfold mbind, M_bind, assert_.
  rewrite bool_decide_eq_true_2 by (destruct p; simpl; [done|lia]).
  destruct (_ && _); [by eexists _, _|].
  edestruct setFlags_returns as (n' & -> & _). by eexists _, _.
Qed.

End YuzaNodeProperties.

(** C5 at work: a directory that cannot be opened, and one that can. *)
Lemma getChildren_false_iff_opendir_fails_witness :
  (∃ w', getChildren (build:=YuzaBuild) (mkNode "gone" "gone" true true)
           [mkNode "x" "d/x" true true] kListAll true (mem_world [("d", 0); ("d/x", 0)])
         = Ret ((false, [mkNode "x" "d/x" true true]), w'))
  ∧ ∃ b myList' w',
      getChildren (build:=YuzaBuild) (mkNode "d" "d" true true)
        [] kListAll true (mem_world [("d", 0); ("d/x", 0)]) = Ret ((b, myList'), w')
      ∧ (b = false ↔ os_opendir (w_fs (mem_world [("d", 0); ("d/x", 0)])) (c_str "d") = None)
      ∧ (b = false → myList' = [])
      ∧ (∃ new, myList' = [] ++ new)
      ∧ w_fs w' = w_fs (mem_world [("d", 0); ("d/x", 0)]).
Proof.
  split; [eexists; by vm_compute|].
  apply (getChildren_false_iff_opendir_fails (build:=YuzaBuild)
           (mkNode "d" "d" true true) [] kListAll true (mem_world [("d", 0); ("d/x", 0)])).
  reflexivity.
Defined.

(** C3 (fails on the code).  A directory [d] holds the regular files
    [..a] and [.b].  Enumerated with hidden entries asked for, [.b] is
    listed and [..a] is not, though its name is neither [.] nor [..]: the
    test for [..] looks at the first two bytes of the name only. *)
Theorem getChildren_skips_names_that_start_with_two_periods :
  ∃ w',
    getChildren (build:=YuzaBuild) (mkNode "d" "d" true true) [] kListAll true
      (mem_world [("d", 0); ("d/..a", 1); ("d/.b", 1)])
    = Ret ((true, [mkNode ".b" "d/.b" false true]), w')
    ∧ os_opendir (w_fs w') "d"
      = Some [ {| d_name := "."; d_type := DT_DIR |}; {| d_name := ".."; d_type := DT_DIR |};
               {| d_name := "..a"; d_type := DT_REG |}; {| d_name := ".b"; d_type := DT_REG |} ].
Proof. eexists. split; by vm_compute. Qed.

(** C4 does not hold as worded.  The node of an existing directory [d]:
    [mkdir] fails with [EEXIST], no [stat] follows, and the result is true
    all the same, from the flags read when the node was made. *)
Lemma createDirectory_confirmed_by_fresh_probe_counterexample :
  YuzaFilesystemNode_new (cs:=MemStr) (build:=YuzaBuild) "d" (mem_world [("d", 0)])
    = Ret (mkNode "d" "d" true true, mkWorld (list_to_map [("d", 0)]) [EvStat "d"])
  ∧ createDirectory (mkNode "d" "d" true true) (mkWorld (list_to_map [("d", 0)]) [EvStat "d"])
    = Ret ((true, mkNode "d" "d" true true),
           mkWorld (list_to_map [("d", 0)]) [EvStat "d"; EvMkdir "d"])
  ∧ ¬ createDirectory_confirmed_by_fresh_probe (mkNode "d" "d" true true)
        (mkWorld (list_to_map [("d", 0)]) [EvStat "d"]).
Proof.
  split; [by vm_compute|]. split; [by vm_compute|].
  intros Hclaim.
  destruct (Hclaim (mkNode "d" "d" true true)
              (mkWorld (list_to_map [("d", 0)]) [EvStat "d"; EvMkdir "d"])) as [Htrace _].
  - by vm_compute.
  - simpl in Htrace. discriminate Htrace.
Qed.

(** The same with a node whose flags are stale: the directory [x/d] is
    gone, with [x], since the node was made; [mkdir] fails, the result is
    true, and the path is not there afterwards. *)
Example createDirectory_stale_flags :
  ∃ w', createDirectory (mkNode "d" "x/d" true true) (mem_world []) = Ret ((true, mkNode "d" "x/d" true true), w')
        ∧ os_stat (w_fs w') "x/d" = None.
Proof. eexists. split; by vm_compute. Qed.

(** ** The Yuza node: the parent *)

Section GetParent.
Context {FS : Type} {AbstractFSNode : Type} (makeNode : string → M FS AbstractFSNode).

(** C8. [getParent] returns no node exactly when the path is ["/"] or has
    no separator in it.  For every other path it returns the node that
    [makeNode] builds from the path cut after its last separator: what is
    cut off is the final component, with no separator in it, and the path
    is not normalized again before the cut. *)
Theorem getParent_strips_final_component (this : YuzaFilesystemNode) (w : World FS) :
  ((∃ w', getParent makeNode this w = Ret (None, w'))
   ↔ _path this = "/" ∨ contains (_path this) "/" = false)
  ∧ (_path this = "/" ∨ contains (_path this) "/" = false →
     getParent makeNode this w = Ret (None, w))
  ∧ (_path this ≠ "/" → contains (_path this) "/" = true →
     ∃ parentPath component,
       _path this = parentPath +:+ component
       ∧ contains component "/" = false
       ∧ lastChar parentPath = "/"%char
       ∧ getParent makeNode this w = (parent ← makeNode parentPath; mret (Some parent)) w).
Proof.
  set (path := _path this).
  set (n := String.length path).
  destruct (strip_last_component_spec path n) as (Hle & Hstop & Hno).
  set (e := strip_last_component path n) in *.
  assert (Hnone : path = "/" ∨ contains path "/" = false →
                  getParent makeNode this w = Ret (None, w)).
  { unfold getParent. fold path n e. intros [Heq|Hc].
    - by rewrite decide_True.
    - destruct (decide (path = "/")); [done|].
      destruct Hstop as [->|(e' & He & Hch)]; [done|].
      apply char_at_get in Hch; [|exact slash_not_NUL].
      assert (contains path "/" = true) by (apply contains_get; eauto). congruence. }
  assert (Hsome : path ≠ "/" → contains path "/" = true →
     ∃ parentPath component,
       path = parentPath +:+ component
       ∧ contains component "/" = false
       ∧ lastChar parentPath = "/"%char
       ∧ getParent makeNode this w = (parent ← makeNode parentPath; mret (Some parent)) w).
  { intros Hroot Hc. unfold getParent. fold path n e.
    rewrite decide_False by done.
    destruct Hstop as [He|(e' & He & Hch)].
    - exfalso. apply contains_get in Hc as [i Hi].
      apply (Hno i).
      + split; [lia|]. by apply get_Some_lt in Hi.
      + apply char_at_get; [exact slash_not_NUL|done].
    - rewrite decide_False by lia.
      exists (String.substring 0 e path), (String.substring e (n - e) path).
      split; [by apply substring_split|]. split; [|split; [|done]].
      + destruct (contains (String.substring e (n - e) path) "/") eqn:E; [|done].
        apply contains_get in E as [i Hi]. exfalso.
        destruct (lt_dec i (n - e)) as [Hlt|Hge].
        * rewrite String.substring_correct1 in Hi by done.
          apply (Hno (i + e)%nat); [lia|]. by apply char_at_get; [exact slash_not_NUL|].
        * rewrite String.substring_correct2 in Hi by lia. done.
      + unfold lastChar. rewrite substring_0_length by done. rewrite He.
        unfold char_at in *. rewrite <- He.
        rewrite String.substring_correct1 by lia. by rewrite Nat.add_0_r. }
  split; [|split; [exact Hnone|exact Hsome]].
  split.
  - intros [w' Hret].
    destruct (decide (path = "/")) as [|Hroot]; [by left|].
    destruct (contains path "/") eqn:Hc; [|by right].
    destruct (Hsome Hroot eq_refl) as (pp & comp & _ & _ & _ & Hget).
    rewrite Hget in Hret. unfold mbind, M_bind in Hret.
    destruct (makeNode pp w) as [[? ?]| |]; by unfold_M.
  - intros H. exists w. by apply Hnone.
Qed.

End GetParent.

(** C8 at work: the parent of [/a/b] is made from [/a/]. *)
Lemma getParent_strips_final_component_witness :
  ∃ parentPath component,
    "/a/b" = parentPath +:+ component
    ∧ contains component "/" = false
    ∧ lastChar parentPath = "/"%char
    ∧ getParent (FS:=gmap string Z) (λ path, mret path) (mkNode "b" "/a/b" false true) (mem_world [])
      = Ret (Some parentPath, mem_world []).
Proof.
  destruct (getParent_strips_final_component (FS:=gmap string Z) (λ path, mret path)
              (mkNode "b" "/a/b" false true) (mem_world [])) as (_ & _ & Hparent).
  destruct Hparent as (parentPath & component & Hsplit & Hcomp & Hlast & Hget); [done|done|].
  exists parentPath, component. split; [exact Hsplit|]. split; [exact Hcomp|].
  split; [exact Hlast|exact Hget].
Defined.

(** ** Posix::assureDirectoryExists *)

Section AssureDirectoryExists.
Context {FS : Type} {os : OS FS} {cs : CommonStr}.

(** What is assumed of the host's [mkdir] and [stat]: [mkdir] on a path
    that [stat] finds fails with [EEXIST] and changes nothing; a directory
    that [mkdir] made is found by [stat] with [st_mode = 0]; [mkdir] does
    not change what [stat] says of the paths it found before. *)
Hypothesis mkdir_existing : ∀ fs path mode st_mode,
  os_stat fs path = Some st_mode → os_mkdir fs path mode = (fs, SysErr EEXIST).
Hypothesis mkdir_made : ∀ fs path mode fs',
  os_mkdir fs path mode = (fs', SysOk) → os_stat fs' path = Some 0.
Hypothesis mkdir_keeps : ∀ fs path mode fs' r q st_mode,
  os_mkdir fs path mode = (fs', r) → os_stat fs q = Some st_mode →
  os_stat fs' q = Some st_mode.

Lemma mkdir_or_exists_true path w w' :
  Posix.mkdir_or_exists path w = Ret (true, w') →
  os_stat (w_fs w') (Posix.buf_c_str path) = Some 0 ∧ stat_kept w w'.
Proof.
  unfold Posix.mkdir_or_exists, sys_mkdir. unfold_M.
  destruct (os_mkdir (w_fs w) (Posix.buf_c_str path) 0) as [fs1 r] eqn:Emk.
  destruct r as [|e]; simpl.
  - intros [= <-]. simpl. split; [by eapply mkdir_made|].
    intros q m Hq. simpl. by eapply mkdir_keeps.
  - destruct (decide (e = EEXIST)) as [->|]; simpl; [|done].
    destruct (os_stat fs1 (Posix.buf_c_str path)) as [m|] eqn:Est; simpl; [|done].
    destruct (decide (m ≠ 0)) as [|Hm]; simpl; [done|].
    intros [= <-]. simpl. apply dec_stable in Hm. subst m. split; [done|].
    intros q m Hq. simpl. by eapply mkdir_keeps.
Qed.

Lemma mkdir_or_exists_existing path w :
  os_stat (w_fs w) (Posix.buf_c_str path) = Some 0 →
  ∃ w', Posix.mkdir_or_exists path w = Ret (true, w') ∧ w_fs w' = w_fs w.
Proof.
  intros Hst. unfold Posix.mkdir_or_exists, sys_mkdir. unfold_M.
  rewrite (mkdir_existing _ _ 0 _ Hst). simpl. rewrite Hst. simpl.
  eexists. split; [reflexivity|done].
Qed.

Lemma assure_loop_unfold rem path :
  Posix.assure_loop rem path =
    let end_ := length path in
    let cur := (end_ - rem)%nat in
    let loop_condition (path : list ascii) : M FS bool :=
      match rem with
      | O => mret true
      | S rem' => Posix.assure_loop rem' path
      end in
    let not_last := negb (bool_decide ((cur + 1)%nat = end_)) in
    if not_last && negb (bool_decide (Posix.deref path cur = "/"%char)) then
      loop_condition path
    else
      let path := if not_last then <[cur := NUL]> path else path in
      ok ← Posix.mkdir_or_exists path;
      if ok : bool then loop_condition (<[cur := "/"%char]> path) else mret false.
Proof. by destruct rem. Qed.

Lemma visited_unfold rem path :
  visited rem path =
    let end_ := length path in
    let cur := (end_ - rem)%nat in
    let loop_condition (path : list ascii) : list string :=
      match rem with
      | O => []
      | S rem' => visited rem' path
      end in
    let not_last := negb (bool_decide ((cur + 1)%nat = end_)) in
    if not_last && negb (bool_decide (Posix.deref path cur = "/"%char)) then
      loop_condition path
    else
      let path := if not_last then <[cur := NUL]> path else path in
      Posix.buf_c_str path :: loop_condition (<[cur := "/"%char]> path).
Proof. by destruct rem. Qed.

Lemma assure_loop_true rem : ∀ path w w',
  Posix.assure_loop rem path w = Ret (true, w') →
  Forall (λ p, os_stat (w_fs w') p = Some 0) (visited rem path) ∧ stat_kept w w'.
Proof.
  induction rem as [|rem IH]; intros path w w';
    rewrite assure_loop_unfold, visited_unfold; cbv beta iota zeta;
    destruct (_ && _).
  - unfold_M. intros [= <-]. split; [constructor|by intros ???].
  - unfold mbind, M_bind.
    destruct (Posix.mkdir_or_exists _ w) as [[[] w1]| |] eqn:E; try done.
    unfold_M. intros [= <-].
    apply mkdir_or_exists_true in E as [? ?]. split; [by repeat constructor|done].
  - apply IH.
  - unfold mbind, M_bind.
    destruct (Posix.mkdir_or_exists _ w) as [[[] w1]| |] eqn:E; try done.
    intros Hloop. apply IH in Hloop as [Hall Hkept].
    apply mkdir_or_exists_true in E as [Hst Hkept1].
    split.
    + constructor; [by apply Hkept|done].
    + intros q m Hq. by apply Hkept, Hkept1.
Qed.

(** Where every segment is there already and is a directory, the loop
    succeeds and changes nothing. *)
Lemma assure_loop_existing rem : ∀ path w,
  Forall (λ p, os_stat (w_fs w) p = Some 0) (visited rem path) →
  ∃ w', Posix.assure_loop rem path w = Ret (true, w') ∧ w_fs w' = w_fs w.
Proof.
  induction rem as [|rem IH]; intros path w;
    rewrite assure_loop_unfold, visited_unfold; cbv beta iota zeta;
    destruct (_ && _).
  - intros _. by exists w.
  - intros [Hst _]%Forall_cons.
    apply mkdir_or_exists_existing in Hst as (w1 & E & Hfs).
    unfold mbind, M_bind. rewrite E. by exists w1.
  - apply IH.
  - intros [Hst Hall]%Forall_cons.
    apply mkdir_or_exists_existing in Hst as (w1 & E & Hfs).
    unfold mbind, M_bind. rewrite E.
    rewrite <- Hfs in Hall. apply IH in Hall as (w2 & E2 & Hfs2).
    exists w2. split; [done|congruence].
Qed.

(** A call that returns true has passed the prefix check, and leaves every
    path it handed to [mkdir] behind as a directory. *)
Lemma assureDirectoryExists_true dir prefix (w w' : World FS) :
  Posix.assureDirectoryExists dir prefix w = Ret (true, w') →
  prefix_is_directory prefix w'
  ∧ Forall (λ p, os_stat (w_fs w') p = Some 0) (visited_paths dir prefix).
Proof.
  unfold Posix.assureDirectoryExists, visited_paths, prefix_is_directory.
  destruct prefix as [p|]; unfold_M; simpl.
  - destruct (os_stat (w_fs w) p) as [m|] eqn:Ep; simpl; [|done].
    destruct (S_ISDIR m) eqn:Edir; simpl; [|done].
    intros Hloop. apply assure_loop_true in Hloop as [Hall Hkept].
    split; [|done]. exists m. split; [|done]. by apply Hkept.
  - intros Hloop. by apply assure_loop_true in Hloop as [Hall _].
Qed.

(** Each segment that is there already and is a directory is taken as
    made: on a chain that exists the call returns true and changes
    nothing. *)
Lemma assureDirectoryExists_existing dir prefix (w : World FS) :
  prefix_is_directory prefix w →
  Forall (λ p, os_stat (w_fs w) p = Some 0) (visited_paths dir prefix) →
  ∃ w', Posix.assureDirectoryExists dir prefix w = Ret (true, w') ∧ w_fs w' = w_fs w.
Proof.
  unfold Posix.assureDirectoryExists, visited_paths, prefix_is_directory.
  destruct prefix as [p|]; unfold_M; simpl.
  - intros (m & -> & ->) Hall. simpl.
    by apply (assure_loop_existing _ _ (mkWorld (w_fs w) (w_trace w ++ [EvStat p]))).
  - intros _ Hall. by apply assure_loop_existing.
Qed.

(** C2. [Posix::assureDirectoryExists] is idempotent: on a host whose
    [mkdir] and [stat] behave as assumed above, when a call returns true, a
    second call with the same arguments returns true as well and leaves
    the filesystem as the first call left it; every path handed to [mkdir]
    is then there as a directory. *)
Theorem assureDirectoryExists_idempotent dir prefix (w w1 : World FS) :
  Posix.assureDirectoryExists dir prefix w = Ret (true, w1) →
  ∃ w2, Posix.assureDirectoryExists dir prefix w1 = Ret (true, w2)
        ∧ w_fs w2 = w_fs w1
        ∧ Forall (λ p, os_stat (w_fs w2) p = Some 0) (visited_paths dir prefix).
Proof.
  intros [Hprefix Hall]%assureDirectoryExists_true.
  destruct (assureDirectoryExists_existing dir prefix w1 Hprefix Hall) as (w2 & Hcall & Hfs).
  exists w2. split; [done|]. split; [done|]. by rewrite Hfs.
Qed.

End AssureDirectoryExists.

(** ** The filesystem in memory is such a host *)

Lemma mem_mkdir_existing (fs : gmap string Z) path mode st_mode :
  os_stat fs path = Some st_mode → os_mkdir fs path mode = (fs, SysErr EEXIST).
Proof.
  simpl. intros Hst. unfold mem_mkdir. by rewrite decide_True by eauto.
Qed.

Lemma mem_mkdir_made (fs : gmap string Z) path mode fs' :
  os_mkdir fs path mode = (fs', SysOk) → os_stat fs' path = Some 0.
Proof.
  simpl. unfold mem_mkdir. repeat case_decide; try done.
  destruct (mem_parent_ok fs path); intros [= <-]. apply lookup_insert_eq.
Qed.

Lemma mem_mkdir_keeps (fs : gmap string Z) path mode fs' r q st_mode :
  os_mkdir fs path mode = (fs', r) → os_stat fs q = Some st_mode →
  os_stat fs' q = Some st_mode.
Proof.
  simpl. unfold mem_mkdir.
  destruct (decide (is_Some (fs !! path))) as [|Hfree]; [by intros [= <- <-]|].
  destruct (decide (path = "")); [by intros [= <- <-]|].
  destruct (mem_parent_ok fs path); intros [= <- <-]; [|done].
  intros Hq. rewrite lookup_insert_ne; [done|].
  intros ->. destruct Hfree. eauto.
Qed.

(** The segments of [a/b/c] and of [/a/b], in the order of the loop. *)
Example visited_paths_segments :
  visited_paths (H:=MemStr) "a/b/c" None = ["a"; "a/b"; "a/b/c"]
  ∧ visited_paths (H:=MemStr) "/a/b" None = ["/a"; "/a/b"]
  ∧ visited_paths (H:=MemStr) "b/c" (Some "a") = ["a"; "a/b"; "a/b/c"]
  ∧ visited_paths (H:=MemStr) "/" None = [].
Proof. by vm_compute. Qed.

(** A run of C2 on the filesystem in memory: the chain [a/b/c] made in an
    empty current directory, and the second call. *)
Lemma assureDirectoryExists_idempotent_witness :
  Posix.assureDirectoryExists (cs:=MemStr) "a/b/c" None (mem_world [])
    = Ret (true, mkWorld (list_to_map [("a", 0); ("a/b", 0); ("a/b/c", 0)])
                         [EvMkdir "a"; EvMkdir "a/b"; EvMkdir "a/b/c"])
  ∧ ∃ w2,
      Posix.assureDirectoryExists (cs:=MemStr) "a/b/c" None
        (mkWorld (list_to_map [("a", 0); ("a/b", 0); ("a/b/c", 0)])
                 [EvMkdir "a"; EvMkdir "a/b"; EvMkdir "a/b/c"]) = Ret (true, w2)
      ∧ w_fs w2 = list_to_map [("a", 0); ("a/b", 0); ("a/b/c", 0)]
      ∧ Forall (λ p, os_stat (w_fs w2) p = Some 0) (visited_paths (H:=MemStr) "a/b/c" None).
Proof.
  split; [by vm_compute|].
  apply (assureDirectoryExists_idempotent (cs:=MemStr)
           mem_mkdir_existing mem_mkdir_made mem_mkdir_keeps
           "a/b/c" None (mem_world [])).
  by vm_compute.
Defined.

(** ** The handles *)

Section HandleProperties.
Context {FS AbstractFSNode FSNode RS WS : Type}.
Context {srs : SeekableReadStream RS} {sws : WriteStream WS}.
Context {backend : FSBackend FS AbstractFSNode FSNode RS WS}.

Lemma File_isOpen_closed (f : File.t RS) : File._handle f = None → File.isOpen f = false.
Proof. intros H. unfold File.isOpen. rewrite H. by apply bool_decide_eq_false; intros []. Qed.

Lemma DumpFile_isOpen_closed (f : DumpFile.t WS) :
  DumpFile._handle f = None → DumpFile.isOpen f = false.
Proof. intros H. unfold DumpFile.isOpen. rewrite H. by apply bool_decide_eq_false; intros []. Qed.

(** C1. [File::exists(filename)] asks the search manager for [filename] and,
    only when that finds nothing, for [filename + "."], and for no other
    name; it is true exactly when one of the two is found.
    [File::open(filename, archive)], on a closed handle and a filename that
    is not empty, asks [archive] for the same two names in the same way;
    it returns, with the handle bound to the first stream found, and its
    result is true exactly when one of the two lookups gives a stream. *)
Theorem File_lookup_exact_then_trailing_dot
    (SearchMan archive : Archive RS) (f : File.t RS) (filename : string) (w : World FS) :
  (∃ b evs,
      File.exists_ SearchMan filename w = Ret (b, mkWorld (w_fs w) (w_trace w ++ evs))
      ∧ b = hasFile SearchMan filename || hasFile SearchMan (filename +:+ ".")
      ∧ lookup_names evs =
          if hasFile SearchMan filename then [filename] else [filename; filename +:+ "."])
  ∧ (filename ≠ "" → File._handle f = None →
     ∃ b f' evs,
      File.open_archive f filename archive w
        = Ret (b, f', mkWorld (w_fs w) (w_trace w ++ evs))
      ∧ (b = true ↔ is_Some (createReadStreamForMember archive filename)
                    ∨ is_Some (createReadStreamForMember archive (filename +:+ ".")))
      ∧ File._handle f' =
          match createReadStreamForMember archive filename with
          | Some s => Some s
          | None => createReadStreamForMember archive (filename +:+ ".")
          end
      ∧ lookup_names evs =
          match createReadStreamForMember archive filename with
          | Some _ => [filename]
          | None => [filename; filename +:+ "."]
          end).
Proof.
  split.
  - unfold File.exists_. unfold_M. simpl.
    destruct (hasFile SearchMan filename) eqn:E1; simpl.
    + exists true, [EvHasFile filename]. done.
    + destruct (hasFile SearchMan (filename +:+ ".")) eqn:E2; simpl.
      * exists true, [EvHasFile filename; EvHasFile (filename +:+ ".")].
        rewrite <- app_assoc. done.
      * exists false, [EvHasFile filename; EvHasFile (filename +:+ ".")].
        rewrite <- app_assoc. done.
  - intros Hne Hclosed.
    unfold File.open_archive, File.open_stream. unfold_M.
    rewrite (empty_false _ Hne), (File_isOpen_closed _ Hclosed). simpl.
    destruct (createReadStreamForMember archive filename) as [s|] eqn:E1; simpl.
    + exists true, (File.mk (Some s) filename),
        [EvCreateReadStreamForMember filename; EvDebug 8 ("Opening hashed: " +:+ filename)].
      rewrite <- app_assoc. simpl. repeat split; eauto.
    + destruct (createReadStreamForMember archive (filename +:+ ".")) as [s|] eqn:E2; simpl.
      * exists true, (File.mk (Some s) filename),
          [EvCreateReadStreamForMember filename;
           EvCreateReadStreamForMember (filename +:+ ".");
           EvDebug 8 ("Opening hashed: " +:+ filename +:+ ".")].
        rewrite <- !app_assoc. simpl. repeat split; eauto.
      * exists false, f,
          [EvCreateReadStreamForMember filename;
           EvCreateReadStreamForMember (filename +:+ ".");
           EvDebug 2 ("File::open: opening '" +:+ filename +:+ "' failed")].
        rewrite <- !app_assoc. simpl. repeat split; eauto.
        -- intros ?; done.
        -- intros [[? ?]|[? ?]]; done.
Qed.

(** Every accessor of the read handle, and every accessor of the write
    handle but [pos], stops in its [assert] on a closed handle. *)
Lemma accessors_assert_on_closed_handle (name : string) ptr len offs whence (w : World FS) :
  File.err (RS:=RS) (File.mk None name) w = AssertFail
  ∧ File.clearErr (RS:=RS) (File.mk None name) w = AssertFail
  ∧ File.eos (RS:=RS) (File.mk None name) w = AssertFail
  ∧ File.pos (RS:=RS) (File.mk None name) w = AssertFail
  ∧ File.size (RS:=RS) (File.mk None name) w = AssertFail
  ∧ File.seek (RS:=RS) (File.mk None name) offs whence w = AssertFail
  ∧ File.read (RS:=RS) (File.mk None name) len w = AssertFail
  ∧ DumpFile.err (WS:=WS) (DumpFile.mk None) w = AssertFail
  ∧ DumpFile.clearErr (WS:=WS) (DumpFile.mk None) w = AssertFail
  ∧ DumpFile.write (WS:=WS) (DumpFile.mk None) ptr len w = AssertFail
  ∧ DumpFile.flush (WS:=WS) (DumpFile.mk None) w = AssertFail.
Proof. repeat split. Qed.

(** C6 (fails on the code). [DumpFile::pos] has no [assert]: on a closed
    handle it calls [pos] through the null [_handle], where every other
    accessor of the two handles stops in [assert(_handle)]. *)
Theorem DumpFile_pos_closed_handle (w : World FS) :
  DumpFile.pos (WS:=WS) (DumpFile.mk None) w = NullDeref
  ∧ DumpFile.pos (WS:=WS) (DumpFile.mk None) w ≠ AssertFail
  ∧ DumpFile.err (WS:=WS) (DumpFile.mk None) w = AssertFail
  ∧ DumpFile.flush (WS:=WS) (DumpFile.mk None) w = AssertFail.
Proof. repeat split. done. Qed.

(** C9. A handle holds at most one stream: every [open] on a handle that
    holds one stops in [assert(!_handle)], and so never replaces it;
    [close] deletes the stream and leaves the handle closed; a closed
    handle, after [close] as when new, takes the stream it is opened
    with. *)
Theorem handle_holds_at_most_one_stream
    (SearchMan archive : Archive RS) (s s' : RS) (ws : WS) (name name' filename : string)
    (stream : option RS) (node : FSNode) (createPath : bool)
    (rf : File.t RS) (df : DumpFile.t WS) (w : World FS) :
  (File.open_stream (File.mk (Some s) name) stream name' w = AssertFail
   ∧ File.open_archive (File.mk (Some s) name) filename archive w = AssertFail
   ∧ File.open SearchMan (File.mk (Some s) name) filename w = AssertFail
   ∧ File.open_node (File.mk (Some s) name) node w = AssertFail
   ∧ DumpFile.open (DumpFile.mk (Some ws)) filename createPath w = AssertFail
   ∧ DumpFile.open_node (DumpFile.mk (Some ws)) node w = AssertFail)
  ∧ (File.isOpen (fst (File.close rf)) = false
     ∧ snd (File.close rf) = delete_ (File._handle rf)
     ∧ snd (File.close (File.mk (Some s) name)) = Deleted
     ∧ DumpFile.isOpen (fst (DumpFile.close df)) = false
     ∧ snd (DumpFile.close df) = delete_ (DumpFile._handle df)
     ∧ snd (DumpFile.close (DumpFile.mk (Some ws))) = Deleted
     ∧ fst (DumpFile.close df) = DumpFile.new)
  ∧ (File.open_stream (fst (File.close rf)) (Some s') name' w
       = Ret ((true, File.mk (Some s') name'), w)
     ∧ File.isOpen (File.mk (Some s') name') = true
     ∧ DumpFile.open_node (fst (DumpFile.close df)) node w = DumpFile.open_node DumpFile.new node w
     ∧ ∀ w1 w2, FSNode_isDirectory node w = Ret (false, w1) →
                FSNode_createWriteStream node w1 = Ret (Some ws, w2) →
                DumpFile.open_node (fst (DumpFile.close df)) node w
                = Ret ((true, DumpFile.mk (Some ws)), w2)).
Proof.
  split; [|split].
  - repeat split.
    + unfold File.open_archive, File.open. unfold_M. by destruct (negb (empty filename)).
    + unfold File.open, File.open_archive. unfold_M. by destruct (negb (empty filename)).
    + unfold DumpFile.open. unfold_M. by destruct (negb (empty filename)).
  - repeat split.
  - repeat split.
    intros w1 w2 Hdir Hcws. simpl.
    unfold DumpFile.open_node. unfold_M. simpl. rewrite Hdir, Hcws. done.
Qed.

(** C10. In every state of the write handle, open or closed, and for
    every offset and whence, [DumpFile::seek] returns false and
    [DumpFile::size] returns -1, and neither touches the stream; on the
    read handle, [seek] and [size] of an open handle are those of its
    stream. *)
Theorem DumpFile_seek_size_unsupported
    (f : DumpFile.t WS) (offset whence : Z) (name : string) (s : RS) (w : World FS) :
  DumpFile.seek f offset whence w = Ret (false, w)
  ∧ DumpFile.size f w = Ret (-1, w)
  ∧ File.seek (File.mk (Some s) name) offset whence w
    = Ret ((fst (rs_seek s offset whence),
            File.mk (Some (snd (rs_seek s offset whence))) name), w)
  ∧ File.size (File.mk (Some s) name) w = Ret (rs_size s, w).
Proof.
  repeat split.
  unfold File.seek. unfold_M. simpl. by destruct (rs_seek s offset whence).
Qed.

(** One round of the [createPath] loop returns, whatever the backend
    answers. *)
Lemma createPath_body_returns filename i :
  backend_returns backend → returns (DumpFile.createPath_body (backend:=backend) filename i).
Proof.
  intros Hb w. unfold DumpFile.createPath_body.
  destruct (_ || _); [|by eexists _, _].
  destruct (empty _) eqn:Ee; [by eexists _, _|].
  assert (String.substring 0 i filename ≠ "") as Hne.
  { intros Heq. unfold empty in Ee. by rewrite Heq, bool_decide_eq_true_2 in Ee. }
  unfold mbind, M_bind.
  destruct (makeFileNodePath_returns _ Hb _ Hne w) as (node & w1 & ->).
  destruct (node_exists_returns _ Hb node w1) as ([] & w2 & ->); [by eexists _, _|].
  destruct (node_createDirectory_returns _ Hb node w2) as ([] & w3 & ->); by eexists _, _.
Qed.

(** A failed [createDirectory] in the [createPath] loop logs a warning,
    and the round ends as every other round. *)
Lemma createPath_body_failure filename i node (w w1 w2 w3 : World FS) :
  (char_at filename i = "/"%char ∨ char_at filename i = backslash) →
  String.substring 0 i filename ≠ "" →
  makeFileNodePath (String.substring 0 i filename) w = Ret (node, w1) →
  node_exists node w1 = Ret (false, w2) →
  node_createDirectory node w2 = Ret (false, w3) →
  DumpFile.createPath_body (backend:=backend) filename i w
  = Ret (tt, emit (EvWarning "DumpFile: unable to create directories from path prefix") w3).
Proof.
  intros Hsep Hne Hmk Hex Hcr. unfold DumpFile.createPath_body.
  assert (bool_decide (char_at filename i = "/"%char)
          || bool_decide (char_at filename i = backslash) = true) as ->.
  { apply orb_true_iff. destruct Hsep; [left|right]; by apply bool_decide_eq_true_2. }
  rewrite (empty_false _ Hne). unfold mbind, M_bind. by rewrite Hmk, Hex, Hcr.
Qed.

Lemma for_returns (body : nat → M FS unit) count :
  (∀ i, returns (body i)) → ∀ i, returns (for_ i count body).
Proof.
  intros Hbody. induction count as [|count IH]; intros i w; simpl.
  - by eexists _, _.
  - unfold mbind, M_bind. destruct (Hbody i w) as ([] & w1 & ->). apply IH.
Qed.

Lemma for_round (body : nat → M FS unit) (k : nat) : ∀ (count i : nat) (w w1 : World FS),
  for_ i count body w = Ret (tt, w1) → (k < count)%nat →
  ∃ wa wb, for_ i k body w = Ret (tt, wa)
           ∧ body (i + k)%nat wa = Ret (tt, wb)
           ∧ for_ (S (i + k)) (count - S k) body wb = Ret (tt, w1).
Proof.
  induction k as [|k IH]; intros [|count] i w w1 Hrun Hk; try lia;
    simpl in Hrun; unfold mbind, M_bind in Hrun;
    destruct (body i w) as [[[] w0]| |] eqn:Hbody; try done.
  - exists w, w0. rewrite Nat.add_0_r. replace (S count - 1)%nat with count by lia. by split.
  - destruct (IH count (S i) w0 w1 Hrun) as (wa & wb & Hbefore & Hround & Hafter); [lia|].
    exists wa, wb. rewrite Nat.add_succ_r. split; [|by split].
    simpl. unfold mbind, M_bind. by rewrite Hbody.
Qed.

(** C7. [DumpFile::open(filename, true)] on a closed handle, over any
    backend whose members return.  A round of the [createPath] loop in
    which [createDirectory] fails ends with a warning in the log and
    nothing else.  The loop runs to its end whatever [createDirectory]
    answers: every round of it is run, one after the other.  The target
    node is then made and opened, and the call returns; its result is that
    of [open(node)] and nothing else: true exactly when the target node is
    no directory and [createWriteStream] on it gives a stream, which the
    handle then holds; false, with the handle closed, when it gives none
    or the node is a directory. *)
Theorem DumpFile_open_createPath_failure_not_fatal
    (f : DumpFile.t WS) (filename : string) (w : World FS) :
  backend_returns backend → filename ≠ "" → DumpFile._handle f = None →
  (∀ i node wa wb wc wd,
     (char_at filename i = "/"%char ∨ char_at filename i = backslash) →
     String.substring 0 i filename ≠ "" →
     makeFileNodePath (String.substring 0 i filename) wa = Ret (node, wb) →
     node_exists node wb = Ret (false, wc) →
     node_createDirectory node wc = Ret (false, wd) →
     DumpFile.createPath_body filename i wa
     = Ret (tt, emit (EvWarning "DumpFile: unable to create directories from path prefix") wd))
  ∧ ∃ w1 node w2 b f' w',
      for_ 0 (String.length filename) (DumpFile.createPath_body filename) w = Ret (tt, w1)
      ∧ (∀ i, (i < String.length filename)%nat →
           ∃ wa wb,
             for_ 0 i (DumpFile.createPath_body filename) w = Ret (tt, wa)
             ∧ DumpFile.createPath_body filename i wa = Ret (tt, wb)
             ∧ for_ (S i) (String.length filename - S i) (DumpFile.createPath_body filename) wb
               = Ret (tt, w1))
      ∧ FSNode_new filename w1 = Ret (node, w2)
      ∧ DumpFile.open f filename true w = Ret ((b, f'), w')
      ∧ DumpFile.open f filename true w = DumpFile.open_node f node w2
      ∧ b = DumpFile.isOpen f'
      ∧ (b = true ↔
         ∃ w3 s w4, FSNode_isDirectory node w2 = Ret (false, w3)
                    ∧ FSNode_createWriteStream node w3 = Ret (Some s, w4))
      ∧ (∀ w3 s w4, FSNode_isDirectory node w2 = Ret (false, w3) →
                    FSNode_createWriteStream node w3 = Ret (Some s, w4) →
                    b = true ∧ f' = DumpFile.mk (Some s) ∧ w' = w4)
      ∧ (∀ w3 w4, FSNode_isDirectory node w2 = Ret (false, w3) →
                  FSNode_createWriteStream node w3 = Ret (None, w4) →
                  b = false ∧ f' = DumpFile.mk None
                  ∧ w' = emit (EvDebug 2 ("File " +:+ FSNode_getName node +:+ " not found")) w4)
      ∧ (∀ w3, FSNode_isDirectory node w2 = Ret (true, w3) →
               b = false ∧ f' = f
               ∧ w' = emit (EvWarning "DumpFile::open: FSNode is a directory") w3).
Proof.
  intros Hb Hne Hclosed. split.
  { intros i node wa wb wc wd. apply createPath_body_failure. }
  destruct (for_returns (DumpFile.createPath_body filename) (String.length filename)
              (λ i, createPath_body_returns filename i Hb) 0%nat w) as ([] & w1 & Hloop).
  destruct (FSNode_new_returns _ Hb _ Hne w1) as (node & w2 & Hnew).
  assert (DumpFile.open f filename true w = DumpFile.open_node f node w2) as Hopen.
  { unfold DumpFile.open. unfold mbind, M_bind, assert_.
    rewrite (empty_false _ Hne), (DumpFile_isOpen_closed _ Hclosed). simpl.
    by rewrite Hloop, Hnew. }
  exists w1, node, w2. rewrite Hopen.
  assert (∀ i, (i < String.length filename)%nat →
            ∃ wa wb,
              for_ 0 i (DumpFile.createPath_body filename) w = Ret (tt, wa)
              ∧ DumpFile.createPath_body filename i wa = Ret (tt, wb)
              ∧ for_ (S i) (String.length filename - S i) (DumpFile.createPath_body filename) wb
                = Ret (tt, w1)) as Hrounds.
  { intros i Hi. apply (for_round _ i _ 0%nat w w1 Hloop Hi). }
  unfold DumpFile.open_node. unfold mbind at 1 2, M_bind at 1 2. unfold assert_.
  rewrite (DumpFile_isOpen_closed _ Hclosed). simpl.
  destruct (FSNode_isDirectory_returns _ Hb node w2) as (dir & w3 & Hdir). rewrite Hdir.
  destruct dir.
  - unfold_M. eexists false, f, _.
    split; [done|]. split; [done|]. split; [done|]. split; [done|]. split; [done|].
    split; [by rewrite DumpFile_isOpen_closed|].
    split; [split; [done|by intros (? & ? & ? & [=] & _)]|].
    split; [by intros ??? [=]|]. split; [by intros ?? [=]|].
    by intros ? [= <-].
  - unfold mbind, M_bind.
    destruct (FSNode_createWriteStream_returns _ Hb node w3) as ([s|] & w4 & Hcws);
      rewrite Hcws; simpl; unfold_M.
    + eexists true, (DumpFile.mk (Some s)), _.
      split; [done|]. split; [done|]. split; [done|]. split; [done|]. split; [done|].
      split; [done|].
      split; [split; [|done]; intros _; by exists w3, s, w4|].
      split; [|split; [|by intros ? [=]]].
      * intros ??? [= <-] Hc. rewrite Hcws in Hc. by injection Hc as <- <-.
      * intros ?? [= <-] Hc. rewrite Hcws in Hc. done.
    + eexists false, (DumpFile.mk None), _.
      split; [done|]. split; [done|]. split; [done|]. split; [done|]. split; [done|].
      split; [done|].
      split; [split; [done|]; intros (? & ? & ? & [= <-] & Hc); rewrite Hcws in Hc; done|].
      split; [|split; [|by intros ? [=]]].
      * intros ??? [= <-] Hc. rewrite Hcws in Hc. done.
      * intros ?? [= <-] Hc. rewrite Hcws in Hc. by injection Hc as <-.
Qed.

End HandleProperties.

(** ** The handles at work *)

Section YuzaBackendReturns.
Context {FS Stream : Type} {os : OS FS} {cs : CommonStr} {build : Build}.
Context {ios : YuzaIoStream FS Stream}.

Lemma YuzaBackend_returns :
  (∀ path writeMode, returns (makeFromPath (FS:=FS) (Stream:=Stream) path writeMode)) →
  backend_returns (YuzaBackend (FS:=FS) (Stream:=Stream)).
Proof.
  intros Hio. split; simpl.
  - apply YuzaFilesystemNode_new_returns.
  - intros node w. by eexists _, _.
  - intros node w. unfold mbind, M_bind.
    destruct (createDirectory_returns node w) as (r & w' & ->). by eexists _, _.
  - apply YuzaFilesystemNode_new_returns.
  - intros node w. by eexists _, _.
  - intros node. apply Hio.
Qed.

End YuzaBackendReturns.

Lemma mem_makeFromPath_returns path writeMode : returns (mem_makeFromPath path writeMode).
Proof.
  intros w. unfold mem_makeFromPath.
  destruct writeMode; [destruct (_ && _)|destruct (bool_decide _)]; by eexists _, _.
Qed.

(** C1 at work: [GAMEPC] is found under the name [GAMEPC.], after the
    lookup of the exact name. *)
Lemma File_lookup_exact_then_trailing_dot_witness :
  ∃ b f' evs,
    File.open_archive (FS:=gmap string Z) (File.mk None "") "GAMEPC" simon1_archive (mem_world [])
      = Ret ((b, f'), mkWorld ∅ evs)
    ∧ b = true
    ∧ File._handle f' = Some {| ms_path := "GAMEPC."; ms_pos := 0; ms_err := false |}
    ∧ lookup_names evs = ["GAMEPC"; "GAMEPC."].
Proof.
  destruct (File_lookup_exact_then_trailing_dot (FS:=gmap string Z)
              simon1_archive simon1_archive (File.mk None "") "GAMEPC" (mem_world []))
    as [_ Hopen].
  destruct Hopen as (b & f' & evs & Hret & Hb & Hhandle & Hnames); [done|done|].
  exists b, f', evs. split; [exact Hret|]. split; [|split; [exact Hhandle|exact Hnames]].
  apply Hb. right. by eexists.
Defined.

(** C9 at work: a write handle closed and opened again on the flat
    store. *)
Lemma handle_holds_at_most_one_stream_witness :
  DumpFile.open_node (backend:=FlatBackend)
    (fst (DumpFile.close (DumpFile.mk (Some {| ms_path := "old"; ms_pos := 7; ms_err := false |}))))
    "new" (mkWorld tt [])
  = Ret ((true, DumpFile.mk (Some {| ms_path := "new"; ms_pos := 0; ms_err := false |})),
         mkWorld tt []).
Proof.
  destruct (handle_holds_at_most_one_stream (backend:=FlatBackend)
              simon1_archive simon1_archive
              {| ms_path := "r"; ms_pos := 0; ms_err := false |}
              {| ms_path := "r"; ms_pos := 0; ms_err := false |}
              {| ms_path := "new"; ms_pos := 0; ms_err := false |}
              "" "" "" None "new" false (File.mk None "")
              (DumpFile.mk (Some {| ms_path := "old"; ms_pos := 7; ms_err := false |}))
              (mkWorld tt [])) as (_ & _ & _ & _ & _ & Hreopen).
  apply (Hreopen (mkWorld tt []) (mkWorld tt [])); reflexivity.
Defined.

(** C7 at work, on the flat store, where every [createDirectory] fails:
    the round for the prefix [a] ends with the warning, and the open
    returns true with the stream of the target. *)
Lemma DumpFile_open_createPath_failure_not_fatal_witness :
  DumpFile.createPath_body (backend:=FlatBackend) "a/b/c.txt" 1 (mkWorld tt [])
    = Ret (tt, emit (EvWarning "DumpFile: unable to create directories from path prefix")
                 (mkWorld tt []))
  ∧ ∃ w',
      DumpFile.open (backend:=FlatBackend) (DumpFile.mk None) "a/b/c.txt" true (mkWorld tt [])
      = Ret ((true, DumpFile.mk (Some {| ms_path := "a/b/c.txt"; ms_pos := 0; ms_err := false |})),
             w').
Proof.
  destruct (DumpFile_open_createPath_failure_not_fatal (backend:=FlatBackend)
              (DumpFile.mk None) "a/b/c.txt" (mkWorld tt [])) as [Hfail Hrun].
  - split; intros; intros ?; by eexists _, _.
  - discriminate.
  - reflexivity.
  - split.
    + apply (Hfail 1%nat "a" (mkWorld tt []) (mkWorld tt []) (mkWorld tt []) (mkWorld tt []));
        [by left|discriminate|reflexivity..].
    + destruct Hrun as (w1 & node & w2 & b & f' & w' & _ & _ & Hnew & Hopen & _ & _ & _
                        & Hstream & _).
      injection Hnew as <- <-.
      destruct (Hstream w1 {| ms_path := "a/b/c.txt"; ms_pos := 0; ms_err := false |} w1)
        as (-> & -> & _); [reflexivity..|].
      by exists w'.
Defined.

(** On the flat store every [createDirectory] fails: each failure is a
    warning in the log, and the file is opened all the same. *)
Example DumpFile_open_after_failed_createDirectory :
  DumpFile.open (backend:=FlatBackend) (DumpFile.mk None) "a/b/c.txt" true (mkWorld tt [])
  = Ret ((true, DumpFile.mk (Some {| ms_path := "a/b/c.txt"; ms_pos := 0; ms_err := false |})),
         mkWorld tt [EvWarning "DumpFile: unable to create directories from path prefix";
                     EvWarning "DumpFile: unable to create directories from path prefix"]).
Proof. by vm_compute. Qed.

(** * Further properties *)

(** ** Enumeration *)

Section EnumerationProperties.
Context {FS : Type} {os : OS FS} {build : Build}.

Lemma classify_keeps_name_and_path (entry : YuzaFilesystemNode) (dp : dirent) (w : World FS) :
  ∃ entry' w', classify entry dp w = Ret (entry', w')
               ∧ _displayName entry' = _displayName entry ∧ _path entry' = _path entry.
Proof.
  destruct (classify_returns entry dp w) as (entry' & w' & H & _ & ? & ?).
  by exists entry', w'.
Qed.

Lemma readdir_body_listed this mode hidden dp myList (w : World FS) :
  ∃ myList' w', readdir_body this mode hidden dp myList w = Ret (myList', w')
    ∧ (myList' = myList ∨ ∃ entry, myList' = myList ++ [entry] ∧ listed this mode dp entry).
Proof.
  unfold readdir_body.
  destruct (bool_decide (char_at (d_name dp) 0 = "."%char) && negb hidden) eqn:Eh.
  { unfold_M. eexists _, _. split; [reflexivity|by left]. }
  destruct (bool_decide (char_at (d_name dp) 0 = "."%char)
            && bool_decide (char_at (d_name dp) 1 = NUL)
            || bool_decide (char_at (d_name dp) 0 = "."%char)
               && bool_decide (char_at (d_name dp) 1 = "."%char)) eqn:Edots.
  { unfold_M. eexists _, _. split; [reflexivity|by left]. }
  unfold mbind, M_bind.
  edestruct classify_keeps_name_and_path as (entry' & w' & -> & Hname & Hpath).
  destruct (_isValid entry') eqn:Evalid; simpl.
  2:{ unfold_M. eexists _, _. split; [reflexivity|by left]. }
  destruct (bool_decide (mode = kListFilesOnly) && _isDirectory entry'
            || bool_decide (mode = kListDirectoriesOnly) && negb (_isDirectory entry'))
    eqn:Emode.
  { unfold_M. eexists _, _. split; [reflexivity|by left]. }
  unfold_M. eexists _, _. split; [reflexivity|]. right. eexists. split; [reflexivity|].
  assert (Hnodots : d_name dp ≠ "." ∧ d_name dp ≠ "..").
  { split; intros Heq; rewrite Heq in Edots; by vm_compute in Edots. }
  unfold listed, child_path, dir_with_separator. rewrite Hname, Hpath.
  split; [by destruct (decide _)|]. split; [by destruct (decide _)|].
  split; [done|]. split; [|done].
  apply orb_false_iff in Emode as [E1 E2].
  destruct mode; simpl in *; try done; by destruct (_isDirectory entry').
Qed.

Lemma readdir_loop_listed this mode hidden entries : ∀ myList (w : World FS),
  ∃ new kept w', readdir_loop this mode hidden entries myList w = Ret (myList ++ new, w')
    ∧ sublist kept entries
    ∧ Forall2 (λ dp entry, listed this mode dp entry) kept new.
Proof.
  induction entries as [|dp rest IH]; intros myList w; simpl.
  - exists [], [], w. rewrite app_nil_r. by unfold_M.
  - unfold mbind, M_bind.
    destruct (readdir_body_listed this mode hidden dp myList w) as (l1 & w1 & -> & Hl1).
    destruct (IH l1 w1) as (new & kept & w2 & -> & Hsub & Hall).
    destruct Hl1 as [->|(entry & -> & Hentry)].
    + exists new, kept, w2. split; [done|]. split; [by apply sublist_cons|done].
    + exists (entry :: new), (dp :: kept), w2. rewrite <- app_assoc.
      split; [done|]. split; [by apply sublist_skip|by constructor].
Qed.

(** X1. On a directory node, every node that [getChildren] appends is
    valid and passes the mode: no directory under [kListFilesOnly], only
    directories under [kListDirectoriesOnly]. *)
Theorem getChildren_appends_valid_nodes_of_the_mode this myList mode hidden (w : World FS) :
  _isDirectory this = true →
  ∃ b new w', getChildren this myList mode hidden w = Ret ((b, myList ++ new), w')
    ∧ Forall (λ entry, _isValid entry = true
                       ∧ mode_allows mode (_isDirectory entry) = true) new.
Proof.
  intros Hdir. unfold getChildren. unfold mbind at 1 2, M_bind at 1 2. unfold assert_.
  rewrite Hdir. unfold sys_opendir.
  destruct (os_opendir _ _) as [entries|]; simpl.
  - unfold mbind, M_bind.
    destruct (readdir_loop_listed this mode hidden entries myList
                (emit (EvOpendir (c_str (_path this))) w))
      as (new & kept & w1 & -> & _ & Hall).
    unfold_M. exists true, new. eexists. split; [done|].
    clear -Hall. induction Hall as [|dp entry ?? (_ & _ & ? & ? & _)]; by constructor.
  - unfold_M. exists false, []. eexists. rewrite app_nil_r. by split.
Qed.

(** X2. The nodes that [getChildren] appends stand for entries of the
    directory, in the order [readdir] gave them: each is named after its
    entry, its path is the path of the directory, a separator unless that
    path ends in one, and the name; [.] and [..] are never among them. *)
Theorem getChildren_appends_children_in_order this myList mode hidden (w : World FS) entries :
  _isDirectory this = true →
  os_opendir (w_fs w) (c_str (_path this)) = Some entries →
  ∃ new kept w', getChildren this myList mode hidden w = Ret ((true, myList ++ new), w')
    ∧ sublist kept entries
    ∧ _displayName <$> new = d_name <$> kept
    ∧ Forall (λ entry, _path entry = child_path (_path this) (_displayName entry)
                       ∧ _displayName entry ≠ "." ∧ _displayName entry ≠ "..") new.
Proof.
  intros Hdir Hopen. unfold getChildren. unfold mbind at 1 2, M_bind at 1 2. unfold assert_.
  rewrite Hdir. unfold sys_opendir. rewrite Hopen. simpl.
  unfold mbind, M_bind.
  destruct (readdir_loop_listed this mode hidden entries myList
              (emit (EvOpendir (c_str (_path this))) w))
    as (new & kept & w1 & -> & Hsub & Hall).
  unfold_M. exists new, kept. eexists. split; [done|]. split; [done|].
  clear -Hall. induction Hall as [|dp entry kept new (Hname & Hpath & _ & _ & Hd1 & Hd2) _ [IH1 IH2]].
  - by split.
  - split; [simpl; by f_equal|]. constructor; [|done]. by rewrite Hname.
Qed.

End EnumerationProperties.

Lemma getChildren_appends_valid_nodes_of_the_mode_witness :
  ∃ b new w',
    getChildren (build:=YuzaBuild) (mkNode "d" "d" true true) [] kListDirectoriesOnly true
      (mem_world [("d", 0); ("d/sub", 0); ("d/file", 1)]) = Ret ((b, [] ++ new), w')
    ∧ Forall (λ entry, _isValid entry = true
                       ∧ mode_allows kListDirectoriesOnly (_isDirectory entry) = true) new.
Proof.
  apply (getChildren_appends_valid_nodes_of_the_mode (build:=YuzaBuild)
           (mkNode "d" "d" true true) [] kListDirectoriesOnly true
           (mem_world [("d", 0); ("d/sub", 0); ("d/file", 1)])).
  reflexivity.
Defined.

Lemma getChildren_appends_children_in_order_witness :
  ∃ entries new kept w',
    os_opendir (w_fs (mem_world [("d", 0); ("d/sub", 0); ("d/file", 1)])) (c_str "d")
      = Some entries
    ∧ getChildren (build:=YuzaBuild) (mkNode "d" "d" true true) [] kListAll true
        (mem_world [("d", 0); ("d/sub", 0); ("d/file", 1)]) = Ret ((true, [] ++ new), w')
    ∧ sublist kept entries
    ∧ _displayName <$> new = d_name <$> kept
    ∧ Forall (λ entry, _path entry = child_path "d" (_displayName entry)
                       ∧ _displayName entry ≠ "." ∧ _displayName entry ≠ "..") new.
Proof.
  eexists.
  destruct (getChildren_appends_children_in_order (build:=YuzaBuild)
              (mkNode "d" "d" true true) [] kListAll true
              (mem_world [("d", 0); ("d/sub", 0); ("d/file", 1)]) _
              eq_refl ltac:(by vm_compute))
    as (new & kept & w' & Hret & Hsub & Hnames & Hall).
  exists new, kept, w'. split; [by vm_compute|]. split; [exact Hret|].
  split; [exact Hsub|]. split; [exact Hnames|exact Hall].
Defined.

(** ** A child and its parent *)

Lemma length_append (a b : string) :
  String.length (a +:+ b) = (String.length a + String.length b)%nat.
Proof. induction a as [|c a IH]; simpl; [done|by f_equal]. Qed.

Lemma substring_0_append (a b : string) : String.substring 0 (String.length a) (a +:+ b) = a.
Proof.
  induction a as [|c a IH]; simpl; [by destruct b|].
  change (String c (String.substring 0 (String.length a) (a +:+ b)) = String c a).
  by f_equal.
Qed.

Lemma char_at_append_l (a b : string) (i : nat) :
  (i < String.length a)%nat → char_at (a +:+ b) i = char_at a i.
Proof. intros Hi. unfold char_at. by rewrite <- String.append_correct1. Qed.

Lemma char_at_append_r (a b : string) (i : nat) :
  char_at (a +:+ b) (i + String.length a) = char_at b i.
Proof. unfold char_at. by rewrite <- String.append_correct2. Qed.

Lemma lastChar_slash_length (d : string) :
  lastChar d = "/"%char → ∃ k, String.length d = S k ∧ char_at d k = "/"%char.
Proof. unfold lastChar. destruct (String.length d) as [|k]; [done|]. by exists k. Qed.

Lemma lastChar_dir_with_separator (dir : string) :
  lastChar (dir_with_separator dir) = "/"%char.
Proof.
  unfold dir_with_separator. destruct (decide _) as [Hne|Heq]; [|by apply dec_stable in Heq].
  unfold lastChar. rewrite length_append. simpl.
  replace (String.length dir + 1)%nat with (S (String.length dir)) by lia.
  rewrite <- (Nat.add_0_l (String.length dir)). by rewrite char_at_append_r.
Qed.

(** The pointer loop of [getParent], on a directory path that ends in a
    separator followed by a name with no separator, stops right after
    the directory path. *)
Lemma strip_last_component_append (d n : string) :
  lastChar d = "/"%char → contains n "/" = false →
  strip_last_component (d +:+ n) (String.length (d +:+ n)) = String.length d.
Proof.
  intros (k & Hlen & Hk)%lastChar_slash_length Hn.
  destruct (strip_last_component_spec (d +:+ n) (String.length (d +:+ n)))
    as (Hle & Hstop & Hno).
  set (e := strip_last_component (d +:+ n) (String.length (d +:+ n))) in *.
  rewrite length_append in *.
  assert (¬ (e ≤ k)%nat) as Hgt.
  { intros He. apply (Hno k); [lia|]. rewrite char_at_append_l by lia. done. }
  destruct Hstop as [He|(e' & He & Hch)]; [lia|].
  destruct (decide (e' < String.length d)%nat) as [|Hge]; [lia|].
  exfalso. replace e' with ((e' - String.length d) + String.length d)%nat in Hch by lia.
  rewrite char_at_append_r in Hch.
  apply char_at_get in Hch; [|exact slash_not_NUL].
  assert (contains n "/" = true) by (apply contains_get; eauto). congruence.
Qed.

Section ChildAndParent.
Context {FS : Type} {AbstractFSNode : Type} (makeNode : string → M FS AbstractFSNode).

(** X3. On a directory node with a path, [getChild], for a name with no
    separator, builds the child from the path of the directory, a
    separator unless that path ends in one, and the name; and [getParent]
    of a node with that path builds the parent from the path of the
    directory followed by its separator: the two cut at the same place. *)
Theorem getParent_of_getChild (this child : YuzaFilesystemNode) (n : string) (w w1 : World FS) :
  _path this ≠ "" → _isDirectory this = true → contains n "/" = false → n ≠ "" →
  getChild makeNode this n w = makeNode (child_path (_path this) n) w
  ∧ (_path child = child_path (_path this) n →
     getParent makeNode child w1
     = (parent ← makeNode (dir_with_separator (_path this)); mret (Some parent)) w1).
Proof.
  intros Hpath Hdir Hn Hne. split.
  - unfold getChild, child_path, dir_with_separator. unfold_M.
    rewrite (empty_false _ Hpath), Hdir, Hn. simpl. by destruct (decide _).
  - intros Hchild. unfold getParent. rewrite Hchild. unfold child_path.
    pose proof (lastChar_dir_with_separator (_path this)) as Hlast.
    rewrite strip_last_component_append by done.
    rewrite substring_0_append.
    destruct (lastChar_slash_length _ Hlast) as (k & Hlen & _).
    destruct (decide (dir_with_separator (_path this) +:+ n = "/")) as [Heq|_].
    + apply (f_equal String.length) in Heq.
      rewrite length_append, Hlen in Heq. simpl in Heq.
      destruct n; [done|]. simpl in Heq. lia.
    + destruct (decide (String.length (dir_with_separator (_path this)) = 0%nat)); [lia|done].
Qed.

End ChildAndParent.

Lemma getParent_of_getChild_witness :
  getChild (FS:=gmap string Z) (λ path, mret path) (mkNode "a" "/a" true true) "b" (mem_world [])
    = Ret ("/a/b", mem_world [])
  ∧ getParent (FS:=gmap string Z) (λ path, mret path) (mkNode "b" "/a/b" false true) (mem_world [])
    = Ret (Some "/a/", mem_world []).
Proof.
  destruct (getParent_of_getChild (FS:=gmap string Z) (λ path, mret path)
              (mkNode "a" "/a" true true) (mkNode "b" "/a/b" false true) "b"
              (mem_world []) (mem_world [])) as [Hchild Hparent]; [done..|].
  split; [exact Hchild|]. by apply Hparent.
Defined.

(** ** The segments of a chain *)

Lemma c_str_no_NUL (l : list ascii) :
  NUL ∉ l → Posix.buf_c_str l = string_of_list_ascii l.
Proof.
  unfold Posix.buf_c_str. induction l as [|c l IH]; simpl; [done|].
  intros Hl. apply not_elem_of_cons in Hl as [Hc Hl].
  rewrite decide_False by done. f_equal. by apply IH.
Qed.

Lemma c_str_split_at (l : list ascii) (i : nat) :
  NUL ∉ l → (i < length l)%nat →
  Posix.buf_c_str (<[i := NUL]> l) = string_of_list_ascii (take i l).
Proof.
  unfold Posix.buf_c_str. revert i. induction l as [|c l IH]; intros i Hl Hi; simpl in *; [lia|].
  apply not_elem_of_cons in Hl as [Hc Hl].
  destruct i as [|i]; simpl; [done|].
  rewrite decide_False by done. f_equal. apply IH; [done|lia].
Qed.

Lemma visited_at_end (path : list ascii) : visited 0 path = [].
Proof.
  rewrite visited_unfold. cbv beta iota zeta. rewrite Nat.sub_0_r.
  rewrite (bool_decide_eq_false_2 ((length path + 1)%nat = length path)) by lia.
  unfold Posix.deref. by rewrite lookup_ge_None_2 by lia.
Qed.

(** The pointer loop hands to [mkdir] the segments of the chain: the
    buffer is as before after each round but the last. *)
Lemma visited_chain_segments (rem : nat) : ∀ path : list ascii,
  NUL ∉ path → (rem ≤ length path)%nat →
  visited rem path = chain_segments_from (length path - rem) path.
Proof.
  induction rem as [|rem IH]; intros path Hnul Hrem.
  - rewrite visited_at_end. unfold chain_segments_from.
    rewrite Nat.sub_0_r. replace (length path - 1 - length path)%nat with 0%nat by lia.
    simpl. by rewrite decide_False by lia.
  - rewrite visited_unfold. cbv beta iota zeta.
    set (cur := (length path - S rem)%nat).
    assert (Hcur : (cur < length path)%nat) by (unfold cur; lia).
    unfold chain_segments_from. rewrite (decide_True (P:=(cur < length path)%nat)) by done.
    destruct (decide ((cur + 1)%nat = length path)) as [Hlast|Hnotlast].
    + rewrite (bool_decide_eq_true_2 _ Hlast). simpl.
      assert (rem = 0%nat) as -> by (unfold cur in Hlast; lia).
      rewrite visited_at_end, c_str_no_NUL by done.
      by replace (length path - 1 - cur)%nat with 0%nat by lia.
    + rewrite (bool_decide_eq_false_2 _ Hnotlast). simpl.
      replace (length path - 1 - cur)%nat with (S (length path - 1 - S cur)) by lia.
      simpl seq. rewrite filter_cons.
      assert (Hnext : (length path - rem)%nat = S cur) by (unfold cur; lia).
      destruct (decide (Posix.deref path cur = "/"%char)) as [Hsep|Hnosep].
      * rewrite (bool_decide_eq_true_2 _ Hsep). simpl.
        assert (path !! cur = Some "/"%char) as Hlook.
        { unfold Posix.deref in Hsep. destruct (path !! cur) eqn:E; simpl in Hsep; [by subst|].
          apply lookup_ge_None in E. lia. }
        rewrite decide_True by done. simpl.
        rewrite c_str_split_at by done. f_equal.
        rewrite list_insert_insert_eq, list_insert_id by done.
        rewrite IH by (done || lia). unfold chain_segments_from. rewrite Hnext.
        by rewrite (decide_True (P:=(S cur < length path)%nat)) by lia.
      * rewrite (bool_decide_eq_false_2 _ Hnosep). simpl.
        rewrite decide_False.
        2:{ intros Hlook. apply Hnosep. unfold Posix.deref. by rewrite Hlook. }
        rewrite IH by (done || lia). unfold chain_segments_from. rewrite Hnext.
        by rewrite (decide_True (P:=(S cur < length path)%nat)) by lia.
Qed.

Lemma visited_paths_chain_segments `{CommonStr} (dir : string) :
  contains (normalizePath dir "/") NUL = false →
  visited_paths dir None = chain_segments (normalizePath dir "/").
Proof.
  intros Hnul. unfold visited_paths, chain_segments.
  set (l := list_ascii_of_string (normalizePath dir "/")).
  assert (NUL ∉ l) as Hl.
  { unfold l. revert Hnul. generalize (normalizePath dir "/"). intros s.
    induction s as [|c s IH]; simpl; [intros _; apply not_elem_of_nil|].
    intros [Hc Hs]%orb_false_iff. apply bool_decide_eq_false in Hc.
    apply not_elem_of_cons. split; [congruence|by apply IH]. }
  rewrite visited_chain_segments; [|done|lia].
  f_equal. destruct (decide _) as [Hsl|]; [|lia].
  assert (1 ≤ length l)%nat; [|lia].
  unfold Posix.deref in Hsl. destruct l; simpl in *; [done|lia].
Qed.

Section ChainTrace.
Context {FS : Type} {os : OS FS} {cs : CommonStr}.

Lemma mkdir_paths_app (t1 t2 : list event) :
  mkdir_paths (t1 ++ t2) = mkdir_paths t1 ++ mkdir_paths t2.
Proof. unfold mkdir_paths. apply omap_app. Qed.

Lemma mkdir_or_exists_trace path (w : World FS) :
  ∃ b w', Posix.mkdir_or_exists path w = Ret (b, w')
          ∧ mkdir_paths (w_trace w') = mkdir_paths (w_trace w) ++ [Posix.buf_c_str path].
Proof.
  unfold Posix.mkdir_or_exists, sys_mkdir. unfold_M.
  destruct (os_mkdir _ _ _) as [fs1 [|e]]; simpl.
  - eexists _, _. split; [done|]. simpl. by rewrite mkdir_paths_app.
  - destruct (decide (e = EEXIST)); simpl.
    + destruct (os_stat _ _) as [m|]; simpl; [destruct (decide (m ≠ 0))|];
        (eexists _, _; split; [done|]; simpl;
         rewrite <- app_assoc, mkdir_paths_app; simpl; done).
    + eexists _, _. split; [done|]. simpl. by rewrite mkdir_paths_app.
Qed.

(** The loop hands the segments to [mkdir] in order and stops at the
    first that fails. *)
Lemma assure_loop_trace rem : ∀ path (w : World FS),
  ∃ b w' made, Posix.assure_loop rem path w = Ret (b, w')
    ∧ mkdir_paths (w_trace w') = mkdir_paths (w_trace w) ++ made
    ∧ made `prefix_of` visited rem path
    ∧ (b = true → made = visited rem path).
Proof.
  induction rem as [|rem IH]; intros path w;
    rewrite assure_loop_unfold, visited_unfold; cbv beta iota zeta;
    destruct (_ && _).
  - exists true, w, []. rewrite app_nil_r. by unfold_M.
  - unfold mbind, M_bind.
    destruct (mkdir_or_exists_trace
                (if negb (bool_decide ((length path - 0 + 1)%nat = length path))
                 then <[(length path - 0)%nat:=NUL]> path else path) w)
      as ([] & w1 & -> & Htr).
    + exists true, w1. eexists. split; [by unfold_M|]. split; [exact Htr|]. by split.
    + exists false, w1. eexists. split; [by unfold_M|]. split; [exact Htr|]. by split.
  - apply IH.
  - unfold mbind, M_bind.
    destruct (mkdir_or_exists_trace
                (if negb (bool_decide ((length path - S rem + 1)%nat = length path))
                 then <[(length path - S rem)%nat:=NUL]> path else path) w)
      as ([] & w1 & -> & Htr).
    + edestruct IH as (b & w2 & made & -> & Htr2 & Hpre & Hall).
      exists b, w2, (Posix.buf_c_str
                (if negb (bool_decide ((length path - S rem + 1)%nat = length path))
                 then <[(length path - S rem)%nat:=NUL]> path else path) :: made).
      split; [done|]. split; [by rewrite Htr2, Htr, <- app_assoc|].
      split; [by apply prefix_cons|]. intros Hb. by rewrite Hall.
    + exists false, w1. eexists. split; [by unfold_M|]. split; [exact Htr|].
      split; [|done]. apply prefix_cons, prefix_nil.
Qed.

Lemma c_str_idemp (s : string) : c_str (c_str s) = c_str s.
Proof.
  induction s as [|c s IH]; simpl; [done|].
  destruct (decide (c = NUL)) as [|Hc]; simpl; [done|].
  rewrite decide_False by done. by rewrite IH.
Qed.

Lemma buf_c_str_idemp (path : list ascii) :
  Posix.buf_c_str (list_ascii_of_string (Posix.buf_c_str path)) = Posix.buf_c_str path.
Proof.
  unfold Posix.buf_c_str. by rewrite string_of_list_ascii_of_string, c_str_idemp.
Qed.

(** The call on a buffer is the call on the segment that the buffer
    holds up to its first NUL. *)
Lemma mkdir_or_exists_segment (path : list ascii) :
  Posix.mkdir_or_exists path = make_segment (FS:=FS) (Posix.buf_c_str path).
Proof. unfold make_segment, Posix.mkdir_or_exists. by rewrite buf_c_str_idemp. Qed.

(** The loop is the chain of its segments. *)
Lemma assure_loop_make_chain rem : ∀ path : list ascii,
  Posix.assure_loop rem path = make_chain (FS:=FS) (visited rem path).
Proof.
  induction rem as [|rem IH]; intros path;
    rewrite assure_loop_unfold, visited_unfold; cbv beta iota zeta;
    destruct (_ && _); try done.
  - simpl make_chain. by rewrite mkdir_or_exists_segment.
  - simpl make_chain. by rewrite mkdir_or_exists_segment, IH.
Qed.

Lemma visited_c_str rem : ∀ path : list ascii, Forall (λ p, c_str p = p) (visited rem path).
Proof.
  induction rem as [|rem IH]; intros path;
    rewrite visited_unfold; cbv beta iota zeta; destruct (_ && _); try done.
  - constructor; [apply c_str_idemp|constructor].
  - constructor; [apply c_str_idemp|apply IH].
Qed.

(** A chain hands its segments to [mkdir] in order; when it fails, the
    segments before the last one handed over were made or found, and the
    last one is the one that failed. *)
Lemma make_chain_trace (segments : list string) :
  Forall (λ p, c_str p = p) segments → ∀ w : World FS,
  ∃ b w' made,
    make_chain segments w = Ret (b, w')
    ∧ mkdir_paths (w_trace w') = mkdir_paths (w_trace w) ++ made
    ∧ made `prefix_of` segments
    ∧ (b = true → made = segments)
    ∧ (b = false → ∃ before failed wa,
         made = before ++ [failed]
         ∧ make_chain before w = Ret (true, wa)
         ∧ make_segment failed wa = Ret (false, w')).
Proof.
  induction 1 as [|p segments Hp _ IH]; intros w.
  { exists true, w, []. rewrite app_nil_r. by unfold_M. }
  simpl make_chain. unfold mbind at 1, M_bind at 1. unfold make_segment at 1.
  destruct (mkdir_or_exists_trace (list_ascii_of_string p) w) as (ok & w1 & Hrun & Htr).
  unfold Posix.buf_c_str in Htr. rewrite string_of_list_ascii_of_string, Hp in Htr.
  rewrite Hrun. destruct ok.
  - destruct (IH w1) as (b & w2 & made & -> & Htr2 & Hpre & Hall & Hfail).
    exists b, w2, (p :: made). split; [done|].
    split; [by rewrite Htr2, Htr, <- app_assoc|]. split; [by apply prefix_cons|].
    split; [intros Hb; by rewrite Hall|].
    intros Hb. destruct (Hfail Hb) as (before & failed & wa & -> & Hbefore & Hfailed).
    exists (p :: before), failed, wa. split; [done|]. split; [|done].
    simpl make_chain. unfold mbind, M_bind. unfold make_segment at 1. by rewrite Hrun.
  - exists false, w1, [p]. split; [by unfold_M|]. split; [done|].
    split; [apply prefix_cons, prefix_nil|]. split; [done|].
    intros _. exists [], p, w. split; [done|]. split; [by unfold_M|done].
Qed.

(** X4. [assureDirectoryExists] without a prefix, on a path whose normal
    form holds no NUL, is the chain of the segments of the path (every
    proper prefix of the normal form that ends before a separator past
    offset 0, then the whole of it): [mkdir] and the checks below it on
    each segment in order, up to the first that fails.  So the call
    returns; the paths it hands to [mkdir] are the first segments of the
    chain, in order; they are all of them when the result is true; and
    when the result is false, the last one handed over is the segment
    that failed, every segment before it was made or found, and nothing
    is asked for after it. *)
Theorem assureDirectoryExists_makes_the_chain_in_order (dir : string) (w : World FS) :
  contains (normalizePath dir "/") NUL = false →
  Posix.assureDirectoryExists dir None w
  = make_chain (chain_segments (normalizePath dir "/")) w
  ∧ ∃ b w' made,
      Posix.assureDirectoryExists dir None w = Ret (b, w')
      ∧ mkdir_paths (w_trace w') = mkdir_paths (w_trace w) ++ made
      ∧ made `prefix_of` chain_segments (normalizePath dir "/")
      ∧ (b = true → made = chain_segments (normalizePath dir "/"))
      ∧ (b = false → ∃ before failed wa,
           made = before ++ [failed]
           ∧ make_chain before w = Ret (true, wa)
           ∧ make_segment failed wa = Ret (false, w')).
Proof.
  intros Hnul.
  assert (Posix.assureDirectoryExists dir None w
          = make_chain (chain_segments (normalizePath dir "/")) w) as Hchain.
  { rewrite <- (visited_paths_chain_segments dir Hnul).
    unfold Posix.assureDirectoryExists, visited_paths. unfold_M. simpl.
    by rewrite assure_loop_make_chain. }
  split; [exact Hchain|]. rewrite Hchain.
  apply make_chain_trace.
  rewrite <- (visited_paths_chain_segments dir Hnul). apply visited_c_str.
Qed.

(** What is assumed of the host for X5: [mkdir] on a path that [stat]
    finds fails with [EEXIST] and changes nothing, and [mkdir] does not
    change what [stat] says of the paths it found before. *)
Hypothesis mkdir_existing : ∀ fs path mode st_mode,
  os_stat fs path = Some st_mode → os_mkdir fs path mode = (fs, SysErr EEXIST).
Hypothesis mkdir_keeps : ∀ fs path mode fs' r q st_mode,
  os_mkdir fs path mode = (fs', r) → os_stat fs q = Some st_mode →
  os_stat fs' q = Some st_mode.

Lemma mkdir_or_exists_kept path (w : World FS) :
  ∃ b w', Posix.mkdir_or_exists path w = Ret (b, w') ∧ stat_kept w w'.
Proof.
  unfold Posix.mkdir_or_exists, sys_mkdir. unfold_M.
  destruct (os_mkdir _ _ _) as [fs1 r] eqn:Emk.
  assert (∀ t, stat_kept w (mkWorld fs1 t)) as Hkept.
  { intros t q m Hq. simpl. by eapply mkdir_keeps. }
  destruct r as [|e]; simpl; [by eexists _, _|].
  destruct (decide (e = EEXIST)); simpl; [|by eexists _, _].
  destruct (os_stat _ _) as [m|]; simpl; [destruct (decide (m ≠ 0))|]; by eexists _, _.
Qed.

Lemma mkdir_or_exists_not_a_directory path (w : World FS) st_mode :
  os_stat (w_fs w) (Posix.buf_c_str path) = Some st_mode → st_mode ≠ 0 →
  ∃ w', Posix.mkdir_or_exists path w = Ret (false, w').
Proof.
  intros Hst Hm. unfold Posix.mkdir_or_exists, sys_mkdir. unfold_M.
  rewrite (mkdir_existing _ _ 0 _ Hst). simpl. rewrite Hst. simpl.
  rewrite decide_True by done. by eexists.
Qed.

Lemma assure_loop_blocked rem : ∀ path (w : World FS) p st_mode,
  p ∈ visited rem path → os_stat (w_fs w) p = Some st_mode → st_mode ≠ 0 →
  ∃ w', Posix.assure_loop rem path w = Ret (false, w').
Proof.
  induction rem as [|rem IH]; intros path w p m;
    rewrite assure_loop_unfold, visited_unfold; cbv beta iota zeta;
    destruct (_ && _).
  - by intros ?%elem_of_nil.
  - intros [->|Hin%elem_of_nil]%elem_of_cons Hst Hm; [|done].
    unfold mbind, M_bind.
    destruct (mkdir_or_exists_not_a_directory _ w m Hst Hm) as (w1 & ->). by exists w1.
  - apply IH.
  - intros [->|Hin]%elem_of_cons Hst Hm; unfold mbind, M_bind.
    + destruct (mkdir_or_exists_not_a_directory _ w m Hst Hm) as (w1 & ->). by exists w1.
    + destruct (mkdir_or_exists_kept
                  (if negb (bool_decide ((length path - S rem + 1)%nat = length path))
                   then <[(length path - S rem)%nat:=NUL]> path else path) w)
        as ([] & w1 & -> & Hkept); [|by exists w1].
      eapply IH; [exact Hin|by apply Hkept|done].
Qed.

(** X5. Where a segment of the chain is there and is no directory
    ([stat] finds it with an [st_mode] other than 0), on a host whose
    [mkdir] behaves as assumed, [assureDirectoryExists] returns false. *)
Theorem assureDirectoryExists_blocked_by_a_file dir prefix (w : World FS) p st_mode :
  p ∈ visited_paths dir prefix → os_stat (w_fs w) p = Some st_mode → st_mode ≠ 0 →
  ∃ w', Posix.assureDirectoryExists dir prefix w = Ret (false, w').
Proof.
  intros Hin Hst Hm. unfold Posix.assureDirectoryExists, visited_paths in *.
  destruct prefix as [pre|]; unfold_M; simpl.
  - destruct (os_stat (w_fs w) pre) as [m|]; simpl; [|by eexists].
    destruct (S_ISDIR m); simpl; [|by eexists].
    by eapply (assure_loop_blocked _ _ (mkWorld (w_fs w) (w_trace w ++ [EvStat pre]))).
  - by eapply assure_loop_blocked.
Qed.

End ChainTrace.

Lemma assureDirectoryExists_makes_the_chain_in_order_witness :
  Posix.assureDirectoryExists (cs:=MemStr) "/a/b/c" None (mem_world [("/a", 0); ("/a/b", 1)])
  = make_chain ["/a"; "/a/b"; "/a/b/c"] (mem_world [("/a", 0); ("/a/b", 1)])
  ∧ ∃ b w' made,
      Posix.assureDirectoryExists (cs:=MemStr) "/a/b/c" None
        (mem_world [("/a", 0); ("/a/b", 1)]) = Ret (b, w')
      ∧ mkdir_paths (w_trace w')
        = mkdir_paths (w_trace (mem_world [("/a", 0); ("/a/b", 1)])) ++ made
      ∧ made `prefix_of` ["/a"; "/a/b"; "/a/b/c"]
      ∧ (b = true → made = ["/a"; "/a/b"; "/a/b/c"])
      ∧ (b = false → ∃ before failed wa,
           made = before ++ [failed]
           ∧ make_chain before (mem_world [("/a", 0); ("/a/b", 1)]) = Ret (true, wa)
           ∧ make_segment failed wa = Ret (false, w')).
Proof.
  apply (assureDirectoryExists_makes_the_chain_in_order (cs:=MemStr) "/a/b/c"
           (mem_world [("/a", 0); ("/a/b", 1)])).
  reflexivity.
Defined.

Lemma assureDirectoryExists_blocked_by_a_file_witness :
  ∃ w', Posix.assureDirectoryExists (cs:=MemStr) "a/b/c" None (mem_world [("a", 0); ("a/b", 1)])
        = Ret (false, w').
Proof.
  apply (assureDirectoryExists_blocked_by_a_file (cs:=MemStr) mem_mkdir_existing mem_mkdir_keeps
           "a/b/c" None (mem_world [("a", 0); ("a/b", 1)]) "a/b" 1).
  - vm_compute. apply elem_of_cons. right. apply elem_of_cons. by left.
  - reflexivity.
  - discriminate.
Defined.

(** ** Opening the handles *)

Section OpeningProperties.
Context {FS AbstractFSNode FSNode RS WS : Type}.
Context {srs : SeekableReadStream RS} {sws : WriteStream WS}.
Context {backend : FSBackend FS AbstractFSNode FSNode RS WS}.

(** X6. [File::open(node)] on a closed handle, when the members of the
    node return: the call returns, and the result says whether the handle
    is open afterwards.  The open succeeds exactly when the node exists,
    is no directory and gives a read stream; the handle then holds that
    stream under the path of the node, and nothing is logged.  In every
    other case the result is false and the handle is left as it was: for
    a node that does not exist, and for a directory, the call ends with
    its warning right after the check, and no stream is asked for; when
    the node gives no stream, the call ends with the line of
    [open(stream, name)] in the debug log. *)
Theorem File_open_node_result (f : File.t RS) (node : FSNode) (w : World FS) :
  returns (FSNode_exists node) → returns (FSNode_isDirectory node) →
  returns (FSNode_createReadStream node) → File._handle f = None →
  ∃ b f' w',
    File.open_node f node w = Ret ((b, f'), w')
    ∧ b = File.isOpen f'
    ∧ (b = false → f' = f)
    ∧ (b = true ↔
       ∃ w1 w2 s w3, FSNode_exists node w = Ret (true, w1)
                     ∧ FSNode_isDirectory node w1 = Ret (false, w2)
                     ∧ FSNode_createReadStream node w2 = Ret (Some s, w3))
    ∧ (∀ w1 w2 s w3, FSNode_exists node w = Ret (true, w1) →
                     FSNode_isDirectory node w1 = Ret (false, w2) →
                     FSNode_createReadStream node w2 = Ret (Some s, w3) →
                     b = true ∧ f' = File.mk (Some s) (FSNode_getPath node) ∧ w' = w3)
    ∧ (∀ w1 w2 w3, FSNode_exists node w = Ret (true, w1) →
                   FSNode_isDirectory node w1 = Ret (false, w2) →
                   FSNode_createReadStream node w2 = Ret (None, w3) →
                   b = false
                   ∧ w' = emit (EvDebug 2 ("File::open: opening '" +:+ FSNode_getPath node
                                           +:+ "' failed")) w3)
    ∧ (∀ w1, FSNode_exists node w = Ret (false, w1) →
             b = false
             ∧ w' = emit (EvWarning ("File::open: '" +:+ FSNode_getPath node
                                     +:+ "' does not exist")) w1)
    ∧ (∀ w1 w2, FSNode_exists node w = Ret (true, w1) →
                FSNode_isDirectory node w1 = Ret (true, w2) →
                b = false
                ∧ w' = emit (EvWarning ("File::open: '" +:+ FSNode_getPath node
                                        +:+ "' is a directory")) w2).
Proof.
  intros Hex Hdir Hrs Hclosed.
  pose proof (File_isOpen_closed f Hclosed) as Hnotopen.
  unfold File.open_node. unfold mbind at 1 2, M_bind at 1 2. unfold assert_.
  rewrite Hnotopen. simpl.
  destruct (Hex w) as (e & w1 & He). rewrite He. destruct e; simpl.
  - unfold mbind at 1, M_bind at 1.
    destruct (Hdir w1) as (d & w2 & Hd). rewrite Hd. destruct d; simpl.
    + unfold_M. exists false, f. eexists. split; [done|]. split; [done|]. split; [done|].
      split; [split; [done|]; intros (? & ? & ? & ? & [= <-] & Hd' & _);
              rewrite Hd in Hd'; done|].
      split; [intros ???? [= <-] Hd'; rewrite Hd in Hd'; done|].
      split; [intros ??? [= <-] Hd'; rewrite Hd in Hd'; done|].
      split; [by intros ? [=]|].
      intros ?? [= <-] Hd'. rewrite Hd in Hd'. by injection Hd' as <-.
    + unfold mbind at 1, M_bind at 1.
      destruct (Hrs w2) as (stream & w3 & Hs). rewrite Hs.
      unfold File.open_stream. unfold mbind at 1, M_bind at 1. unfold assert_.
      rewrite Hnotopen. simpl. destruct stream as [s|]; unfold_M.
      * exists true, (File.mk (Some s) (FSNode_getPath node)), w3.
        split; [done|]. split; [done|]. split; [done|].
        split; [split; [|done]; intros _; by exists w1, w2, s, w3|].
        split; [intros ???? [= <-] Hd'; rewrite Hd in Hd'; injection Hd' as <-;
                intros Hs'; rewrite Hs in Hs'; by injection Hs' as <- <-|].
        split; [intros ??? [= <-] Hd'; rewrite Hd in Hd'; injection Hd' as <-;
                intros Hs'; rewrite Hs in Hs'; done|].
        split; [by intros ? [=]|].
        intros ?? [= <-] Hd'. rewrite Hd in Hd'. done.
      * exists false, f. eexists. split; [done|]. split; [done|]. split; [done|].
        split; [split; [done|]; intros (? & ? & ? & ? & [= <-] & Hd' & Hs');
                rewrite Hd in Hd'; injection Hd' as <-; rewrite Hs in Hs'; done|].
        split; [intros ???? [= <-] Hd'; rewrite Hd in Hd'; injection Hd' as <-;
                intros Hs'; rewrite Hs in Hs'; done|].
        split; [intros ??? [= <-] Hd'; rewrite Hd in Hd'; injection Hd' as <-;
                intros Hs'; rewrite Hs in Hs'; by injection Hs' as <-|].
        split; [by intros ? [=]|].
        intros ?? [= <-] Hd'. rewrite Hd in Hd'. done.
  - unfold_M. exists false, f. eexists. split; [done|]. split; [done|]. split; [done|].
    split; [split; [done|]; by intros (? & ? & ? & ? & [=] & _)|].
    split; [by intros ???? [=]|]. split; [by intros ??? [=]|].
    split; [by intros ? [= <-]|]. by intros ?? [=].
Qed.

(** X7. For an archive whose [hasFile] and [createReadStreamForMember]
    agree on every name, [File::exists] answers what [File::open] on a
    closed handle then returns for the same name. *)
Theorem File_exists_agrees_with_open
    (SearchMan : Archive RS) (f : File.t RS) (filename : string) (w w1 : World FS) :
  (∀ name, hasFile SearchMan name
           = bool_decide (is_Some (createReadStreamForMember SearchMan name))) →
  filename ≠ "" → File._handle f = None →
  ∃ b f' w' w1',
    File.exists_ SearchMan filename w = Ret (b, w')
    ∧ File.open SearchMan f filename w1 = Ret ((b, f'), w1')
    ∧ b = File.isOpen f'.
Proof.
  intros Hagree Hne Hclosed.
  pose proof (File_isOpen_closed f Hclosed) as Hnotopen.
  unfold File.exists_, File.open, File.open_archive, File.open_stream. unfold_M.
  rewrite (empty_false _ Hne), Hnotopen, !Hagree. simpl.
  destruct (createReadStreamForMember SearchMan filename) as [s|]; simpl.
  - by eexists true, _, _, _.
  - destruct (createReadStreamForMember SearchMan (filename +:+ ".")) as [s|]; simpl.
    + by eexists true, _, _, _.
    + by eexists false, _, _, _.
Qed.

Lemma for_skips (body : nat → M FS unit) count :
  ∀ i, (∀ j, body j = mret tt) → for_ i count body = mret tt.
Proof.
  induction count as [|count IH]; intros i Hbody; simpl; [done|].
  by rewrite Hbody, IH.
Qed.

Lemma no_separator_at (s : string) (c : ascii) (i : nat) :
  c ≠ NUL → contains s c = false → char_at s i ≠ c.
Proof.
  intros Hc Hs Hi. apply char_at_get in Hi; [|done].
  assert (contains s c = true) by (apply contains_get; eauto). congruence.
Qed.

(** X8. For a filename with no slash and no backslash in it, the
    [createPath] loop does nothing: [DumpFile::open(filename, true)] is
    [DumpFile::open(filename, false)], with no node made and no directory
    asked for. *)
Theorem DumpFile_open_createPath_without_separator
    (f : DumpFile.t WS) (filename : string) :
  contains filename "/" = false → contains filename backslash = false →
  DumpFile.open f filename true = DumpFile.open f filename false.
Proof.
  intros Hslash Hback. unfold DumpFile.open.
  rewrite for_skips; [done|].
  intros j. unfold DumpFile.createPath_body.
  rewrite (bool_decide_eq_false_2 (char_at filename j = "/"%char))
    by (by apply no_separator_at).
  by rewrite (bool_decide_eq_false_2 (char_at filename j = backslash))
    by (by apply no_separator_at).
Qed.

End OpeningProperties.

Lemma File_open_node_result_witness :
  File.open_node (backend:=FlatBackend) (File.mk None "") "GAMEPC" (mkWorld tt [])
  = Ret ((true, File.mk (Some {| ms_path := "GAMEPC"; ms_pos := 0; ms_err := false |}) "GAMEPC"),
         mkWorld tt []).
Proof.
  destruct (File_open_node_result (backend:=FlatBackend) (File.mk None "") "GAMEPC"
              (mkWorld tt []))
    as (b & f' & w' & Hret & _ & _ & _ & Hopen & _);
    [intros w; by eexists _, _ ..|reflexivity|].
  destruct (Hopen (mkWorld tt []) (mkWorld tt [])
              {| ms_path := "GAMEPC"; ms_pos := 0; ms_err := false |} (mkWorld tt []))
    as (-> & -> & ->); [reflexivity..|].
  exact Hret.
Defined.

Lemma File_exists_agrees_with_open_witness :
  ∃ b f' w' w1',
    File.exists_ (FS:=gmap string Z) simon1_archive "GAMEPC" (mem_world []) = Ret (b, w')
    ∧ File.open simon1_archive (File.mk None "") "GAMEPC" (mem_world []) = Ret ((b, f'), w1')
    ∧ b = File.isOpen f'.
Proof.
  apply (File_exists_agrees_with_open (FS:=gmap string Z) simon1_archive (File.mk None "")
           "GAMEPC" (mem_world []) (mem_world [])); [|done|done].
  intros name. simpl. destruct (decide (name = "GAMEPC.")) as [->|Hother].
  - reflexivity.
  - rewrite (bool_decide_eq_false_2 _ Hother). symmetry. apply bool_decide_eq_false_2.
    by intros [? [=]].
Defined.

Lemma DumpFile_open_createPath_without_separator_witness :
  DumpFile.open (backend:=MemBackend) (DumpFile.mk None) "c.txt" true
  = DumpFile.open (backend:=MemBackend) (DumpFile.mk None) "c.txt" false.
Proof.
  apply (DumpFile_open_createPath_without_separator (backend:=MemBackend)
           (DumpFile.mk None) "c.txt"); reflexivity.
Defined.

(** ** The Lua file proxy *)

Lemma substring_length_le (s : string) (n m : nat) :
  (n + m ≤ String.length s)%nat → String.length (String.substring n m s) = m.
Proof.
  revert n m. induction s as [|c s IH]; intros [|n] [|m] H; simpl in *; try done; try lia.
  - f_equal. apply (IH 0%nat). lia.
  - apply IH. lia.
  - apply IH. lia.
Qed.

Lemma substring_append_next (s : string) (n a b : nat) :
  String.substring n a s +:+ String.substring (n + a) b s = String.substring n (a + b) s.
Proof.
  revert n a b. induction s as [|c s IH]; intros n a b.
  - by destruct n, a, b.
  - destruct n as [|n]; simpl.
    + destruct a as [|a]; simpl; [done|].
      change (String c (String.substring 0 a s +:+ String.substring (0 + a) b s)
              = String c (String.substring 0 (a + b) s)).
      f_equal. apply (IH 0%nat).
    + apply IH.
Qed.

Section LuaRead.
Variable size_t_modulus : Z.
Hypothesis size_t_holds_uint : 2 ^ 32 ≤ size_t_modulus.

(** X9. [LuaFileProxy::read] with the offset inside the data and a size
    above 0: the bytes copied are the data from the offset on, as
    many as are left or as [size * count] asks for (in [size_t]
    arithmetic), whichever is less; the offset moves past all of them and
    stays inside the data; the result counts the whole items among them,
    so a short tail is consumed but not counted. *)
Theorem LuaFileProxy_read_stays_in_range (this : LuaFileProxy) (size count : Z) :
  read_pos_in_range this → 0 < size →
  ∃ bytes items this',
    LuaFileProxy_read size_t_modulus this size count = Done ((bytes, items), this')
    ∧ read_pos_in_range this'
    ∧ _readData this' = _readData this ∧ _settings this' = _settings this
    ∧ bytes = String.substring (Z.to_nat (_readPos this)) (String.length bytes) (_readData this)
    ∧ _readPos this' = _readPos this + Z.of_nat (String.length bytes)
    ∧ Z.of_nat (String.length bytes)
      = Z.min (Z.of_nat (String.length (_readData this)) - _readPos this)
              ((size * count) mod size_t_modulus)
    ∧ items * size ≤ Z.of_nat (String.length bytes) < (items + 1) * size.
Proof.
  intros [[Hpos0 Hpos] Hsize] Hgt.
  unfold LuaFileProxy_read. rewrite decide_False by lia.
  unfold uint_wrap, size_t_wrap.
  set (len := Z.of_nat (String.length (_readData this))) in *.
  rewrite (Z.mod_small (len - _readPos this)) by lia.
  set (n := Z.min (len - _readPos this) ((size * count) mod size_t_modulus)).
  assert (0 ≤ (size * count) mod size_t_modulus) by (apply Z.mod_pos_bound; lia).
  assert (0 ≤ n ≤ len - _readPos this) as Hn by lia.
  assert (String.length (String.substring (Z.to_nat (_readPos this)) (Z.to_nat n)
                           (_readData this)) = Z.to_nat n) as Hlen.
  { apply substring_length_le. unfold len in *. lia. }
  eexists _, _, _. split; [done|]. simpl. rewrite Hlen, Z2Nat.id by lia.
  rewrite Z.mod_small by lia.
  split; [unfold read_pos_in_range; simpl; fold len; lia|].
  split; [done|]. split; [done|]. split; [done|]. split; [done|]. split; [done|].
  pose proof (Z.mul_div_le n size Hgt). pose proof (Z.mul_succ_div_gt n size Hgt). lia.
Qed.

(** X10. Two reads of bytes one after the other are one read of both
    counts: the bytes copied are those of the first followed by those of
    the second, and the proxy ends in the same state. *)
Theorem LuaFileProxy_read_twice (this : LuaFileProxy) (a b : Z) :
  read_pos_in_range this → 0 ≤ a → 0 ≤ b → a + b < size_t_modulus →
  ∃ bytes1 items1 this1 bytes2 items2 this2,
    LuaFileProxy_read size_t_modulus this 1 a = Done ((bytes1, items1), this1)
    ∧ LuaFileProxy_read size_t_modulus this1 1 b = Done ((bytes2, items2), this2)
    ∧ LuaFileProxy_read size_t_modulus this 1 (a + b)
      = Done ((bytes1 +:+ bytes2, items1 + items2), this2).
Proof.
  intros [[Hpos0 Hpos] Hsize] Ha Hb Hab.
  set (len := Z.of_nat (String.length (_readData this))) in *.
  set (pos := _readPos this) in *.
  set (n1 := Z.min (len - pos) a).
  set (n2 := Z.min (len - (pos + n1)) b).
  exists (String.substring (Z.to_nat pos) (Z.to_nat n1) (_readData this)), n1,
    (mkProxy (_readData this) (pos + n1) (_settings this)),
    (String.substring (Z.to_nat (pos + n1)) (Z.to_nat n2) (_readData this)), n2,
    (mkProxy (_readData this) (pos + n1 + n2) (_settings this)).
  unfold LuaFileProxy_read, uint_wrap, size_t_wrap. simpl.
  fold len pos. rewrite !Z.mul_1_l, !Z.div_1_r.
  rewrite (Z.mod_small a), (Z.mod_small b), (Z.mod_small (a + b)) by lia.
  rewrite (Z.mod_small (len - pos)) by lia. fold n1.
  rewrite (Z.mod_small (pos + n1)) by lia.
  rewrite (Z.mod_small (len - (pos + n1))) by lia. fold n2.
  rewrite (Z.mod_small (pos + n1 + n2)) by lia.
  assert (Z.min (len - pos) (a + b) = n1 + n2) as -> by lia.
  rewrite (Z.mod_small (pos + (n1 + n2))) by lia.
  split; [done|]. split; [done|].
  rewrite Z.add_assoc. do 3 f_equal.
  rewrite (Z2Nat.inj_add pos n1), (Z2Nat.inj_add n1 n2) by lia.
  symmetry. apply substring_append_next.
Qed.

End LuaRead.

Lemma LuaFileProxy_read_stays_in_range_witness :
  ∃ bytes items this',
    LuaFileProxy_read (2 ^ 64) (mkProxy "GAME_LANGUAGE" 7 "") 4 2
      = Done ((bytes, items), this')
    ∧ read_pos_in_range this'
    ∧ _readData this' = "GAME_LANGUAGE" ∧ _settings this' = ""
    ∧ bytes = String.substring 7 (String.length bytes) "GAME_LANGUAGE"
    ∧ _readPos this' = 7 + Z.of_nat (String.length bytes)
    ∧ Z.of_nat (String.length bytes) = Z.min (13 - 7) ((4 * 2) mod 2 ^ 64)
    ∧ items * 4 ≤ Z.of_nat (String.length bytes) < (items + 1) * 4.
Proof.
  apply (LuaFileProxy_read_stays_in_range (2 ^ 64) ltac:(lia)
           (mkProxy "GAME_LANGUAGE" 7 "") 4 2); [|lia].
  unfold read_pos_in_range. simpl. lia.
Defined.

Lemma LuaFileProxy_read_twice_witness :
  ∃ bytes1 items1 this1 bytes2 items2 this2,
    LuaFileProxy_read (2 ^ 64) (mkProxy "GAME_LANGUAGE" 0 "") 1 4 = Done ((bytes1, items1), this1)
    ∧ LuaFileProxy_read (2 ^ 64) this1 1 20 = Done ((bytes2, items2), this2)
    ∧ LuaFileProxy_read (2 ^ 64) (mkProxy "GAME_LANGUAGE" 0 "") 1 (4 + 20)
      = Done ((bytes1 +:+ bytes2, items1 + items2), this2).
Proof.
  apply (LuaFileProxy_read_twice (2 ^ 64) ltac:(lia) (mkProxy "GAME_LANGUAGE" 0 "") 4 20);
    [|lia..].
  unfold read_pos_in_range. simpl. lia.
Defined.

Section LuaLanguageProperties.
Context {C : Type} {confman : ConfigManager C} {codes : LanguageCodes}.

(** X11. The language of the game survives the configuration: for each
    of the nine codes of the game, [setLanguage] stores the code of its
    language and [getLanguage] then gives the code of the game back; for
    every other code [setLanguage] ends in [error].  Assumed of the code
    outside the file: [ConfMan.get] gives what [ConfMan.set] stored, and
    [parseLanguage] reads each code that [getLanguageCode] gives for the
    nine languages. *)
Theorem setLanguage_getLanguage_round_trip (ConfMan : C) (lang : string) :
  (∀ c key value, ConfMan_get (ConfMan_set c key value) key = value) →
  (∀ l, l ∈ game_languages → parseLanguage (getLanguageCode l) = l) →
  (lang ∈ game_language_codes →
   ∃ ConfMan', setLanguage ConfMan lang = Done ConfMan'
               ∧ getLanguage ConfMan' = Done lang)
  ∧ (lang ∉ game_language_codes →
     setLanguage ConfMan lang = ErrorCalled "Unknown language encountered").
Proof.
  intros Hget Hparse. unfold game_language_codes, game_languages in *. split.
  - intros Hin. unfold setLanguage, getLanguage.
    repeat (apply elem_of_cons in Hin as [->|Hin]);
      [..|by apply elem_of_nil in Hin];
      simpl; eexists; (split; [reflexivity|]); rewrite Hget, Hparse; try done;
      set_solver.
  - intros Hnot. unfold setLanguage.
    repeat (case_decide; [subst; exfalso; apply Hnot; set_solver|]). done.
Qed.

End LuaLanguageProperties.

Lemma setLanguage_getLanguage_round_trip_witness :
  (∃ ConfMan', setLanguage (confman:=MemConfMan) (codes:=scummvm_codes) ∅ "pt" = Done ConfMan'
               ∧ getLanguage (confman:=MemConfMan) (codes:=scummvm_codes) ConfMan' = Done "pt")
  ∧ setLanguage (confman:=MemConfMan) (codes:=scummvm_codes) ∅ "br"
    = ErrorCalled "Unknown language encountered".
Proof.
  assert (∀ (c : gmap string string) key value,
            ConfMan_get (ConfigManager:=MemConfMan)
              (ConfMan_set (ConfigManager:=MemConfMan) c key value) key = value)
    as Hget.
  { intros c key value. simpl. by rewrite lookup_insert_eq. }
  assert (∀ l, l ∈ game_languages →
               parseLanguage (LanguageCodes:=scummvm_codes)
                 (getLanguageCode (LanguageCodes:=scummvm_codes) l) = l) as Hparse.
  { intros l Hl. unfold game_languages in Hl.
    repeat (apply elem_of_cons in Hl as [->|Hl]); [by vm_compute..|by apply elem_of_nil in Hl]. }
  split.
  - apply (setLanguage_getLanguage_round_trip (confman:=MemConfMan) (codes:=scummvm_codes)
             ∅ "pt" Hget Hparse).
    unfold game_language_codes. do 7 (apply elem_of_cons; right). apply elem_of_cons. by left.
  - apply (setLanguage_getLanguage_round_trip (confman:=MemConfMan) (codes:=scummvm_codes)
             ∅ "br" Hget Hparse).
    unfold game_language_codes. intros Hin.
    repeat (apply elem_of_cons in Hin as [[=]|Hin]). by apply elem_of_nil in Hin.
Defined.

(** ** [LuaFileProxy::write] *)

Lemma skip_newlines_suffix (ptr : list ascii) : skip_newlines ptr `suffix_of` ptr.
Proof.
  induction ptr as [|c rest IH]; simpl; [done|].
  destruct (is_newline c); [by apply suffix_cons_r|done].
Qed.

Lemma strchr_or_end_suffix (c : ascii) (ptr : list ascii) : strchr_or_end c ptr `suffix_of` ptr.
Proof.
  induction ptr as [|d rest IH]; simpl; [done|].
  destruct (decide (d = c)); [done|by apply suffix_cons_r].
Qed.

Lemma skip_comment_suffix (ptr q : list ascii) : skip_comment ptr = Some q → q `suffix_of` ptr.
Proof.
  induction ptr as [|c rest IH]; simpl; [done|].
  destruct (is_newline c); [by intros [= <-]|]. intros H. by apply suffix_cons_r, IH.
Qed.

Lemma skip_newlines_idemp (ptr : list ascii) : skip_newlines (skip_newlines ptr) = skip_newlines ptr.
Proof.
  induction ptr as [|c rest IH]; simpl; [done|].
  destruct (is_newline c) eqn:E; [done|]. simpl. by rewrite E.
Qed.

Lemma String_between_suffix (pre p : list ascii) :
  String_between (pre ++ p) p = string_of_list_ascii pre.
Proof.
  unfold String_between. rewrite length_app.
  replace (length pre + length p - length p)%nat with (length pre) by lia.
  by rewrite take_app_length.
Qed.

Lemma string_of_list_ascii_app (a b : list ascii) :
  string_of_list_ascii (a ++ b) = string_of_list_ascii a +:+ string_of_list_ascii b.
Proof.
  induction a as [|c a IH]; [done|].
  change (String c (string_of_list_ascii (a ++ b))
          = String c (string_of_list_ascii a +:+ string_of_list_ascii b)).
  by f_equal.
Qed.

Lemma append_assoc (a b c : string) : (a +:+ b) +:+ c = a +:+ (b +:+ c).
Proof.
  induction a as [|x a IH]; [done|].
  change (String x ((a +:+ b) +:+ c) = String x (a +:+ (b +:+ c))). by f_equal.
Qed.

Lemma append_empty_r (a : string) : a +:+ "" = a.
Proof.
  induction a as [|x a IH]; [done|]. change (String x (a +:+ "") = String x a). by f_equal.
Qed.

(** One round of the data branch moves the pointer on. *)
Lemma data_line_shorter (c : ascii) (rest : list ascii) :
  (length (skip_newlines (strchr_or_end LF (c :: rest))) ≤ length rest)%nat.
Proof.
  pose proof (strchr_or_end_suffix LF (c :: rest)) as Hs.
  destruct (strchr_or_end LF (c :: rest)) as [|d q] eqn:E; simpl; [lia|].
  assert (d = LF) as ->.
  { clear Hs. revert E. generalize (c :: rest). intros l.
    induction l as [|x l IH]; simpl; [done|].
    destruct (decide (x = LF)); [by intros [= -> _]|done]. }
  replace (is_newline LF) with true by done.
  pose proof (skip_newlines_suffix q) as Hq.
  apply suffix_length in Hs, Hq. simpl in Hs. lia.
Qed.

Lemma comment_shorter (c : ascii) (rest q : list ascii) :
  is_newline c = false → skip_comment (c :: rest) = Some q →
  (length (skip_newlines q) ≤ length rest)%nat.
Proof.
  simpl. intros -> H%skip_comment_suffix.
  pose proof (skip_newlines_suffix q) as Hq. apply suffix_length in H, Hq. lia.
Qed.

Lemma no_comment_mark_suffix (ptr q : list ascii) :
  q `suffix_of` ptr → no_comment_mark ptr → no_comment_mark q.
Proof.
  intros [pre ->] H i Hi. specialize (H (length pre + i)%nat).
  rewrite lookup_app_r in H by lia.
  replace (length pre + i - length pre)%nat with i in H by lia.
  specialize (H Hi).
  rewrite lookup_app_r in H by lia.
  by replace (S (length pre + i) - length pre)%nat with (S i) in H by lia.
Qed.

Lemma write_loop_round (rem : nat) (c : ascii) (rest : list ascii) (settings : string) :
  write_loop (S rem) (c :: rest) settings
  = if bool_decide (c = hyphen) && bool_decide (star rest = hyphen) then
      match skip_comment (c :: rest) with
      | None => Some ReadPastTerminator
      | Some ptr => write_loop rem (skip_newlines ptr) settings
      end
    else
      let p := skip_newlines (strchr_or_end LF (c :: rest)) in
      write_loop rem p (settings +:+ String_between (c :: rest) p).
Proof. simpl. by rewrite skip_newlines_idemp. Qed.

Lemma write_loop_without_comment (rem : nat) : ∀ (ptr : list ascii) (settings : string),
  (length ptr ≤ rem)%nat → no_comment_mark ptr →
  write_loop rem ptr settings = Some (Done (settings +:+ string_of_list_ascii ptr)).
Proof.
  induction rem as [|rem IH]; intros [|c rest] settings Hlen Hno;
    try (by simpl; rewrite append_empty_r); [simpl in Hlen; lia|].
  rewrite write_loop_round.
  destruct (bool_decide (c = hyphen) && bool_decide (star rest = hyphen)) eqn:Emark.
  { apply andb_true_iff in Emark as [E1%bool_decide_eq_true E2%bool_decide_eq_true].
    destruct rest as [|d rest]; [done|].
    unfold star in E2. simpl in E2. by destruct (Hno 0%nat); simpl; f_equal. }
  cbv zeta.
  pose proof (data_line_shorter c rest) as Hshort.
  assert (skip_newlines (strchr_or_end LF (c :: rest)) `suffix_of` c :: rest) as Hsuf
    by (etrans; [apply skip_newlines_suffix|apply strchr_or_end_suffix]).
  set (p := skip_newlines (strchr_or_end LF (c :: rest))) in *.
  rewrite IH; [|simpl in Hlen; lia|by eapply no_comment_mark_suffix].
  destruct Hsuf as [pre Hpre]. rewrite Hpre. rewrite String_between_suffix.
  by rewrite append_assoc, <- string_of_list_ascii_app.
Qed.

Lemma write_loop_fuel (rem : nat) : ∀ (ptr : list ascii) (settings : string) (rem' : nat),
  (length ptr ≤ rem)%nat → (length ptr ≤ rem')%nat →
  write_loop rem ptr settings = write_loop rem' ptr settings.
Proof.
  induction rem as [|rem IH]; intros [|c rest] settings [|rem'] Hlen Hlen';
    try done; try (simpl in *; lia).
  rewrite !write_loop_round.
  destruct (bool_decide (c = hyphen) && bool_decide (star rest = hyphen)) eqn:Emark.
  - apply andb_true_iff in Emark as [->%bool_decide_eq_true _].
    destruct (skip_comment (hyphen :: rest)) as [q|] eqn:Eq; [|done].
    pose proof (comment_shorter hyphen rest q eq_refl Eq). simpl in *. apply IH; lia.
  - cbv zeta. pose proof (data_line_shorter c rest). simpl in *. apply IH; lia.
Qed.

Lemma ends_lines_suffix (a q : list ascii) : q `suffix_of` a → ends_lines a → ends_lines q.
Proof.
  intros [pre ->] [Hnil|Hlast].
  - left. by apply app_eq_nil in Hnil as [_ ->].
  - destruct q as [|c q]; [by left|right]. by rewrite last_app_cons in Hlast.
Qed.

Lemma ends_lines_cons (c : ascii) (a : list ascii) :
  ends_lines (c :: a) → (a = [] ∧ c = LF) ∨ (a ≠ [] ∧ ends_lines a).
Proof.
  intros [?|Hlast]; [done|]. destruct a as [|d a]; [left|right].
  - split; [done|]. by injection Hlast.
  - split; [done|]. right. by rewrite last_cons_cons in Hlast.
Qed.

Lemma skip_comment_app (a b : list ascii) :
  a ≠ [] → ends_lines a →
  ∃ q, skip_comment a = Some q ∧ skip_comment (a ++ b) = Some (q ++ b).
Proof.
  induction a as [|c a IH]; [done|]. intros _ Hends. simpl.
  destruct (is_newline c) eqn:Ec; [by eexists|].
  destruct (ends_lines_cons _ _ Hends) as [[_ ->]|[Hne Hends']]; [done|]. by apply IH.
Qed.

Lemma strchr_or_end_app (a b : list ascii) :
  a ≠ [] → ends_lines a →
  strchr_or_end LF (a ++ b) = strchr_or_end LF a ++ b.
Proof.
  induction a as [|c a IH]; [done|]. intros _ Hends. simpl.
  destruct (decide (c = LF)); [done|].
  destruct (ends_lines_cons _ _ Hends) as [[_ ->]|[Hne Hends']]; [done|]. by apply IH.
Qed.

Lemma skip_newlines_app (q b : list ascii) :
  is_newline (star b) = false → skip_newlines (q ++ b) = skip_newlines q ++ b.
Proof.
  intros Hb. induction q as [|c q IH]; simpl.
  - destruct b as [|d b]; [done|]. unfold star in Hb. simpl in *. by rewrite Hb.
  - by destruct (is_newline c).
Qed.

Lemma String_between_app (a p b : list ascii) :
  p `suffix_of` a → String_between (a ++ b) (p ++ b) = String_between a p.
Proof.
  intros [pre ->]. rewrite <- (assoc_L (++)). by rewrite !String_between_suffix.
Qed.

(** The loop on a text of complete lines followed by more text ends up at
    the start of the rest, with the settings the lines gave. *)
Lemma write_loop_app (rem : nat) : ∀ (a b : list ascii) (settings : string),
  (length (a ++ b) ≤ rem)%nat → ends_lines a → is_newline (star b) = false →
  ∃ settings', write_loop rem a settings = Some (Done settings')
               ∧ write_loop rem (a ++ b) settings = write_loop rem b settings'.
Proof.
  induction rem as [|rem IH]; intros [|c a] b settings Hlen Hends Hb;
    try (by eexists); [simpl in Hlen; lia|].
  change ((c :: a) ++ b) with (c :: (a ++ b)) in *. rewrite !write_loop_round.
  assert (length b ≤ rem)%nat as Hblen by (simpl in Hlen; rewrite length_app in Hlen; lia).
  assert (bool_decide (c = hyphen) && bool_decide (star (a ++ b) = hyphen)
          = bool_decide (c = hyphen) && bool_decide (star a = hyphen)) as ->.
  { destruct (ends_lines_cons _ _ Hends) as [[_ ->]|[Hne _]]; [done|]. by destruct a. }
  destruct (bool_decide (c = hyphen) && bool_decide (star a = hyphen)) eqn:Emark.
  - apply andb_true_iff in Emark as [->%bool_decide_eq_true _].
    change (hyphen :: a ++ b) with ((hyphen :: a) ++ b).
    destruct (skip_comment_app (hyphen :: a) b) as (q & Hq & ->); [done..|]. rewrite Hq.
    rewrite skip_newlines_app by done.
    pose proof (comment_shorter hyphen a q eq_refl Hq) as Hshort.
    destruct (IH (skip_newlines q) b settings) as (settings' & Ha & Hab); [| |done|].
    { simpl in Hlen. rewrite length_app in Hlen |- *. lia. }
    { eapply ends_lines_suffix; [|exact Hends].
      etrans; [apply skip_newlines_suffix|by apply skip_comment_suffix]. }
    exists settings'. split; [done|]. rewrite Hab. apply write_loop_fuel; lia.
  - cbv zeta. change (c :: a ++ b) with ((c :: a) ++ b).
    rewrite strchr_or_end_app, skip_newlines_app by done.
    pose proof (data_line_shorter c a) as Hshort.
    assert (skip_newlines (strchr_or_end LF (c :: a)) `suffix_of` c :: a) as Hsuf
      by (etrans; [apply skip_newlines_suffix|apply strchr_or_end_suffix]).
    rewrite String_between_app by done.
    set (p := skip_newlines (strchr_or_end LF (c :: a))) in *.
    destruct (IH p b (settings +:+ String_between (c :: a) p)) as (settings' & Ha & Hab);
      [| |done|].
    { simpl in Hlen. rewrite length_app in Hlen |- *. lia. }
    { by eapply ends_lines_suffix. }
    exists settings'. split; [done|]. rewrite Hab. apply write_loop_fuel; lia.
Qed.

Lemma skip_comment_past_terminator (l : list ascii) :
  Forall (λ c, is_newline c = false) l → skip_comment l = None.
Proof. induction 1 as [|c l Hc _ IH]; simpl; [done|]. by rewrite Hc. Qed.

Lemma c_str_without_NUL (s : string) : contains s NUL = false → c_str s = s.
Proof.
  induction s as [|c s IH]; simpl; [done|].
  destruct (decide (c = NUL)) as [->|Hc]; [done|].
  intros H. rewrite IH; [done|]. by destruct (bool_decide (c = NUL)) eqn:E in H.
Qed.

Lemma contains_append (a b : string) (c : ascii) :
  contains (a +:+ b) c = contains a c || contains b c.
Proof.
  induction a as [|x a IH]; [done|].
  change (bool_decide (x = c) || contains (a +:+ b) c
          = bool_decide (x = c) || contains a c || contains b c).
  rewrite IH. by destruct (bool_decide (x = c)).
Qed.

Lemma list_ascii_of_string_append (a b : string) :
  list_ascii_of_string (a +:+ b) = list_ascii_of_string a ++ list_ascii_of_string b.
Proof.
  induction a as [|x a IH]; [done|].
  change (x :: list_ascii_of_string (a +:+ b)
          = x :: (list_ascii_of_string a ++ list_ascii_of_string b)).
  by f_equal.
Qed.

Lemma length_list_ascii_of_string (s : string) :
  length (list_ascii_of_string s) = String.length s.
Proof. induction s as [|x s IH]; simpl; [done|by f_equal]. Qed.

Lemma no_newline_list (s : string) :
  contains s CR = false → contains s LF = false →
  Forall (λ c, is_newline c = false) (list_ascii_of_string s).
Proof.
  induction s as [|x s IH]; simpl; [by constructor|].
  intros [Hx Hs]%orb_false_iff [Hx' Hs']%orb_false_iff.
  constructor; [|by apply IH]. unfold is_newline. by rewrite Hx, Hx'.
Qed.

Lemma star_c_str (s : string) :
  is_newline (char_at s 0) = false → is_newline (star (list_ascii_of_string (c_str s))) = false.
Proof.
  destruct s as [|c s]; [done|]. simpl. destruct (decide (c = NUL)); [done|]. by unfold char_at.
Qed.

Lemma skip_comment_stops (l nl : list ascii) :
  Forall (λ c, is_newline c = false) l → is_newline (star nl) = true →
  skip_comment (l ++ nl) = Some nl.
Proof.
  intros Hl Hnl. induction Hl as [|c l Hc _ IH]; simpl; [|by rewrite Hc].
  destruct nl as [|d nl]; [done|]. unfold star in Hnl. simpl in *. by rewrite Hnl.
Qed.

Lemma skip_newlines_all (nl : list ascii) :
  Forall (λ c, is_newline c = true) nl → skip_newlines nl = [].
Proof. induction 1 as [|c l Hc _ IH]; simpl; [done|]. by rewrite Hc. Qed.

Lemma has_comment_mark_false (text : list ascii) :
  has_comment_mark text = false → no_comment_mark text.
Proof.
  induction text as [|c rest IH]; intros Hmark i Hi; [done|].
  simpl in Hmark. apply orb_false_iff in Hmark as [Hhere Hrest].
  destruct i as [|i]; [|by apply (IH Hrest i)].
  injection Hi as ->. destruct rest as [|d rest]; [done|].
  simpl. intros [= ->]. done.
Qed.

(** X12. A text in which no hyphen follows a hyphen holds no comment:
    [write] appends the whole of it (up to its terminating NUL), line
    ends included, to [_settings], and returns [count]. *)
Theorem LuaFileProxy_write_appends_text_without_comment
    (this : LuaFileProxy) (ptr : string) (count : Z) :
  no_comment_mark (list_ascii_of_string (c_str ptr)) →
  LuaFileProxy_write this ptr count
  = Some (Done (count, mkProxy (_readData this) (_readPos this) (_settings this +:+ c_str ptr))).
Proof.
  intros Hno. unfold LuaFileProxy_write.
  rewrite write_loop_without_comment by done.
  by rewrite string_of_list_ascii_of_string.
Qed.

(** X13. Writing complete lines and then more text, in two calls, is
    writing both in one call: for lines that end in a line feed, [write]
    returns, and [write] of the lines followed by a text that does not
    start with a line end is [write] of that text on the proxy the lines
    left. *)
Theorem LuaFileProxy_write_line_by_line
    (this : LuaFileProxy) (lines rest : string) (count1 count : Z) :
  contains lines NUL = false → ends_lines (list_ascii_of_string lines) →
  is_newline (char_at rest 0) = false →
  ∃ this1, LuaFileProxy_write this lines count1 = Some (Done (count1, this1))
           ∧ LuaFileProxy_write this (lines +:+ rest) count
             = LuaFileProxy_write this1 rest count.
Proof.
  intros Hnul Hends Hrest. unfold LuaFileProxy_write.
  assert (c_str (lines +:+ rest) = lines +:+ c_str rest) as ->.
  { clear Hends. induction lines as [|c s IH]; [done|]. simpl in Hnul.
    apply orb_false_iff in Hnul as [Hc%bool_decide_eq_false Hs].
    change (c_str (String c (s +:+ rest)) = String c (s +:+ c_str rest)).
    simpl. rewrite decide_False by done. by rewrite IH. }
  rewrite (c_str_without_NUL lines) by done.
  rewrite list_ascii_of_string_append.
  set (a := list_ascii_of_string lines) in *.
  set (b := list_ascii_of_string (c_str rest)).
  destruct (write_loop_app (length (a ++ b)) a b (_settings this)) as (settings' & Ha & Hab);
    [done|done|by apply star_c_str|].
  rewrite (write_loop_fuel (length a) a _ (length (a ++ b))), Ha
    by (rewrite ?length_app; lia).
  eexists. split; [reflexivity|]. rewrite Hab. simpl.
  by rewrite (write_loop_fuel (length (a ++ b)) b _ (length b))
    by (rewrite ?length_app; lia).
Qed.

(** X14. A comment line is dropped: [write] of two hyphens, a text with
    no line end in it, and a line end leaves the proxy as it was. *)
Theorem LuaFileProxy_write_drops_comment_line
    (this : LuaFileProxy) (comment nl : string) (count : Z) :
  contains comment NUL = false → contains comment CR = false → contains comment LF = false →
  nl ≠ "" → Forall (λ c, is_newline c = true) (list_ascii_of_string nl) →
  LuaFileProxy_write this ("--" +:+ comment +:+ nl) count = Some (Done (count, this)).
Proof.
  intros Hnul Hcr Hlf Hne Hnl. unfold LuaFileProxy_write.
  assert (contains nl NUL = false) as Hnlnul.
  { clear Hne. induction nl as [|c nl IH]; [done|]. simpl in *.
    apply Forall_cons in Hnl as [Hc Hnl]. rewrite IH by done.
    rewrite bool_decide_eq_false_2; [done|]. by intros ->. }
  rewrite c_str_without_NUL by (by rewrite !contains_append, Hnul, Hnlnul).
  rewrite !list_ascii_of_string_append.
  change (list_ascii_of_string "--") with [hyphen; hyphen].
  set (l := list_ascii_of_string comment). set (n := list_ascii_of_string nl) in *.
  change ([hyphen; hyphen] ++ l ++ n) with (hyphen :: hyphen :: l ++ n).
  change (length (hyphen :: hyphen :: l ++ n)) with (S (length (hyphen :: l ++ n))).
  rewrite write_loop_round.
  change (hyphen :: hyphen :: l ++ n) with ((hyphen :: hyphen :: l) ++ n).
  rewrite skip_comment_stops.
  - rewrite skip_newlines_all by done. by destruct this.
  - do 2 (constructor; [done|]). by apply no_newline_list.
  - destruct nl as [|c nl]; [done|]. by apply Forall_cons in Hnl as [Hc _].
Qed.

(** X15. A comment with no line end behind it sends the walk over the
    end of the text: after complete lines, two hyphens and a text with no
    line end in it, [write] steps over the terminating NUL and reads the
    byte behind it. *)
Theorem LuaFileProxy_write_comment_without_line_end
    (this : LuaFileProxy) (lines comment : string) (count : Z) :
  contains lines NUL = false → ends_lines (list_ascii_of_string lines) →
  contains comment NUL = false → contains comment CR = false → contains comment LF = false →
  LuaFileProxy_write this (lines +:+ "--" +:+ comment) count = Some ReadPastTerminator.
Proof.
  intros Hnul Hends Hcnul Hcr Hlf. unfold LuaFileProxy_write.
  rewrite c_str_without_NUL by (by rewrite !contains_append, Hnul, Hcnul).
  rewrite !list_ascii_of_string_append.
  change (list_ascii_of_string "--") with [hyphen; hyphen].
  set (a := list_ascii_of_string lines) in *. set (l := list_ascii_of_string comment).
  destruct (write_loop_app (length (a ++ [hyphen; hyphen] ++ l)) a ([hyphen; hyphen] ++ l)
              (_settings this)) as (settings' & _ & ->); [done..|].
  rewrite (write_loop_fuel _ _ _ (S (length (hyphen :: l))))
    by (rewrite ?length_app; simpl; lia).
  change ([hyphen; hyphen] ++ l) with (hyphen :: hyphen :: l).
  rewrite write_loop_round. simpl bool_decide.
  rewrite skip_comment_past_terminator; [done|].
  do 2 (constructor; [done|]). by apply no_newline_list.
Qed.

Lemma LuaFileProxy_write_appends_text_without_comment_witness :
  LuaFileProxy_write (mkProxy "" 0 "") ("GAME_SUBTITLES = true" +:+ CRLF) 23
  = Some (Done (23, mkProxy "" 0 ("" +:+ c_str ("GAME_SUBTITLES = true" +:+ CRLF)))).
Proof.
  apply (LuaFileProxy_write_appends_text_without_comment (mkProxy "" 0 "")
           ("GAME_SUBTITLES = true" +:+ CRLF) 23).
  apply has_comment_mark_false. reflexivity.
Defined.

Lemma LuaFileProxy_write_line_by_line_witness :
  ∃ this1,
    LuaFileProxy_write (mkProxy "" 0 "") ("A = 1" +:+ CRLF) 7 = Some (Done (7, this1))
    ∧ LuaFileProxy_write (mkProxy "" 0 "") (("A = 1" +:+ CRLF) +:+ "B = 2" +:+ CRLF) 14
      = LuaFileProxy_write this1 ("B = 2" +:+ CRLF) 14.
Proof.
  apply (LuaFileProxy_write_line_by_line (mkProxy "" 0 "") ("A = 1" +:+ CRLF)
           ("B = 2" +:+ CRLF) 7 14).
  - reflexivity.
  - right. reflexivity.
  - reflexivity.
Defined.

Lemma LuaFileProxy_write_drops_comment_line_witness :
  LuaFileProxy_write (mkProxy "" 0 "A = 1") ("--" +:+ " volume" +:+ CRLF) 11
  = Some (Done (11, mkProxy "" 0 "A = 1")).
Proof.
  apply (LuaFileProxy_write_drops_comment_line (mkProxy "" 0 "A = 1") " volume" CRLF 11).
  - reflexivity.
  - reflexivity.
  - reflexivity.
  - discriminate.
  - repeat constructor.
Defined.

Lemma LuaFileProxy_write_comment_without_line_end_witness :
  LuaFileProxy_write (mkProxy "" 0 "") (("A = 1" +:+ CRLF) +:+ "--" +:+ " last") 14
  = Some ReadPastTerminator.
Proof.
  apply (LuaFileProxy_write_comment_without_line_end (mkProxy "" 0 "") ("A = 1" +:+ CRLF)
           " last" 14).
  - reflexivity.
  - right. reflexivity.
  - reflexivity.
  - reflexivity.
  - reflexivity.
Defined.

(** ** [LuaFileProxy::writeSettings] *)

Lemma deref_app_cons (l : list ascii) (c : ascii) (rest : list ascii) :
  Posix.deref (l ++ c :: rest) (length l) = c.
Proof. unfold Posix.deref. by rewrite list_lookup_middle. Qed.

Lemma deref_star (l rest : list ascii) : Posix.deref (l ++ rest) (length l) = star rest.
Proof.
  destruct rest as [|c rest]; [|apply deref_app_cons].
  unfold Posix.deref. rewrite app_nil_r. by rewrite lookup_ge_None_2.
Qed.

Lemma span_length_app (cond : ascii → bool) (sp rest : list ascii) :
  Forall (λ c, cond c = true) sp → cond (star rest) = false →
  span_length cond (sp ++ rest) = length sp.
Proof.
  intros Hsp Hrest. induction Hsp as [|c sp Hc _ IH]; simpl.
  - destruct rest as [|d rest]; [done|]. unfold star in Hrest. simpl in *. by rewrite Hrest.
  - by rewrite Hc, IH.
Qed.

Lemma walk_forward_app (cond : ascii → bool) (l sp rest : list ascii) :
  Forall (λ c, cond c = true) sp → cond (star rest) = false →
  walk_forward cond (l ++ sp ++ rest) (length l) = (length l + length sp)%nat.
Proof.
  intros Hsp Hrest. unfold walk_forward.
  by rewrite drop_app_length, span_length_app.
Qed.

Lemma index_of_app (c : ascii) (l1 l2 : list ascii) :
  c ∉ l1 → index_of c (l1 ++ c :: l2) = Some (length l1).
Proof.
  induction l1 as [|d l1 IH]; simpl; intros Hnot.
  - by rewrite decide_True.
  - apply not_elem_of_cons in Hnot as [Hd Hl1].
    rewrite decide_False by done. by rewrite IH.
Qed.

Lemma index_of_None (c : ascii) (l : list ascii) : c ∉ l → index_of c l = None.
Proof.
  induction l as [|d l IH]; simpl; [done|]. intros [Hd Hl]%not_elem_of_cons.
  rewrite decide_False by done. by rewrite IH.
Qed.

Lemma strchr_app (c : ascii) (l l1 l2 : list ascii) :
  c ∉ l1 → strchr (l ++ l1 ++ c :: l2) (length l) c = Some (length l + length l1)%nat.
Proof. intros Hnot. unfold strchr. by rewrite drop_app_length, index_of_app. Qed.

Lemma walk_back_over_spaces_app (l : list ascii) (c : ascii) (sp : list ascii) :
  c ≠ space → Forall (λ c, c = space) sp → ∀ rest,
  walk_back_over_spaces (l ++ c :: sp ++ rest) (length l + 1 + length sp) = Some (length l + 1)%nat.
Proof.
  intros Hc. induction sp as [|x sp IH] using rev_ind; intros Hsp rest.
  - replace (length l + 1 + length [])%nat with (S (length l)) by (simpl; lia).
    simpl. rewrite deref_app_cons. unfold is_space.
    rewrite bool_decide_eq_false_2 by done. f_equal. lia.
  - apply Forall_app in Hsp as [Hsp Hx]. apply Forall_singleton in Hx as ->.
    rewrite length_app. simpl.
    replace (length l + 1 + (length sp + 1))%nat with (S (length l + 1 + length sp)) by lia.
    simpl.
    replace (l ++ c :: (sp ++ [space]) ++ rest) with ((l ++ c :: sp) ++ space :: rest)
      by (by rewrite <- !(assoc_L (++))).
    replace (length l + 1 + length sp)%nat with (length (l ++ c :: sp))
      by (rewrite length_app; simpl; lia).
    rewrite deref_app_cons. replace (is_space space) with true by done.
    rewrite length_app. simpl.
    replace ((l ++ c :: sp) ++ space :: rest) with (l ++ c :: sp ++ space :: rest)
      by (by rewrite <- !(assoc_L (++))).
    replace (length l + S (length sp))%nat with (length l + 1 + length sp)%nat by lia.
    by apply IH.
Qed.

Lemma String_at_app (l s rest : list ascii) :
  String_at (l ++ s ++ rest) (length l) (length s) = string_of_list_ascii s.
Proof. unfold String_at. by rewrite drop_app_length, take_app_length. Qed.

Lemma String_at_take (l s rest : list ascii) (k : nat) :
  (k ≤ length s)%nat →
  String_at (l ++ s ++ rest) (length l) k = string_of_list_ascii (take k s).
Proof.
  intros Hk. unfold String_at. rewrite drop_app_length. by rewrite take_app_le.
Qed.

Section WriteSettingsProperties.
Context {C : Type} {confman : ConfigManager C} {codes : LanguageCodes}.
Context {volumes : VolumeConversion}.

(** One line, between any text before it and a text behind it. *)
Lemma setting_at_line (pre name : list ascii) (c0 : ascii) (sp1 sp2 : list ascii)
    (v0 : ascii) (value nl post : list ascii) (ConfMan : C) :
  equals_sign ∉ name ++ [c0] → c0 ≠ space →
  Forall (λ c, c = space) sp1 → Forall (λ c, c = space) sp2 →
  v0 ≠ space → Forall (λ c, ends_value c = false) value → (v0 = quote → value ≠ []) →
  ends_value (star (nl ++ post)) = true →
  setting_at (pre ++ (name ++ [c0]) ++ sp1 ++ equals_sign :: sp2 ++ (v0 :: value) ++ nl ++ post)
    (length pre) ConfMan
  = lua_bind
      (updateSetting ConfMan (string_of_list_ascii (name ++ [c0]))
         (string_of_list_ascii
            (if bool_decide (v0 = quote) then take (length value - 1) value else v0 :: value)))
      (λ ConfMan,
         Done ((length (pre ++ (name ++ [c0]) ++ sp1 ++ equals_sign :: sp2 ++ (v0 :: value)))%nat,
               ConfMan)).
Proof.
  intros Hname Hc0 Hsp1 Hsp2 Hv0 Hvalue Hquote Hnl.
  set (buf := pre ++ (name ++ [c0]) ++ sp1 ++ equals_sign :: sp2 ++ (v0 :: value) ++ nl ++ post).
  unfold setting_at.
  (* strchr *)
  assert (strchr buf (length pre) equals_sign
          = Some (length (pre ++ name) + 1 + length sp1)%nat) as ->.
  { replace buf with (pre ++ ((name ++ [c0]) ++ sp1)
                      ++ equals_sign :: sp2 ++ (v0 :: value) ++ nl ++ post) by list_assoc.
    rewrite strchr_app; [f_equal; list_length|].
    intros [?|Hin]%elem_of_app; [done|].
    by rewrite Forall_forall in Hsp1; specialize (Hsp1 _ Hin). }
  (* the name *)
  assert (walk_back_over_spaces buf (length (pre ++ name) + 1 + length sp1)
          = Some (length (pre ++ name) + 1)%nat) as ->.
  { replace buf with ((pre ++ name) ++ c0 :: sp1
                      ++ equals_sign :: sp2 ++ (v0 :: value) ++ nl ++ post) by list_assoc.
    by apply walk_back_over_spaces_app. }
  rewrite decide_False by list_length.
  assert (String_at buf (length pre) (length (pre ++ name) + 1 - length pre)
          = string_of_list_ascii (name ++ [c0])) as ->.
  { replace (length (pre ++ name) + 1 - length pre)%nat with (length (name ++ [c0]))
      by list_length.
    apply String_at_app. }
  (* the value *)
  set (before := pre ++ (name ++ [c0]) ++ sp1 ++ [equals_sign]).
  assert (walk_forward is_space buf (length (pre ++ name) + 1 + length sp1 + 1)
          = (length before + length sp2)%nat) as ->.
  { replace (length (pre ++ name) + 1 + length sp1 + 1)%nat with (length before)
      by (unfold before; list_length).
    replace buf with (before ++ sp2 ++ (v0 :: value) ++ nl ++ post)
      by (unfold before; list_assoc).
    apply walk_forward_app.
    - eapply Forall_impl; [exact Hsp2|]. intros c ->. done.
    - unfold star, is_space. simpl. by rewrite bool_decide_eq_false_2. }
  set (pStart := (length before + length sp2)%nat).
  assert (pStart = length (before ++ sp2)) as HpStart by (unfold pStart; list_length).
  assert (buf = (before ++ sp2) ++ v0 :: value ++ nl ++ post) as Hbuf
    by (unfold buf, before; list_assoc).
  rewrite decide_False by (rewrite Hbuf, HpStart; list_length).
  assert (walk_forward (λ c, negb (ends_value c)) buf (pStart + 1)
          = (pStart + 1 + length value)%nat) as ->.
  { replace (pStart + 1)%nat with (length ((before ++ sp2) ++ [v0]))
      by (rewrite HpStart; list_length).
    replace buf with (((before ++ sp2) ++ [v0]) ++ value ++ nl ++ post)
      by (rewrite Hbuf; list_assoc).
    apply walk_forward_app; [|by rewrite Hnl].
    eapply Forall_impl; [exact Hvalue|]. by intros c ->. }
  assert (Posix.deref buf pStart = v0) as ->
    by (rewrite Hbuf, HpStart; apply deref_app_cons).
  assert ((length (pre ++ (name ++ [c0]) ++ sp1 ++ equals_sign :: sp2 ++ v0 :: value))%nat
          = (pStart + 1 + length value)%nat) as ->
    by (unfold pStart, before; list_length).
  destruct (bool_decide (v0 = quote)) eqn:Equote.
  - apply bool_decide_eq_true in Equote. specialize (Hquote Equote).
    assert (1 ≤ length value)%nat by (destruct value; [done|simpl; lia]).
    rewrite decide_False by lia.
    replace (pStart + 1)%nat with (length ((before ++ sp2) ++ [v0]))
      by (rewrite HpStart; list_length).
    replace buf with (((before ++ sp2) ++ [v0]) ++ value ++ nl ++ post)
      by (rewrite Hbuf; list_assoc).
    replace (length ((before ++ sp2) ++ [v0]) + length value - pStart - 2 * 1)%nat
      with (length value - 1)%nat by (rewrite HpStart; list_length).
    by rewrite String_at_take by lia.
  - rewrite decide_False by lia.
    replace (pStart + 0)%nat with (length (before ++ sp2)) by lia.
    replace (pStart + 1 + length value - pStart - 2 * 0)%nat with (length (v0 :: value))
      by (simpl; lia).
    replace buf with ((before ++ sp2) ++ (v0 :: value) ++ nl ++ post)
      by (rewrite Hbuf; list_assoc).
    by rewrite String_at_app.
Qed.

Lemma writeSettings_loop_round (rem : nat) (buf : list ascii) (pSrc : nat) (ConfMan : C) :
  writeSettings_loop (S rem) buf pSrc ConfMan
  = if bool_decide (Posix.deref buf pSrc = NUL) then Some (Done ConfMan)
    else if negb (is_newline (Posix.deref buf pSrc)) then
      match setting_at buf pSrc ConfMan with
      | Done (pSrc, ConfMan) =>
        writeSettings_loop rem buf (walk_forward is_newline buf pSrc) ConfMan
      | ErrorCalled msg => Some (ErrorCalled msg)
      | DivisionByZero => Some DivisionByZero
      | ReadPastTerminator => Some ReadPastTerminator
      | ReadBeforeStart => Some ReadBeforeStart
      | AssertFailed => Some AssertFailed
      end
    else writeSettings_loop rem buf (walk_forward is_newline buf pSrc) ConfMan.
Proof. done. Qed.

Lemma writeSettings_loop_end (rem : nat) (buf : list ascii) (pSrc : nat) (ConfMan : C) :
  Posix.deref buf pSrc = NUL → writeSettings_loop rem buf pSrc ConfMan = Some (Done ConfMan).
Proof. intros H. destruct rem; simpl; by rewrite bool_decide_eq_true_2. Qed.

Lemma star_line_text (l : setting_line) (post : list ascii) :
  well_formed l → star (line_text l ++ post) = star (line_name l)
                  ∧ ends_value (star (line_name l)) = false.
Proof.
  intros Hwf. split; [|apply Hwf].
  destruct (wf_name_end l Hwf) as (name & c & Hname & _).
  unfold line_text. rewrite Hname. by destruct name.
Qed.

Lemma star_lines (lines : list setting_line) :
  Forall well_formed lines → is_newline (star (mjoin (line_text <$> lines))) = false.
Proof.
  intros [|l rest Hl _]; [done|].
  change (mjoin (line_text <$> l :: rest)) with (line_text l ++ mjoin (line_text <$> rest)).
  destruct (star_line_text l (mjoin (line_text <$> rest)) Hl) as [-> H].
  by apply orb_false_iff in H as [? _].
Qed.

Lemma writeSettings_loop_lines (lines : list setting_line) :
  ∀ (pre : list ascii) (ConfMan : C) (rem : nat),
  Forall well_formed lines → (length lines ≤ rem)%nat →
  writeSettings_loop rem (pre ++ mjoin (line_text <$> lines)) (length pre) ConfMan
  = Some (update_settings lines ConfMan).
Proof.
  induction lines as [|l lines IH]; intros pre ConfMan rem Hwf Hrem.
  { apply writeSettings_loop_end. by rewrite deref_star. }
  apply Forall_cons in Hwf as [Hl Hwf].
  destruct rem as [|rem]; [simpl in Hrem; lia|].
  rewrite writeSettings_loop_round.
  change (mjoin (line_text <$> l :: lines)) with (line_text l ++ mjoin (line_text <$> lines)).
  set (post := mjoin (line_text <$> lines)).
  rewrite deref_star.
  destruct (star_line_text l post Hl) as [-> [Hnl Hnul%bool_decide_eq_false]%orb_false_iff].
  rewrite bool_decide_eq_false_2 by done. rewrite Hnl. simpl negb. cbv iota.
  destruct Hl as [_ Hequals (name & c0 & Hname & Hc0) _ Hsp1 Hsp2
                    (v0 & value & Hvalue & Hv0 & _ & Hrest & Hquote) [Hend Hnewlines]].
  unfold value_text. simpl update_settings. unfold value_text.
  assert (line_text l ++ post
          = (name ++ [c0]) ++ line_spaces_before l ++ equals_sign :: line_spaces_after l
            ++ (v0 :: value) ++ line_end l ++ post) as ->.
  { unfold line_text. rewrite Hname, Hvalue. list_assoc. }
  rewrite setting_at_line; try done.
  2:{ by rewrite <- Hname. }
  2:{ destruct (line_end l) as [|d nl]; [done|].
      apply Forall_cons in Hnewlines as [Hd _]. unfold star, ends_value. simpl. by rewrite Hd. }
  rewrite Hname, Hvalue.
  replace (take (length (v0 :: value) - 2) (drop 1 (v0 :: value)))
    with (take (length value - 1) value)
    by (simpl; f_equal; lia).
  change (star (v0 :: value)) with v0.
  destruct (updateSetting _ _ _) as [ConfMan'| | | | |]; simpl; try done.
  set (before := pre ++ (name ++ [c0]) ++ line_spaces_before l
                 ++ equals_sign :: line_spaces_after l ++ v0 :: value).
  replace (pre ++ (name ++ [c0]) ++ line_spaces_before l
           ++ equals_sign :: line_spaces_after l ++ v0 :: value ++ line_end l ++ post)
    with (before ++ line_end l ++ post) by list_assoc.
  rewrite walk_forward_app; [|done|by apply star_lines].
  replace (length before + length (line_end l))%nat with (length (before ++ line_end l))
    by list_length.
  rewrite (assoc_L (++)). apply IH; [done|simpl in Hrem; lia].
Qed.

Lemma c_str_list (l : list ascii) :
  NUL ∉ l → c_str (string_of_list_ascii l) = string_of_list_ascii l.
Proof.
  induction l as [|c l IH]; [done|]. intros [Hc Hl]%not_elem_of_cons. simpl.
  rewrite decide_False by done. by rewrite IH.
Qed.

Lemma line_text_NUL (l : setting_line) :
  well_formed l → (NUL ∉ line_text l) ∧ line_text l ≠ [].
Proof.
  intros [_ _ (name & c0 & Hname & _) Hnul Hsp1 Hsp2
            (v0 & value & Hvalue & _ & Hv0 & Hrest & _) [_ Hnewlines]].
  split; [|unfold line_text; rewrite Hname; by destruct name].
  unfold line_text. rewrite Hvalue.
  assert (∀ sp, Forall (λ c, c = space) sp → NUL ∉ sp) as Hspaces.
  { intros sp Hsp Hin. by rewrite Forall_forall in Hsp; specialize (Hsp _ Hin). }
  rewrite !not_elem_of_app, !not_elem_of_cons, !not_elem_of_app, !not_elem_of_cons.
  split; [done|]. split; [by apply Hspaces|]. split; [done|]. split; [by apply Hspaces|].
  split; [split; [done|]|].
  - intros Hin. by rewrite Forall_forall in Hrest; specialize (Hrest _ Hin).
  - intros Hin. by rewrite Forall_forall in Hnewlines; specialize (Hnewlines _ Hin).
Qed.

Lemma lines_text_NUL (lines : list setting_line) :
  Forall well_formed lines →
  (NUL ∉ mjoin (line_text <$> lines))
  ∧ (length lines ≤ length (mjoin (line_text <$> lines)))%nat.
Proof.
  induction 1 as [|l lines Hl _ [IH1 IH2]]; [split; [by intros ?%elem_of_nil|done]|].
  change (mjoin (line_text <$> l :: lines)) with (line_text l ++ mjoin (line_text <$> lines)).
  destruct (line_text_NUL l Hl) as [Hnul Hne].
  split; [by rewrite not_elem_of_app|].
  rewrite length_app. destruct (line_text l); [done|]. simpl. lia.
Qed.

Lemma writeSettings_of_lines (this : LuaFileProxy) (lines : list setting_line) (ConfMan : C) :
  Forall well_formed lines → _settings this = settings_text lines →
  writeSettings this ConfMan
  = Some (lua_bind (update_settings lines ConfMan)
            (λ ConfMan, Done (ConfMan_flushToDisk ConfMan))).
Proof.
  intros Hwf Hsettings. unfold writeSettings. rewrite Hsettings. unfold settings_text.
  destruct (lines_text_NUL lines Hwf) as [Hnul Hlen].
  rewrite c_str_list, list_ascii_of_string_of_list_ascii by done.
  by rewrite (writeSettings_loop_lines lines [] ConfMan).
Qed.


Lemma c_str_NUL (s : string) : NUL ∉ list_ascii_of_string (c_str s).
Proof.
  induction s as [|c s IH]; simpl; [by intros ?%elem_of_nil|].
  destruct (decide (c = NUL)); simpl; [by intros ?%elem_of_nil|].
  by apply not_elem_of_cons.
Qed.

Lemma first_of_line (buf : list ascii) :
  (∃ c, c ∈ buf ∧ is_newline c = false) →
  ∃ nl c rest, buf = nl ++ c :: rest ∧ Forall (λ c, is_newline c = true) nl
               ∧ is_newline c = false.
Proof.
  induction buf as [|d buf IH]; intros (c & Hin & Hc); [by apply elem_of_nil in Hin|].
  destruct (is_newline d) eqn:Ed.
  - apply elem_of_cons in Hin as [->|Hin]; [congruence|].
    destruct IH as (nl & c' & rest & -> & Hnl & Hc'); [by exists c|].
    exists (d :: nl), c', rest. split; [done|]. split; [by constructor|done].
  - by exists [], d, buf.
Qed.

(** X17. A text with a line in it (a byte that is no line end) and no
    equals sign anywhere ends [writeSettings] in the failed [assert(p)]. *)
Theorem writeSettings_without_equals_sign (this : LuaFileProxy) (ConfMan : C) :
  equals_sign ∉ list_ascii_of_string (c_str (_settings this)) →
  (∃ c, c ∈ list_ascii_of_string (c_str (_settings this)) ∧ is_newline c = false) →
  writeSettings this ConfMan = Some AssertFailed.
Proof.
  intros Hequals Hline. unfold writeSettings.
  pose proof (c_str_NUL (_settings this)) as Hnul.
  set (buf := list_ascii_of_string (c_str (_settings this))) in *. clearbody buf.
  destruct (first_of_line buf Hline) as (nl & c & rest & -> & Hnl & Hc).
  assert (c ≠ NUL) as Hc0.
  { intros ->. apply Hnul. apply elem_of_app. right. by left. }
  assert (∀ rem, writeSettings_loop (S rem) (nl ++ c :: rest) (length nl) ConfMan
                 = Some AssertFailed) as Hround.
  { intros rem. rewrite writeSettings_loop_round, deref_app_cons.
    rewrite bool_decide_eq_false_2 by done. rewrite Hc. simpl negb. cbv iota.
    unfold setting_at, strchr. rewrite drop_app_length.
    rewrite index_of_None; [done|]. by apply not_elem_of_app in Hequals as [_ ?]. }
  destruct nl as [|d nl].
  { specialize (Hround (length rest)). simpl in Hround |- *. by rewrite Hround. }
  apply Forall_cons in Hnl as [Hd Hnl].
  replace (length ((d :: nl) ++ c :: rest)) with (S (S (length nl + length rest)))
    by list_length.
  rewrite writeSettings_loop_round.
  change (Posix.deref ((d :: nl) ++ c :: rest) 0) with d.
  rewrite bool_decide_eq_false_2 by (by intros ->). rewrite Hd. simpl negb. cbv iota.
  pose proof (walk_forward_app is_newline [] (d :: nl) (c :: rest)) as Hwalk.
  change (length []) with 0%nat in Hwalk. change ([] ++ ?l) with l in Hwalk.
  rewrite Hwalk; [|by constructor|done].
  specialize (Hround (length nl + length rest)%nat). simpl in Hround |- *. by rewrite Hround.
Qed.

Lemma settings_text_app (lines0 lines : list setting_line) :
  settings_text lines0 +:+ settings_text lines = settings_text (lines0 ++ lines).
Proof.
  unfold settings_text. by rewrite fmap_app, join_app, string_of_list_ascii_app.
Qed.

Lemma write_then_delete_lines
    (this : LuaFileProxy) (lines0 lines : list setting_line) (count : Z) (ConfMan : C) :
  Forall well_formed lines0 → Forall well_formed lines → lines ≠ [] →
  _settings this = settings_text lines0 →
  no_comment_mark (mjoin (line_text <$> lines)) →
  ∃ this',
    LuaFileProxy_write this (settings_text lines) count = Some (Done (count, this'))
    ∧ LuaFileProxy_delete this' ConfMan
      = Some (lua_bind (update_settings (lines0 ++ lines) ConfMan)
                (λ ConfMan, Done (ConfMan_flushToDisk ConfMan))).
Proof.
  intros Hwf0 Hwf Hne Hsettings Hmark.
  destruct (lines_text_NUL lines Hwf) as [Hnul Hlen].
  unfold LuaFileProxy_write, settings_text.
  rewrite c_str_list, list_ascii_of_string_of_list_ascii by done.
  rewrite write_loop_without_comment by done.
  eexists. split; [reflexivity|]. unfold LuaFileProxy_delete. simpl _settings.
  fold (settings_text lines). rewrite Hsettings, settings_text_app.
  assert (empty (settings_text (lines0 ++ lines)) = false) as ->.
  { apply empty_false. intros Hempty. apply (f_equal list_ascii_of_string) in Hempty.
    unfold settings_text in Hempty. rewrite list_ascii_of_string_of_list_ascii in Hempty.
    destruct (lines_text_NUL (lines0 ++ lines)) as [_ Hlen']; [by apply Forall_app|].
    rewrite Hempty, length_app in Hlen'. destruct lines; [done|simpl in Hlen'; lia]. }
  by apply writeSettings_of_lines; [apply Forall_app|].
Qed.


Lemma language_line_well_formed (lang : string) :
  lang ∈ game_language_codes →
  well_formed (language_line lang)
  ∧ has_comment_mark (line_text (language_line lang)) = false
  ∧ value_text (language_line lang) = lang.
Proof.
  unfold game_language_codes. intros Hin.
  repeat (apply elem_of_cons in Hin as [->|Hin]); [..|by apply elem_of_nil in Hin].
  all: split; [|by split].
  all: split; simpl.
  all: try done.
  all: try (by apply (bool_decide_unpack _)).
  all: try (by repeat constructor).
  - by exists (list_ascii_of_string "GAME_LANGUAG"), "E"%char.
  - eexists _, _. split; [reflexivity|]. repeat split; try done. by repeat constructor.
  - by exists (list_ascii_of_string "GAME_LANGUAG"), "E"%char.
  - eexists _, _. split; [reflexivity|]. repeat split; try done. by repeat constructor.
  - by exists (list_ascii_of_string "GAME_LANGUAG"), "E"%char.
  - eexists _, _. split; [reflexivity|]. repeat split; try done. by repeat constructor.
  - by exists (list_ascii_of_string "GAME_LANGUAG"), "E"%char.
  - eexists _, _. split; [reflexivity|]. repeat split; try done. by repeat constructor.
  - by exists (list_ascii_of_string "GAME_LANGUAG"), "E"%char.
  - eexists _, _. split; [reflexivity|]. repeat split; try done. by repeat constructor.
  - by exists (list_ascii_of_string "GAME_LANGUAG"), "E"%char.
  - eexists _, _. split; [reflexivity|]. repeat split; try done. by repeat constructor.
  - by exists (list_ascii_of_string "GAME_LANGUAG"), "E"%char.
  - eexists _, _. split; [reflexivity|]. repeat split; try done. by repeat constructor.
  - by exists (list_ascii_of_string "GAME_LANGUAG"), "E"%char.
  - eexists _, _. split; [reflexivity|]. repeat split; try done. by repeat constructor.
  - by exists (list_ascii_of_string "GAME_LANGUAG"), "E"%char.
  - eexists _, _. split; [reflexivity|]. repeat split; try done. by repeat constructor.
Qed.

(** X19. The language line of the config file, written back: for each
    of the nine codes of the game, [write] of the line
    [GAME_LANGUAGE = "code"] on a proxy with no settings yet, and then
    the destructor, leave a configuration from which [getLanguage] gives
    that code.  Assumed of the code outside the file: [ConfMan.get] gives
    what [ConfMan.set] stored, also after [flushToDisk], and
    [parseLanguage] reads each code that [getLanguageCode] gives for the
    nine languages. *)
Theorem language_line_round_trip
    (this : LuaFileProxy) (ConfMan : C) (lang : string) (count : Z) :
  (∀ c key value, ConfMan_get (ConfMan_set c key value) key = value) →
  (∀ c key, ConfMan_get (ConfMan_flushToDisk c) key = ConfMan_get c key) →
  (∀ l, l ∈ game_languages → parseLanguage (getLanguageCode l) = l) →
  _settings this = "" → lang ∈ game_language_codes →
  ∃ this' ConfMan',
    LuaFileProxy_write this (settings_text [language_line lang]) count
      = Some (Done (count, this'))
    ∧ LuaFileProxy_delete this' ConfMan = Some (Done ConfMan')
    ∧ getLanguage ConfMan' = Done lang.
Proof.
  intros Hget Hflush Hparse Hsettings Hin.
  destruct (language_line_well_formed lang Hin) as (Hwf & Hmark & Hvalue).
  destruct (write_then_delete_lines this [] [language_line lang] count ConfMan)
    as (this' & Hwrite & Hdelete); [done|by constructor|done|done|..].
  { apply has_comment_mark_false.
    change (mjoin (line_text <$> [language_line lang]))
      with (line_text (language_line lang) ++ []).
    by rewrite app_nil_r. }
  assert (∃ ConfMan',
            lua_bind (update_settings ([] ++ [language_line lang]) ConfMan)
              (λ ConfMan, Done (ConfMan_flushToDisk ConfMan)) = Done ConfMan'
            ∧ getLanguage ConfMan' = Done lang) as (ConfMan' & Hupdate & Hlang).
  { change (update_settings ([] ++ [language_line lang]) ConfMan)
      with (lua_bind (updateSetting ConfMan "GAME_LANGUAGE" (value_text (language_line lang)))
              Done).
    rewrite Hvalue. unfold updateSetting. rewrite decide_True by done.
    clear Hwrite Hdelete Hwf Hmark Hvalue. unfold game_language_codes, game_languages in *.
    repeat (apply elem_of_cons in Hin as [->|Hin]); [..|by apply elem_of_nil in Hin].
    all: eexists; (split; [reflexivity|]).
    all: unfold getLanguage; rewrite Hflush, Hget, Hparse; [done|].
    all: repeat (apply elem_of_cons; first [by left|right]). }
  exists this', ConfMan'. by rewrite Hdelete, Hupdate.
Qed.

Lemma walk_back_over_spaces_start (sp : list ascii) :
  Forall (λ c, c = space) sp → ∀ rest, walk_back_over_spaces (sp ++ rest) (length sp) = None.
Proof.
  induction sp as [|x sp IH] using rev_ind; intros Hsp rest; [done|].
  apply Forall_app in Hsp as [Hsp Hx]. apply Forall_singleton in Hx as ->.
  rewrite length_app. simpl. replace (length sp + 1)%nat with (S (length sp)) by lia.
  simpl. rewrite <- (assoc_L (++)). simpl. rewrite deref_app_cons.
  replace (is_space space) with true by done. by apply IH.
Qed.

(** X20. A text that starts with an equals sign, or with spaces and an
    equals sign, sends the walk for the end of the name off the start of
    the text: [writeSettings] reads the byte before the buffer. *)
Theorem writeSettings_name_missing_at_the_start
    (this : LuaFileProxy) (sp rest : list ascii) (ConfMan : C) :
  list_ascii_of_string (c_str (_settings this)) = sp ++ equals_sign :: rest →
  Forall (λ c, c = space) sp →
  writeSettings this ConfMan = Some ReadBeforeStart.
Proof.
  intros Hbuf Hsp. unfold writeSettings. rewrite Hbuf.
  replace (length (sp ++ equals_sign :: rest)) with (S (length sp + length rest))
    by list_length.
  rewrite writeSettings_loop_round.
  assert (Posix.deref (sp ++ equals_sign :: rest) 0 = space
          ∨ Posix.deref (sp ++ equals_sign :: rest) 0 = equals_sign) as Hfirst.
  { destruct sp as [|c sp]; [by right|left]. by apply Forall_cons in Hsp as [-> _]. }
  assert (bool_decide (Posix.deref (sp ++ equals_sign :: rest) 0 = NUL) = false) as ->
    by (by destruct Hfirst as [-> | ->]).
  assert (is_newline (Posix.deref (sp ++ equals_sign :: rest) 0) = false) as ->
    by (by destruct Hfirst as [-> | ->]).
  simpl negb. cbv iota. unfold setting_at.
  pose proof (strchr_app equals_sign [] sp rest) as Hstrchr.
  change (length []) with 0%nat in Hstrchr. change ([] ++ ?l) with l in Hstrchr.
  rewrite Hstrchr.
  - change (0 + length sp)%nat with (length sp). by rewrite walk_back_over_spaces_start.
  - intros Hin. by rewrite Forall_forall in Hsp; specialize (Hsp _ Hin).
Qed.

(** X21. A name and an equals sign with no value behind it at the end
    of the text: the walk for the end of the value starts one byte behind
    the terminating NUL, and [writeSettings] reads there. *)
Theorem writeSettings_value_missing_at_the_end
    (this : LuaFileProxy) (name : list ascii) (c0 : ascii) (sp1 sp2 : list ascii) (ConfMan : C) :
  list_ascii_of_string (c_str (_settings this)) = (name ++ [c0]) ++ sp1 ++ equals_sign :: sp2 →
  ends_value (star (name ++ [c0])) = false → equals_sign ∉ name ++ [c0] → c0 ≠ space →
  Forall (λ c, c = space) sp1 → Forall (λ c, c = space) sp2 →
  writeSettings this ConfMan = Some ReadPastTerminator.
Proof.
  intros Hbuf [Hnl Hnul%bool_decide_eq_false]%orb_false_iff Hequals Hc0 Hsp1 Hsp2.
  unfold writeSettings. rewrite Hbuf.
  set (buf := (name ++ [c0]) ++ sp1 ++ equals_sign :: sp2).
  assert (length buf = S (length name + length sp1 + 1 + length sp2)) as -> by list_length.
  rewrite writeSettings_loop_round.
  assert (Posix.deref buf 0 = star (name ++ [c0])) as -> by (unfold buf; by destruct name).
  rewrite bool_decide_eq_false_2 by done. rewrite Hnl. simpl negb. cbv iota.
  unfold setting_at.
  assert (strchr buf 0 equals_sign = Some (length name + 1 + length sp1)%nat) as ->.
  { pose proof (strchr_app equals_sign [] ((name ++ [c0]) ++ sp1) sp2) as Hstrchr.
    change (length []) with 0%nat in Hstrchr. change ([] ++ ?l) with l in Hstrchr.
    replace buf with (((name ++ [c0]) ++ sp1) ++ equals_sign :: sp2) by list_assoc.
    rewrite Hstrchr; [f_equal; list_length|].
    intros [?|Hin]%elem_of_app; [done|].
    by rewrite Forall_forall in Hsp1; specialize (Hsp1 _ Hin). }
  assert (walk_back_over_spaces buf (length name + 1 + length sp1) = Some (length name + 1)%nat)
    as ->.
  { replace buf with (name ++ c0 :: sp1 ++ equals_sign :: sp2) by list_assoc.
    by apply walk_back_over_spaces_app. }
  rewrite decide_False by lia.
  set (before := (name ++ [c0]) ++ sp1 ++ [equals_sign]).
  assert (walk_forward is_space buf (length name + 1 + length sp1 + 1)
          = (length before + length sp2)%nat) as ->.
  { replace (length name + 1 + length sp1 + 1)%nat with (length before) by list_length.
    replace buf with (before ++ sp2 ++ []) by (rewrite app_nil_r; list_assoc).
    apply walk_forward_app; [|done].
    eapply Forall_impl; [exact Hsp2|]. by intros c ->. }
  by rewrite decide_True by list_length.
Qed.

End WriteSettingsProperties.


Lemma writeSettings_without_equals_sign_witness :
  writeSettings (confman:=MemConfMan) (codes:=scummvm_codes) (volumes:=full_volume)
    (mkProxy "" 0 "print(1)") ∅
  = Some AssertFailed.
Proof.
  apply (writeSettings_without_equals_sign (confman:=MemConfMan) (codes:=scummvm_codes)
           (volumes:=full_volume) (mkProxy "" 0 "print(1)") ∅).
  - by apply (bool_decide_unpack _).
  - exists "p"%char. split; [by apply elem_of_cons; left|reflexivity].
Defined.


Lemma language_line_round_trip_witness :
  ∃ this' ConfMan',
    LuaFileProxy_write (mkProxy "" 0 "") (settings_text [language_line "pt"]) 22
      = Some (Done (22, this'))
    ∧ LuaFileProxy_delete (confman:=MemConfMan) (codes:=scummvm_codes) (volumes:=full_volume)
        this' ∅ = Some (Done ConfMan')
    ∧ getLanguage (confman:=MemConfMan) (codes:=scummvm_codes) ConfMan' = Done "pt".
Proof.
  apply (language_line_round_trip (confman:=MemConfMan) (codes:=scummvm_codes)
           (volumes:=full_volume) (mkProxy "" 0 "") ∅ "pt" 22).
  - intros c key value. simpl. by rewrite lookup_insert_eq.
  - reflexivity.
  - intros l Hl. unfold game_languages in Hl.
    repeat (apply elem_of_cons in Hl as [->|Hl]); [by vm_compute..|by apply elem_of_nil in Hl].
  - reflexivity.
  - unfold game_language_codes. repeat (apply elem_of_cons; first [by left|right]).
Defined.

Lemma writeSettings_name_missing_at_the_start_witness :
  writeSettings (confman:=MemConfMan) (codes:=scummvm_codes) (volumes:=full_volume)
    (mkProxy "" 0 " = 1") ∅
  = Some ReadBeforeStart.
Proof.
  apply (writeSettings_name_missing_at_the_start (confman:=MemConfMan) (codes:=scummvm_codes)
           (volumes:=full_volume) (mkProxy "" 0 " = 1") [space] (list_ascii_of_string " 1") ∅).
  - reflexivity.
  - by repeat constructor.
Defined.

Lemma writeSettings_value_missing_at_the_end_witness :
  writeSettings (confman:=MemConfMan) (codes:=scummvm_codes) (volumes:=full_volume)
    (mkProxy "" 0 "A =") ∅
  = Some ReadPastTerminator.
Proof.
  apply (writeSettings_value_missing_at_the_end (confman:=MemConfMan) (codes:=scummvm_codes)
           (volumes:=full_volume) (mkProxy "" 0 "A =") [] "A"%char [space] [] ∅).
  - reflexivity.
  - reflexivity.
  - by apply (bool_decide_unpack _).
  - discriminate.
  - by repeat constructor.
  - constructor.
Defined.

(** ** [DumpFile::open] on the Yuza backend *)

Section CreatePathOnYuza.
Context {FS Stream : Type} {os : OS FS} {cs : CommonStr} {build : Build}.
Context {ios : YuzaIoStream FS Stream} {sws : WriteStream Stream}.

Lemma YuzaFilesystemNode_new_trace (p : string) (w : World FS) :
  p ≠ "" →
  ∃ node w', YuzaFilesystemNode_new p w = Ret (node, w')
             ∧ _path node = node_path p
             ∧ w_fs w' = w_fs w
             ∧ mkdir_paths (w_trace w') = mkdir_paths (w_trace w).
Proof.
  intros Hp. unfold YuzaFilesystemNode_new, node_path. unfold mbind, M_bind, assert_.
  rewrite bool_decide_eq_true_2 by (destruct p; simpl; [done|lia]).
  destruct (SKYOS32 && bool_decide (p = "/")); [by eexists _, _|].
  edestruct setFlags_returns as (n' & -> & _ & Hpath).
  eexists _, _. split; [done|]. split; [done|]. split; [done|].
  simpl. rewrite mkdir_paths_app. simpl. by rewrite app_nil_r.
Qed.

Lemma createPath_body_trace (filename : string) (i : nat) (w : World FS) :
  ∃ w' made,
    DumpFile.createPath_body (backend:=YuzaBackend) filename i w = Ret (tt, w')
    ∧ mkdir_paths (w_trace w') = mkdir_paths (w_trace w) ++ made
    ∧ made `sublist_of` ((λ p, c_str (node_path p)) <$> createPath_prefixes_from i 1 filename).
Proof.
  unfold DumpFile.createPath_body, createPath_prefixes_from. simpl seq.
  destruct (bool_decide (char_at filename i = "/"%char)
            || bool_decide (char_at filename i = backslash)) eqn:Esep.
  2:{ exists w, []. rewrite app_nil_r. split; [done|]. split; [done|]. apply sublist_nil_l. }
  destruct (empty (String.substring 0 i filename)) eqn:Eempty.
  { exists w, []. rewrite app_nil_r. split; [done|]. split; [done|]. apply sublist_nil_l. }
  assert (String.substring 0 i filename ≠ "") as Hne.
  { intros Heq. unfold empty in Eempty. by rewrite Heq, bool_decide_eq_true_2 in Eempty. }
  rewrite filter_cons_True.
  2:{ split; [|done]. apply orb_true_iff in Esep as [?%bool_decide_eq_true|?%bool_decide_eq_true];
        [by left|by right]. }
  simpl. unfold mbind at 1, M_bind at 1.
  destruct (YuzaFilesystemNode_new_trace _ w Hne) as (node & w1 & -> & Hpath & _ & Htrace1).
  unfold exists_, sys_access. unfold mbind at 1, M_bind at 1.
  destruct (os_access _ _ _).
  { unfold_M. eexists _, []. split; [done|]. simpl. rewrite mkdir_paths_app, Htrace1. simpl.
    split; [done|]. apply sublist_nil_l. }
  unfold createDirectory, sys_mkdir. unfold mbind, M_bind. simpl.
  destruct (os_mkdir _ _ _) as [fs' [|e]].
  - edestruct setFlags_returns as (n' & -> & _). simpl.
    destruct (negb _); unfold_M; simpl; eexists _, [_];
      (split; [done|]); simpl; rewrite ?mkdir_paths_app; simpl;
      rewrite ?mkdir_paths_app, ?Htrace1; simpl; rewrite ?app_nil_r, Hpath; by split.
  - simpl. destruct (negb _); unfold_M; simpl; eexists _, [_];
      (split; [done|]); simpl; rewrite ?mkdir_paths_app; simpl;
      rewrite ?mkdir_paths_app, ?Htrace1; simpl; rewrite ?app_nil_r, Hpath; by split.
Qed.

Lemma createPath_loop_trace (filename : string) (count : nat) : ∀ (i : nat) (w : World FS),
  ∃ w' made,
    for_ i count (DumpFile.createPath_body (backend:=YuzaBackend) filename) w = Ret (tt, w')
    ∧ mkdir_paths (w_trace w') = mkdir_paths (w_trace w) ++ made
    ∧ made `sublist_of` ((λ p, c_str (node_path p)) <$> createPath_prefixes_from i count filename).
Proof.
  induction count as [|count IH]; intros i w.
  - exists w, []. rewrite app_nil_r. split; [done|]. split; [done|]. apply sublist_nil_l.
  - simpl for_. unfold mbind, M_bind.
    destruct (createPath_body_trace filename i w) as (w1 & made1 & -> & Htrace1 & Hsub1).
    destruct (IH (S i) w1) as (w2 & made2 & -> & Htrace2 & Hsub2).
    exists w2, (made1 ++ made2). split; [done|].
    split; [by rewrite Htrace2, Htrace1, (assoc_L (++))|].
    unfold createPath_prefixes_from in *.
    change (seq i (S count)) with (seq i 1 ++ seq (S i) count).
    rewrite filter_app, !fmap_app. by apply sublist_app.
Qed.

(** X22. [DumpFile::open(filename, true)] on Yuza nodes asks [mkdir]
    only for prefixes of the filename that end just before a slash or a
    backslash, each in the form the node constructor gives its path, in
    the order of their length and at most once for each separator.
    Assumed of [YuzaIoStream::makeFromPath], which is outside the file:
    it returns and calls no [mkdir] itself. *)
Theorem DumpFile_open_createPath_mkdir_calls
    (f : DumpFile.t Stream) (filename : string) (w : World FS) :
  (∀ path writeMode, returns (makeFromPath (FS:=FS) (Stream:=Stream) path writeMode)) →
  (∀ path writeMode, makes_no_directory (makeFromPath (FS:=FS) (Stream:=Stream) path writeMode)) →
  filename ≠ "" → DumpFile._handle f = None →
  ∃ r w' made,
    DumpFile.open (backend:=YuzaBackend) f filename true w = Ret (r, w')
    ∧ mkdir_paths (w_trace w') = mkdir_paths (w_trace w) ++ made
    ∧ made `sublist_of` ((λ p, c_str (node_path p)) <$> createPath_prefixes filename).
Proof.
  intros Hreturns Hio Hne Hclosed.
  pose proof (DumpFile_isOpen_closed f Hclosed) as Hnotopen.
  unfold DumpFile.open. unfold mbind at 1 2 3 4, M_bind at 1 2 3 4. unfold assert_.
  rewrite (empty_false _ Hne), Hnotopen. simpl.
  destruct (createPath_loop_trace filename (String.length filename) 0 w)
    as (w1 & made & -> & Htrace1 & Hsub).
  destruct (YuzaFilesystemNode_new_trace filename w1 Hne) as (node & w2 & -> & _ & _ & Htrace2).
  unfold DumpFile.open_node. unfold mbind at 1 2, M_bind at 1 2. unfold assert_.
  rewrite Hnotopen. simpl.
  destruct (isDirectory node).
  { unfold_M. eexists _, _, made. split; [done|]. simpl.
    rewrite mkdir_paths_app, Htrace2, Htrace1. simpl. by rewrite app_nil_r. }
  unfold mbind at 1, M_bind at 1. unfold createWriteStream.
  destruct (Hreturns (getPath node) true w2) as (handle & w3 & Hstream). rewrite Hstream.
  pose proof (Hio _ _ _ _ _ Hstream) as Htrace3.
  destruct handle as [s|]; simpl; unfold_M; simpl; eexists _, _, made;
    (split; [done|]); simpl; rewrite ?mkdir_paths_app; simpl;
    rewrite ?app_nil_r, Htrace3, Htrace2, Htrace1; by split.
Qed.

End CreatePathOnYuza.

Lemma DumpFile_open_createPath_mkdir_calls_witness :
  ∃ r w' made,
    DumpFile.open (backend:=MemBackend) (DumpFile.mk None) "a/b/c.txt" true (mem_world [])
      = Ret (r, w')
    ∧ mkdir_paths (w_trace w') = mkdir_paths (w_trace (mem_world [])) ++ made
    ∧ made `sublist_of` ["a"; "a/b"].
Proof.
  apply (DumpFile_open_createPath_mkdir_calls (os:=MemOS) (cs:=MemStr) (build:=YuzaBuild)
           (ios:=MemIoStream) (DumpFile.mk None) "a/b/c.txt" (mem_world [])).
  - apply mem_makeFromPath_returns.
  - intros path writeMode w a w'. simpl. unfold mem_makeFromPath.
    destruct writeMode; [destruct (_ && _)|destruct (bool_decide _)]; by intros [= <- <-].
  - discriminate.
  - reflexivity.
Defined.
